(** * A shallow embedding of the card-channel bot (app.js, config.js)

    The bot is one sequential control loop ([main]) over six module-level
    variables and three JSON files.  Every iteration performs, in order, the
    auto-stop check, one long poll whose updates are dispatched as operator
    commands, and the emission check.

    Modelling conventions.
    - JavaScript numbers that the program keeps are integers and are embedded
      as [Z]; the embedding computes with them exactly.  The program's
      doubles agree with it between -2^53 and 2^53; the properties that
      depend on the value of a parsed argument are stated within that range
      or use its sign only, and the comparisons of times are used in the
      direction that rounding cannot change.
    - Text is embedded as [string], the bytes of its UTF-8 form, and is cut
      into characters where the program looks at characters: white space is
      the whole class [\s], lengths and slices count UTF-16 code units.  Case
      folding acts on [A-Z], which is all that a comparison with the ASCII
      command names can observe.
    - Everything the program obtains from outside (the clock, [Math.random],
      the outcome of HTTP requests) is read from a [World] of oracles, one
      reading per call, in call order.
    - The JSON files are embedded by their decoded content; reads and writes
      are taken to succeed.
    - Console output is left out; messages sent, sleeps, polls and BIN
      look-ups are recorded in a trace. *)

From Stdlib Require Import ZArith String Ascii List Lia Bool.
From stdpp Require Import gmap strings list pretty sorting.

Open Scope string_scope.
Open Scope Z_scope.

(** ** JavaScript built-ins used by the program *)
Module Js.

(** *** Characters

    A string is kept by the bytes of its UTF-8 form: a pair of surrogates
    by the four bytes of its character, a surrogate half that stands alone
    by the three bytes of its code unit.  [chars] cuts it into its
    characters: a first byte with the continuation bytes it announces, as
    far as they follow. *)

Definition is_cont (c : ascii) : bool :=
  let n := N_of_ascii c in N.leb 128 n && N.ltb n 192.

(** How many continuation bytes a first byte announces. *)
Definition tail_bytes (c : ascii) : nat :=
  let n := N_of_ascii c in
  if N.ltb n 192 then 0%nat
  else if N.ltb n 224 then 1%nat
  else if N.ltb n 240 then 2%nat
  else if N.ltb n 248 then 3%nat
  else 0%nat.

(** A continuation byte that no first byte has claimed yet. *)
Definition single_cont (x : string) : bool :=
  match x with
  | String c EmptyString => is_cont c
  | _ => false
  end.

(** Up to [k] continuation bytes at the head of [l], and what follows. *)
Fixpoint take_cont (k : nat) (l : list string) : string * list string :=
  match k, l with
  | S k', x :: rest =>
      if single_cont x
      then let '(t, rest') := take_cont k' rest in (x ++ t, rest')
      else (EmptyString, l)
  | _, _ => (EmptyString, l)
  end.

Fixpoint chars (s : string) : list string :=
  match s with
  | EmptyString => []
  | String c r =>
      let '(t, rest) := take_cont (tail_bytes c) (chars r) in String c t :: rest
  end.

(** The text made of the characters [l]. *)
Fixpoint text_of (l : list string) : string :=
  match l with
  | [] => EmptyString
  | x :: r => x ++ text_of r
  end.

(** The UTF-8 bytes of a code point below 65536. *)
Definition utf8 (cp : N) : string :=
  if N.ltb cp 128 then String (ascii_of_N cp) EmptyString
  else if N.ltb cp 2048 then
    String (ascii_of_N (192 + cp / 64))
      (String (ascii_of_N (128 + cp mod 64)) EmptyString)
  else
    String (ascii_of_N (224 + cp / 4096))
      (String (ascii_of_N (128 + (cp / 64) mod 64))
         (String (ascii_of_N (128 + cp mod 64)) EmptyString)).

(** The code points of the regexp class [\s], which are also what [trim]
    strips and [parseInt] skips: TAB, LF, VT, FF, CR, space, U+00A0, U+1680,
    U+2000 to U+200A, U+2028, U+2029, U+202F, U+205F, U+3000 and U+FEFF. *)
Definition white_space : list N :=
  [9; 10; 11; 12; 13; 32; 160; 5760;
   8192; 8193; 8194; 8195; 8196; 8197; 8198; 8199; 8200; 8201; 8202;
   8232; 8233; 8239; 8287; 12288; 65279]%N.

Definition is_ws (x : string) : bool :=
  existsb (fun cp => String.eqb x (utf8 cp)) white_space.

(** A character outside the basic plane takes two UTF-16 code units. *)
Definition astral (x : string) : bool :=
  match x with
  | String c (String _ (String _ (String _ EmptyString))) => N.leb 240 (N_of_ascii c)
  | _ => false
  end.

Definition units (x : string) : nat := if astral x then 2%nat else 1%nat.

(** The first code unit of a character outside the basic plane: the high
    surrogate, by its three bytes.  The quotient is below 1024 for every
    code point; [mod] bounds it for bytes that encode none. *)
Definition high_half (x : string) : string :=
  match x with
  | String b0 (String b1 (String b2 (String b3 EmptyString))) =>
      let cp := ((N_of_ascii b0 - 240) * 262144 + (N_of_ascii b1 - 128) * 4096
                 + (N_of_ascii b2 - 128) * 64 + (N_of_ascii b3 - 128))%N in
      utf8 (55296 + ((cp - 65536) / 1024) mod 1024)
  | _ => x
  end.

Fixpoint count_units (l : list string) : nat :=
  match l with
  | [] => 0%nat
  | x :: r => (units x + count_units r)%nat
  end.

(** [s.length], in UTF-16 code units. *)
Definition length (s : string) : nat := count_units (chars s).

(** The characters that fit into [n] code units; a character of two units
    that straddles the end leaves its first half. *)
Fixpoint take_units (n : nat) (l : list string) : list string :=
  match n, l with
  | S k, x :: r =>
      if astral x then
        match k with
        | O => [high_half x]
        | S k' => x :: take_units k' r
        end
      else x :: take_units k r
  | _, _ => []
  end.

(** [s.slice(0, n)]. *)
Definition slice0 (n : nat) (s : string) : string := text_of (take_units n (chars s)).

(** *** White space *)

Fixpoint drop_ws (l : list string) : list string :=
  match l with
  | [] => []
  | x :: r => if is_ws x then drop_ws r else l
  end.

Fixpoint drop_ws_end (l : list string) : list string :=
  match l with
  | [] => []
  | x :: r =>
      match drop_ws_end r with
      | [] => if is_ws x then [] else [x]
      | r' => x :: r'
      end
  end.

Definition trimStart (s : string) : string := text_of (drop_ws (chars s)).

Definition trimEnd (s : string) : string := text_of (drop_ws_end (chars s)).

(** [String.prototype.trim]. *)
Definition trim (s : string) : string := text_of (drop_ws_end (drop_ws (chars s))).

(** [s.split(/\s+/)]: the pieces between the maximal runs of white space.
    [in_run] tells that the previous character belonged to a run, whose
    piece boundary has been emitted already.  The first element of the
    result is the piece under construction. *)
Fixpoint split_ws_aux (in_run : bool) (l : list string) : list string :=
  match l with
  | [] => [EmptyString]
  | x :: r =>
      if is_ws x then
        if in_run then split_ws_aux true r
        else EmptyString :: split_ws_aux true r
      else
        match split_ws_aux false r with
        | p :: ps => (x ++ p) :: ps
        | [] => [x]
        end
  end.

Definition split_ws (s : string) : list string := split_ws_aux false (chars s).

(** [s.split(/\s+/, limit)]: the array is cut at [limit] elements; what
    follows is dropped, not kept in the last element. *)
Definition split_ws_limit (s : string) (limit : nat) : list string :=
  firstn limit (split_ws s).

(** [s.split(",")]. *)
Fixpoint split_comma (s : string) : list string :=
  match s with
  | EmptyString => [EmptyString]
  | String c s' =>
      if Ascii.eqb c ","%char then EmptyString :: split_comma s'
      else
        match split_comma s' with
        | p :: ps => String c p :: ps
        | [] => [String c EmptyString]
        end
  end.

(** [s.replace(/\s/g, "")]. *)
Definition remove_ws (s : string) : string :=
  text_of (List.filter (fun x => negb (is_ws x)) (chars s)).

Definition lower_char (c : ascii) : ascii :=
  let n := N_of_ascii c in
  if N.leb 65 n && N.leb n 90 then ascii_of_N (n + 32) else c.

(** [String.prototype.toLowerCase] on the ASCII letters. *)
Fixpoint toLowerCase (s : string) : string :=
  match s with
  | EmptyString => EmptyString
  | String c s' => String (lower_char c) (toLowerCase s')
  end.

(** [text.startsWith(p)]. *)
Definition startsWith (text p : string) : bool := String.prefix p text.

(** [arr.includes(x)] on an array of strings. *)
Definition includes (l : list string) (x : string) : bool :=
  existsb (String.eqb x) l.

(** [arr.join(sep)]. *)
Fixpoint join (sep : string) (l : list string) : string :=
  match l with
  | [] => EmptyString
  | [x] => x
  | x :: rest => x ++ sep ++ join sep rest
  end.

(** [s.padStart(n, "0")]. *)
Definition padStart0 (n : nat) (s : string) : string :=
  String.concat EmptyString (repeat "0" (n - length s)) ++ s.

(** [String(n)] and template interpolation of an integer below 10^21 in
    size (from there on JavaScript writes a number with an exponent). *)
Definition num_to_string (n : Z) : string := pretty n.

(** Value of [c] as a digit in [radix], if it is one. *)
Definition digit_val (radix : Z) (c : ascii) : option Z :=
  let n := Z.of_N (N_of_ascii c) in
  let v := if (48 <=? n) && (n <=? 57) then Some (n - 48)
           else if (97 <=? n) && (n <=? 122) then Some (n - 87)
           else if (65 <=? n) && (n <=? 90) then Some (n - 55)
           else None in
  match v with
  | Some d => if d <? radix then Some d else None
  | None => None
  end.

(** The longest prefix of digits, read in [radix]; [acc] is [None] until a
    digit has been seen. *)
Fixpoint parse_digits (radix : Z) (acc : option Z) (s : string) : option Z :=
  match s with
  | EmptyString => acc
  | String c s' =>
      match digit_val radix c with
      | Some d =>
          parse_digits radix
            (Some (match acc with Some a => a * radix + d | None => d end)) s'
      | None => acc
      end
  end.

(** [parseInt(s)] with no radix: leading white space is skipped, a sign
    and a [0x] prefix are recognised, then the longest prefix of digits is
    read and the rest of the string is ignored.  [None] is [NaN].  The
    result is the integer that the digits denote; JavaScript returns the
    double nearest to it, which is that integer up to 2^53 in size. *)
Definition parseInt (s : string) : option Z :=
  let s1 := trimStart s in
  let '(sign, s2) :=
    match s1 with
    | String "-" r => (-1, r)
    | String "+" r => (1, r)
    | _ => (1, s1)
    end in
  let '(radix, s3) :=
    match s2 with
    | String "0" (String x r) =>
        if Ascii.eqb x "x"%char || Ascii.eqb x "X"%char then (16, r) else (10, s2)
    | _ => (10, s2)
    end in
  match parse_digits radix None s3 with
  | Some v => Some (sign * v)
  | None => None
  end.

(** Days since 1970-01-01 to the proleptic Gregorian year, month, day. *)
Definition civil_from_days (days : Z) : Z * Z * Z :=
  let z := days + 719468 in
  let era := z / 146097 in
  let doe := z - era * 146097 in
  let yoe := (doe - doe / 1460 + doe / 36524 - doe / 146096) / 365 in
  let doy := doe - (365 * yoe + yoe / 4 - yoe / 100) in
  let mp := (5 * doy + 2) / 153 in
  let d := doy - (153 * mp + 2) / 5 + 1 in
  let m := if mp <? 10 then mp + 3 else mp - 9 in
  (if m <=? 2 then yoe + era * 400 + 1 else yoe + era * 400, m, d).

Definition pad (n : nat) (v : Z) : string := padStart0 n (num_to_string v).

(** [new Date(ms).toISOString()]: [YYYY-MM-DDTHH:mm:ss.sssZ], with the
    signed six-digit year outside 0..9999. *)
Definition toISOString (ms : Z) : string :=
  let rem := ms mod 86400000 in
  let '(y, m, d) := civil_from_days (ms / 86400000) in
  let year := if (0 <=? y) && (y <=? 9999) then pad 4 y
              else (if y <? 0 then "-" else "+") ++ pad 6 (Z.abs y) in
  year ++ "-" ++ pad 2 m ++ "-" ++ pad 2 d ++ "T"
    ++ pad 2 (rem / 3600000) ++ ":" ++ pad 2 (rem / 60000 mod 60) ++ ":"
    ++ pad 2 (rem / 1000 mod 60) ++ "." ++ pad 3 (rem mod 1000) ++ "Z".

(** [s.replace("T", " ")]: the first occurrence only. *)
Fixpoint replace_first_T (s : string) : string :=
  match s with
  | EmptyString => EmptyString
  | String c s' =>
      if Ascii.eqb c "T"%char then String " "%char s' else String c (replace_first_T s')
  end.

End Js.

(** ** Configuration (config.js) and data model *)

(** A Telegram identifier as the program compares it: [!==] and [===] tell
    a number from a string. *)
Inductive JsId :=
| IdNum (n : Z)
| IdStr (s : string).

Definition id_eqb (a b : JsId) : bool :=
  match a, b with
  | IdNum x, IdNum y => Z.eqb x y
  | IdStr x, IdStr y => String.eqb x y
  | _, _ => false
  end.

Record Config := {
  BOT_TOKEN : string;
  CHANNEL_ID : JsId;
  ADMIN_ID : JsId;
  STATS_FILE : string;
  EVENTS_FILE : string;
  BINS_FILE : string;
  DEFAULT_INTERVAL : Z;
  ERROR_SLEEP : Z;
  POLL_TIMEOUT : Z
}.

(** config.js as committed: the three identities are left blank. *)
Definition config_js : Config := {|
  BOT_TOKEN := "";
  CHANNEL_ID := IdStr "";
  ADMIN_ID := IdStr "";
  STATS_FILE := "stats.json";
  EVENTS_FILE := "events.json";
  BINS_FILE := "bins.json";
  DEFAULT_INTERVAL := 10;
  ERROR_SLEEP := 600;
  POLL_TIMEOUT := 30
|}.

(** The module-level variables of app.js.  [lastSendTime] holds
    [Date.now() / 1000], a fraction of seconds; the embedding keeps its
    numerator, in milliseconds.  The other times are whole seconds. *)
Record Globals := {
  isRunning : bool;
  stopEndTime : option Z;
  runStartTime : option Z;
  lastSendTime : Z;
  offset : Z;
  interval : Z
}.

Definition with_isRunning (v : bool) (g : Globals) : Globals :=
  {| isRunning := v; stopEndTime := stopEndTime g; runStartTime := runStartTime g;
     lastSendTime := lastSendTime g; offset := offset g; interval := interval g |}.
Definition with_stopEndTime (v : option Z) (g : Globals) : Globals :=
  {| isRunning := isRunning g; stopEndTime := v; runStartTime := runStartTime g;
     lastSendTime := lastSendTime g; offset := offset g; interval := interval g |}.
Definition with_runStartTime (v : option Z) (g : Globals) : Globals :=
  {| isRunning := isRunning g; stopEndTime := stopEndTime g; runStartTime := v;
     lastSendTime := lastSendTime g; offset := offset g; interval := interval g |}.
Definition with_lastSendTime (v : Z) (g : Globals) : Globals :=
  {| isRunning := isRunning g; stopEndTime := stopEndTime g; runStartTime := runStartTime g;
     lastSendTime := v; offset := offset g; interval := interval g |}.
Definition with_offset (v : Z) (g : Globals) : Globals :=
  {| isRunning := isRunning g; stopEndTime := stopEndTime g; runStartTime := runStartTime g;
     lastSendTime := lastSendTime g; offset := v; interval := interval g |}.
Definition with_interval (v : Z) (g : Globals) : Globals :=
  {| isRunning := isRunning g; stopEndTime := stopEndTime g; runStartTime := runStartTime g;
     lastSendTime := lastSendTime g; offset := offset g; interval := v |}.

(** One day of stats.json. *)
Record DayStats := { sent : Z; error : Z }.

Inductive StatKey := KeySent | KeyError.

(** A value stored under an extra key of an event. *)
Inductive JVal :=
| JNum (n : Z)
| JStr (s : string)
| JArr (l : list string).

(** One entry of events.json: [type], [timestamp], then the extra keys. *)
Record Event := {
  ev_type : string;
  ev_timestamp : string;
  ev_extra : list (string * JVal)
}.

(** The decoded content of the three files; a missing file reads as the
    empty object, so as no day, no event and no BIN. *)
Record Disk := {
  stats : gmap string DayStats;
  events : list Event;
  bins : list string
}.

Definition with_stats (v : gmap string DayStats) (d : Disk) : Disk :=
  {| stats := v; events := events d; bins := bins d |}.
Definition with_events (v : list Event) (d : Disk) : Disk :=
  {| stats := stats d; events := v; bins := bins d |}.
Definition with_bins (v : list string) (d : Disk) : Disk :=
  {| stats := stats d; events := events d; bins := v |}.

(** The inline keyboard attached to a card. *)
Record Markup := { button_text : string; button_url : string }.

(** What the program does to the outside, oldest first. *)
Inductive Effect :=
| Sent (chat : JsId) (text : string) (markup : option Markup)
| Slept (ms : Z)
| Polled (offsetValue : Z)
| Looked (bin : string).

(** Inbound updates. *)
Record Message := { from_id : JsId; text : option string }.
Record Update := { update_id : Z; message : option Message }.

(** The body of a 200 answer of the BIN service. *)
Record BinData := {
  data_brand : option string;
  data_type : option string;
  data_level : option string;
  data_bank : option string;
  data_country_name : option string;
  data_country_flag : option string
}.

Inductive BinResponse :=
| BinOk (data : BinData)
| BinFailed.

(** The outside world: the k-th call of each kind receives the k-th
    reading.  [Date_now_at] is in milliseconds; [Math_random_at] is the
    numerator of the draw over 2^53. *)
Record World := {
  Date_now_at : nat -> Z;
  Math_random_at : nat -> Z;
  sendMessage_at : nat -> bool;
  getBinDetails_at : nat -> BinResponse;
  getUpdates_at : nat -> option (list Update)
}.

(** How many readings of each kind have been consumed. *)
Record Cursor := {
  n_now : nat;
  n_random : nat;
  n_send : nat;
  n_bin : nat;
  n_poll : nat
}.

(** The whole state threaded through the program. *)
Record Sys := {
  g : Globals;
  disk : Disk;
  cur : Cursor;
  trace : list Effect
}.

Definition M (A : Type) : Type := Sys -> A * Sys.

Definition ret {A} (a : A) : M A := fun s => (a, s).

Definition bind {A B} (m : M A) (k : A -> M B) : M B :=
  fun s => let '(a, s') := m s in k a s'.

Notation "x <- m ;; k" := (bind m (fun x => k))
  (at level 100, m at next level, right associativity).
Notation "m ;; k" := (bind m (fun _ => k))
  (at level 100, right associativity).

Definition exec {A} (m : M A) (s : Sys) : Sys := snd (m s).

Definition globals : M Globals := fun s => (g s, s).

Definition assign (f : Globals -> Globals) : M unit :=
  fun s => (tt, {| g := f (g s); disk := disk s; cur := cur s; trace := trace s |}).

(** [readDisk] and [writeDisk] stand for [loadJSON] and [saveJSON] on the
    three files.  The files are taken to be readable and to hold what was
    last saved: the empty object that [loadJSON] answers for a file it
    cannot read or decode, and a save that fails, are outside the model. *)
Definition readDisk : M Disk := fun s => (disk s, s).

Definition writeDisk (f : Disk -> Disk) : M unit :=
  fun s => (tt, {| g := g s; disk := f (disk s); cur := cur s; trace := trace s |}).

Definition emit (e : Effect) : M unit :=
  fun s => (tt, {| g := g s; disk := disk s; cur := cur s; trace := trace s ++ [e] |}).

(** [for (const x of l) body(x)]. *)
Fixpoint for_each {A} (l : list A) (body : A -> M unit) : M unit :=
  match l with
  | [] => ret tt
  | x :: rest => body x ;; for_each rest body
  end.

(** [sleep(ms)]. *)
Definition sleep (ms : Z) : M unit := emit (Slept ms).

(** JS truthiness of a number-or-null. *)
Definition truthy (v : option Z) : bool :=
  match v with
  | Some n => negb (n =? 0)
  | None => false
  end.

(** A number-or-null used in arithmetic: [null] counts as 0. *)
Definition to_number (v : option Z) : Z :=
  match v with
  | Some n => n
  | None => 0
  end.

(** [o || d] for a string that may be absent. *)
Definition or_default (o : option string) (d : string) : string :=
  match o with
  | Some EmptyString => d
  | Some s => s
  | None => d
  end.

Definition tick_now (c : Cursor) : Cursor :=
  {| n_now := S (n_now c); n_random := n_random c; n_send := n_send c;
     n_bin := n_bin c; n_poll := n_poll c |}.
Definition tick_random (c : Cursor) : Cursor :=
  {| n_now := n_now c; n_random := S (n_random c); n_send := n_send c;
     n_bin := n_bin c; n_poll := n_poll c |}.
Definition tick_send (c : Cursor) : Cursor :=
  {| n_now := n_now c; n_random := n_random c; n_send := S (n_send c);
     n_bin := n_bin c; n_poll := n_poll c |}.
Definition tick_bin (c : Cursor) : Cursor :=
  {| n_now := n_now c; n_random := n_random c; n_send := n_send c;
     n_bin := S (n_bin c); n_poll := n_poll c |}.
Definition tick_poll (c : Cursor) : Cursor :=
  {| n_now := n_now c; n_random := n_random c; n_send := n_send c;
     n_bin := n_bin c; n_poll := S (n_poll c) |}.

Definition advance (f : Cursor -> Cursor) : M unit :=
  fun s => (tt, {| g := g s; disk := disk s; cur := f (cur s); trace := trace s |}).

(** What [getBinDetails] returns. *)
Record BinInfo := {
  brand : string;
  type : string;
  level : string;
  bank : string;
  country_name : string;
  country_flag : string
}.

(** What [generateCardData] returns. *)
Record Card := {
  bin : string;
  card_number : string;
  month : string;
  year : string;
  cvv : string
}.

Definition quote : string := String (ascii_of_nat 34) EmptyString.
Definition newline : string := String (ascii_of_nat 10) EmptyString.

(** ** [JSON.stringify] of the extra keys of an event *)

Definition hex_digit (n : N) : string :=
  String.substring (N.to_nat n) 1 "0123456789abcdef".

Definition json_escape_char (c : ascii) : string :=
  let n := N_of_ascii c in
  if N.eqb n 34 then "\" ++ quote
  else if N.eqb n 92 then "\\"
  else if N.eqb n 8 then "\b"
  else if N.eqb n 12 then "\f"
  else if N.eqb n 10 then "\n"
  else if N.eqb n 13 then "\r"
  else if N.eqb n 9 then "\t"
  else if N.ltb n 32 then "\u00" ++ hex_digit (N.div n 16) ++ hex_digit (N.modulo n 16)
  else String c EmptyString.

Fixpoint json_escape (s : string) : string :=
  match s with
  | EmptyString => EmptyString
  | String c s' => json_escape_char c ++ json_escape s'
  end.

Definition json_string (s : string) : string := quote ++ json_escape s ++ quote.

Definition json_value (v : JVal) : string :=
  match v with
  | JNum n => Js.num_to_string n
  | JStr s => json_string s
  | JArr l => "[" ++ Js.join "," (map json_string l) ++ "]"
  end.

Definition json_object (o : list (string * JVal)) : string :=
  "{" ++ Js.join "," (map (fun kv => json_string (fst kv) ++ ":" ++ json_value (snd kv)) o) ++ "}".

(** ** The program *)
Section Program.

Variable cfg : Config.
Variable w : World.

(** [Date.now()], in milliseconds. *)
Definition Date_now : M Z :=
  fun s => (Date_now_at w (n_now (cur s)),
            {| g := g s; disk := disk s; cur := tick_now (cur s); trace := trace s |}).

(** [Math.random()], as the numerator of a fraction over 2^53. *)
Definition Math_random : M Z :=
  fun s => (Math_random_at w (n_random (cur s)) mod 2 ^ 53,
            {| g := g s; disk := disk s; cur := tick_random (cur s); trace := trace s |}).

(** [Math.floor(Math.random() * n)]. *)
Definition floor_random_times (n : Z) : M Z :=
  r <- Math_random ;; ret (r * n / 2 ^ 53).

(** [incrementStats(key, amount)]. *)
Definition bump (key : StatKey) (amount : Z) (d : DayStats) : DayStats :=
  match key with
  | KeySent => {| sent := sent d + amount; error := error d |}
  | KeyError => {| sent := sent d; error := error d + amount |}
  end.

Definition today_of (now : Z) : string := Js.slice0 10 (Js.toISOString now).

Definition incrementStats (key : StatKey) (amount : Z) : M unit :=
  d <- readDisk ;;
  now <- Date_now ;;
  let today := today_of now in
  let stats1 :=
    match stats d !! today with
    | Some _ => stats d
    | None => <[today := {| sent := 0; error := 0 |}]> (stats d)
    end in
  let stats2 :=
    match stats1 !! today with
    | Some day => <[today := bump key amount day]> stats1
    | None => stats1
    end in
  writeDisk (with_stats stats2).

(** [logEvent(eventType, extra)]. *)
Definition timestamp_of (now : Z) : string :=
  Js.slice0 19 (Js.replace_first_T (Js.toISOString now)).

Definition logEvent (eventType : string) (extra : list (string * JVal)) : M unit :=
  d <- readDisk ;;
  now <- Date_now ;;
  let entry := {| ev_type := eventType; ev_timestamp := timestamp_of now;
                  ev_extra := extra |} in
  writeDisk (with_events (events d ++ [entry])).

Definition loadBins : M (list string) :=
  d <- readDisk ;; ret (bins d).

Definition saveBins (binList : list string) : M unit :=
  writeDisk (with_bins binList).

(** [getUpdates(offsetValue)]: [None] stands for [null] and for an answer
    whose [ok] is not true. *)
Definition getUpdates (offsetValue : Z) : M (option (list Update)) :=
  emit (Polled offsetValue) ;;
  fun s => (getUpdates_at w (n_poll (cur s)),
            {| g := g s; disk := disk s; cur := tick_poll (cur s); trace := trace s |}).

(** [sendMessage(chatId, text, replyMarkup)]: true on status 200. *)
Definition sendMessage (chatId : JsId) (text : string) (replyMarkup : option Markup)
  : M bool :=
  emit (Sent chatId text replyMarkup) ;;
  fun s => (sendMessage_at w (n_send (cur s)),
            {| g := g s; disk := disk s; cur := tick_send (cur s); trace := trace s |}).

Definition unknown_bin : BinInfo :=
  {| brand := "Unknown"; type := "Unknown"; level := "Unknown"; bank := "Unknown";
     country_name := "Unknown"; country_flag := "🏳️" |}.

(** [getBinDetails(binNumber)]. *)
Definition getBinDetails (binNumber : string) : M BinInfo :=
  emit (Looked binNumber) ;;
  fun s =>
    (match getBinDetails_at w (n_bin (cur s)) with
     | BinOk data =>
         {| brand := or_default (data_brand data) "Unknown";
            type := or_default (data_type data) "Unknown";
            level := or_default (data_level data) "Unknown";
            bank := or_default (data_bank data) "Unknown";
            country_name := or_default (data_country_name data) "Unknown";
            country_flag := or_default (data_country_flag data) "🏳️" |}
     | BinFailed => unknown_bin
     end,
     {| g := g s; disk := disk s; cur := tick_bin (cur s); trace := trace s |}).

(** The loop that appends [remainLen] random digits. *)
Fixpoint random_digits (n : nat) (tail : string) : M string :=
  match n with
  | O => ret tail
  | S n' =>
      d <- floor_random_times 10 ;;
      random_digits n' (tail ++ Js.num_to_string d)
  end.

(** [generateCardData()]: [None] is [null]. *)
Definition generateCardData : M (option Card) :=
  binsList <- loadBins ;;
  if Nat.eqb (length binsList) 0 then ret None
  else
    i <- floor_random_times (Z.of_nat (length binsList)) ;;
    let chosenBin := Js.slice0 6 (Js.trim (nth (Z.to_nat i) binsList "")) in
    let remainLen := (16 - Js.length chosenBin)%nat in
    tail <- random_digits remainLen "" ;;
    let cardNumber := chosenBin ++ tail in
    m <- floor_random_times 16 ;;
    let month := Js.padStart0 2 (Js.num_to_string (m + 1)) in
    y <- floor_random_times (32 - 24 + 1) ;;
    let year := Js.padStart0 2 (Js.num_to_string (y + 24)) in
    c <- floor_random_times (999 - 100 + 1) ;;
    let cvv := Js.padStart0 3 (Js.num_to_string (c + 100)) in
    ret (Some {| bin := chosenBin; card_number := cardNumber; month := month;
                 year := year; cvv := cvv |}).

(** The first loop of [generateRandomBins]. *)
Fixpoint random_bins (n : nat) (result : list string) : M (list string) :=
  match n with
  | O => ret result
  | S n' =>
      coin <- Math_random ;;
      bin6 <- (if coin <? 2 ^ 52
               then r <- floor_random_times (499999 - 400000 + 1) ;; ret (r + 400000)
               else r <- floor_random_times (559999 - 510000 + 1) ;; ret (r + 510000)) ;;
      random_bins n' (result ++ [Js.num_to_string bin6])
  end.

(** The shuffle: [i] runs from [result.length - 1] down to 1. *)
Fixpoint shuffle (i : nat) (result : list string) : M (list string) :=
  match i with
  | O => ret result
  | S i' =>
      j <- floor_random_times (Z.of_nat i + 1) ;;
      let ri := nth i result "" in
      let rj := nth (Z.to_nat j) result "" in
      shuffle i' (<[Z.to_nat j := ri]> (<[i := rj]> result))
  end.

(** [generateRandomBins(count)].  The array of the program holds fewer
    than 2^32 elements, so the call returns for counts below that only. *)
Definition generateRandomBins (count : Z) : M (list string) :=
  result <- random_bins (Z.to_nat count) [] ;;
  shuffle (length result - 1) result.

(** A call whose result the program does not use. *)
Definition await {A} (m : M A) : M unit := m ;; ret tt.

Definition knownCmds : list string :=
  ["/start"; "/stop"; "/time"; "/info"; "/logs"; "/bin"; "/remove"; "/r";
   "/stime"; "/gen"].

Definition not_authorized_text : string :=
  "You are not authorized to use this bot. Please contact admin @ethicalakash.".

(** *** Step 1 of the loop: auto-stop *)
Definition auto_stop_check : M unit :=
  g0 <- globals ;;
  if truthy (stopEndTime g0) then
    now <- Date_now ;;
    if now >=? 1000 * to_number (stopEndTime g0) then
      assign (with_isRunning false) ;;
      now2 <- Date_now ;;
      g1 <- globals ;;
      let ranSecs := (now2 - 1000 * to_number (runStartTime g1)) / 1000 in
      logEvent "auto-stop" [("ran_for_seconds", JNum ranSecs)] ;;
      await (sendMessage (ADMIN_ID cfg) "⏹️ Time is up! The bot is now off." None) ;;
      assign (with_runStartTime None) ;;
      assign (with_stopEndTime None)
    else ret tt
  else ret tt.

(** *** Step 2 of the loop: the operator commands *)

Definition cmd_start : M unit :=
  assign (with_isRunning true) ;;
  assign (with_stopEndTime None) ;;
  now <- Date_now ;;
  assign (with_runStartTime (Some (now / 1000))) ;;
  logEvent "start" [("mode", JStr "indefinite")] ;;
  await (sendMessage (ADMIN_ID cfg) "▶️ Bot started sending cards indefinitely." None).

Definition cmd_stop (cmdParts : list string) : M unit :=
  if (1 <? length cmdParts)%nat then
    match Js.parseInt (nth 1 cmdParts "") with
    | Some stopSecs =>
        assign (with_isRunning true) ;;
        now1 <- Date_now ;;
        assign (with_stopEndTime (Some (now1 / 1000 + stopSecs))) ;;
        now2 <- Date_now ;;
        assign (with_runStartTime (Some (now2 / 1000))) ;;
        logEvent "timed-stop" [("stop_in_seconds", JNum stopSecs)] ;;
        await (sendMessage (ADMIN_ID cfg)
                 ("⏳ Bot will stop automatically in " ++ Js.num_to_string stopSecs
                  ++ " seconds.") None)
    | None => await (sendMessage (ADMIN_ID cfg) "Usage: /stop <seconds>" None)
    end
  else
    assign (with_isRunning false) ;;
    g0 <- globals ;;
    match runStartTime g0 with
    | Some rs =>
        now <- Date_now ;;
        let ranFor := (now - 1000 * rs) / 1000 in
        logEvent "stop" [("ran_for_seconds", JNum ranFor)]
    | None => logEvent "stop" []
    end ;;
    assign (with_runStartTime None) ;;
    assign (with_stopEndTime None) ;;
    await (sendMessage (ADMIN_ID cfg) "⏹️ Bot stopped immediately." None).

Definition cmd_stime (cmdParts : list string) : M unit :=
  if (1 <? length cmdParts)%nat then
    match Js.parseInt (nth 1 cmdParts "") with
    | Some stimeSecs =>
        assign (with_isRunning true) ;;
        now <- Date_now ;;
        assign (with_runStartTime (Some (now / 1000))) ;;
        g0 <- globals ;;
        assign (with_stopEndTime (Some (to_number (runStartTime g0) + stimeSecs))) ;;
        logEvent "stime" [("duration_seconds", JNum stimeSecs)] ;;
        await (sendMessage (ADMIN_ID cfg)
                 ("⏳ Bot started for " ++ Js.num_to_string stimeSecs
                  ++ " seconds. It will stop automatically.") None)
    | None => await (sendMessage (ADMIN_ID cfg) "Usage: /stime <seconds>" None)
    end
  else await (sendMessage (ADMIN_ID cfg) "Usage: /stime <seconds>" None).

Definition cmd_time (cmdParts : list string) : M unit :=
  if (1 <? length cmdParts)%nat then
    match Js.parseInt (nth 1 cmdParts "") with
    | Some newInterval =>
        assign (with_interval newInterval) ;;
        now <- Date_now ;;
        assign (with_lastSendTime now) ;;
        await (sendMessage (ADMIN_ID cfg)
                 ("⏱ Interval set to " ++ Js.num_to_string newInterval
                  ++ " second(s) per card.") None) ;;
        logEvent "interval-change" [("new_interval", JNum newInterval)]
    | None => await (sendMessage (ADMIN_ID cfg) "Usage: /time <seconds>" None)
    end
  else await (sendMessage (ADMIN_ID cfg) "Usage: /time <seconds>" None).

Definition cmd_gen (cmdParts : list string) : M unit :=
  if (1 <? length cmdParts)%nat then
    match Js.parseInt (nth 1 cmdParts "") with
    | Some genCount =>
        if genCount >? 0 then
          binsList <- generateRandomBins genCount ;;
          await (sendMessage (ADMIN_ID cfg) (Js.join "," binsList) None)
        else
          await (sendMessage (ADMIN_ID cfg) "Please specify a positive number for /gen." None)
    | None =>
        await (sendMessage (ADMIN_ID cfg) "Please specify a positive number for /gen." None)
    end
  else await (sendMessage (ADMIN_ID cfg) "Usage: /gen <count>" None).

(** The loop of the [/bin] branch over the submitted tokens. *)
Fixpoint add_bins (newBins currentBins : list string) (addedCount : Z)
  : list string * Z :=
  match newBins with
  | [] => (currentBins, addedCount)
  | b :: rest =>
      let b := Js.trim b in
      if negb (String.eqb b "") && negb (Js.includes currentBins b)
      then add_bins rest (currentBins ++ [b]) (addedCount + 1)
      else add_bins rest currentBins addedCount
  end.

Definition bin_ack (addedCount : Z) (total : nat) : string :=
  "✅ " ++ "Added " ++ Js.num_to_string addedCount ++ " new BIN(s). Total in database: "
    ++ Js.num_to_string (Z.of_nat total).

Definition cmd_bin (cmdParts : list string) : M unit :=
  if (1 <? length cmdParts)%nat then
    let rawBins := Js.remove_ws (nth 1 cmdParts "") in
    let newBins := Js.split_comma rawBins in
    currentBins <- loadBins ;;
    let '(currentBins', addedCount) := add_bins newBins currentBins 0 in
    saveBins currentBins' ;;
    logEvent "add-bin" [("added", JArr newBins)] ;;
    await (sendMessage (ADMIN_ID cfg) (bin_ack addedCount (length currentBins')) None)
  else await (sendMessage (ADMIN_ID cfg) "Usage: /bin <comma-separated BINs>" None).

Definition cmd_remove : M unit :=
  saveBins [] ;;
  logEvent "remove-all" [] ;;
  await (sendMessage (ADMIN_ID cfg) "All BINs have been removed from the database." None).

Definition cmd_r (cmdParts : list string) : M unit :=
  if (1 <? length cmdParts)%nat then
    let binToRemove := Js.trim (nth 1 cmdParts "") in
    currentBins <- loadBins ;;
    if Js.includes currentBins binToRemove then
      saveBins (List.filter (fun b => negb (String.eqb b binToRemove)) currentBins) ;;
      logEvent "remove-bin" [("bin", JStr binToRemove)] ;;
      await (sendMessage (ADMIN_ID cfg)
               ("BIN " ++ binToRemove ++ " removed from the database.") None)
    else
      await (sendMessage (ADMIN_ID cfg)
               ("BIN " ++ binToRemove ++ " not found in the database.") None)
  else await (sendMessage (ADMIN_ID cfg) "Usage: /r <bin>" None).

(** [Object.keys(stats).sort()]. *)
Definition sorted_days (st : gmap string DayStats) : list string :=
  merge_sort (fun a b => Is_true (String.leb a b)) (map fst (map_to_list st)).

Definition info_line (st : gmap string DayStats) (day : string) : string :=
  let d := default {| sent := 0; error := 0 |} (st !! day) in
  "• <b>" ++ day ++ "</b> => Sent: " ++ Js.num_to_string (sent d)
    ++ ", Errors: " ++ Js.num_to_string (error d).

Definition cmd_info : M unit :=
  d <- readDisk ;;
  if Nat.eqb (size (stats d)) 0 then
    await (sendMessage (ADMIN_ID cfg) "No stats found yet." None)
  else
    let allDays := sorted_days (stats d) in
    let recentDays := skipn (length allDays - 10) allDays in
    let lines := "📊 <b>Daily Stats (Last 10 Days)</b>" :: map (info_line (stats d)) recentDays in
    await (sendMessage (ADMIN_ID cfg) (Js.join newline lines) None).

Definition log_line (i : nat) (ev : Event) : string :=
  let etype := if String.eqb (ev_type ev) "" then "unknown" else ev_type ev in
  "<b>" ++ Js.num_to_string (Z.of_nat i + 1) ++ ".</b> <b>Type:</b> " ++ etype
    ++ ", <b>Time:</b> " ++ ev_timestamp ev ++ ", <b>Data:</b> "
    ++ json_object (ev_extra ev).

Definition cmd_logs : M unit :=
  d <- readDisk ;;
  if Nat.eqb (length (events d)) 0 then
    await (sendMessage (ADMIN_ID cfg) "No event logs found." None)
  else
    let lines := "📝 <b>Event Logs</b>" :: imap log_line (events d) in
    await (sendMessage (ADMIN_ID cfg) (Js.join newline lines) None).

(** The chain of comparisons on [command]. *)
Definition admin_command (cmdParts : list string) : M unit :=
  let command := Js.toLowerCase (nth 0 cmdParts "") in
  if String.eqb command "/start" then cmd_start
  else if String.eqb command "/stop" then cmd_stop cmdParts
  else if String.eqb command "/stime" then cmd_stime cmdParts
  else if String.eqb command "/time" then cmd_time cmdParts
  else if String.eqb command "/gen" then cmd_gen cmdParts
  else if String.eqb command "/bin" then cmd_bin cmdParts
  else if String.eqb command "/remove" then cmd_remove
  else if String.eqb command "/r" then cmd_r cmdParts
  else if String.eqb command "/info" then cmd_info
  else if String.eqb command "/logs" then cmd_logs
  else ret tt.

(** [text.trim().split(/\s+/, 2)]. *)
Definition cmdParts_of (text : string) : list string :=
  Js.split_ws_limit (Js.trim text) 2.

(** The body of the loop over [updates.result]. *)
Definition process_update (upd : Update) : M unit :=
  assign (with_offset (update_id upd + 1)) ;;
  match message upd with
  | None => ret tt
  | Some msg =>
      let userId := from_id msg in
      let text := or_default (text msg) "" in
      if Js.startsWith text "/" then
        if negb (id_eqb userId (ADMIN_ID cfg)) then
          if existsb (fun cmd => Js.startsWith (Js.toLowerCase text) cmd) knownCmds
          then await (sendMessage userId not_authorized_text None)
          else ret tt
        else admin_command (cmdParts_of text)
      else ret tt
  end.

(** *** Step 3 of the loop: emission *)

Definition messageText (card : Card) (binInfo : BinInfo) : string :=
  "🔥 AakashScraper v3.1 🔥" ++ newline ++
  "━━━━━━━━━━━━━━" ++ newline ++
  "<b>Card:</b> <code>" ++ card_number card ++ "|" ++ month card ++ "|" ++ year card
    ++ "|" ++ cvv card ++ "</code>" ++ newline ++
  "<b>Status:</b> Approved ✅" ++ newline ++
  "<b>BIN:</b> #" ++ bin card ++ newline ++
  "━━━━━━━━━━━━━━" ++ newline ++
  "<b>Info:</b> <code>" ++ brand binInfo ++ "-" ++ type binInfo ++ "-" ++ level binInfo
    ++ "</code>" ++ newline ++
  "<b>Bank:</b> <code>" ++ bank binInfo ++ "</code>" ++ newline ++
  "<b>Country:</b> <code>" ++ country_name binInfo ++ " [" ++ country_flag binInfo
    ++ "]</code>" ++ newline ++
  "━━━━━━━━━━━━━━" ++ newline ++
  "<b>Extra:</b> <code>" ++ Js.slice0 12 (card_number card) ++ "xxxx|" ++ month card
    ++ "|" ++ year card ++ "|rnd</code>" ++ newline ++
  "<b>Made by:</b> Aakash" ++ newline ++
  "━━━━━━━━━━━━━━".

Definition replyMarkup : Markup :=
  {| button_text := "Join"; button_url := "https://t.me/skylegacyy" |}.

Definition no_bins_text : string :=
  "⚠️ No BINs in database. Add some with /bin <list>.".

Definition send_error_text : string :=
  "⚠️ Error sending card message. Retrying in 600s...".

(** [isRunning && (nowSecs - lastSendTime) >= interval], times 1000 and
    without the rounding of the two divisions and of the difference. *)
Definition due (g0 : Globals) (nowMs : Z) : bool :=
  isRunning g0 && (nowMs - lastSendTime g0 >=? 1000 * interval g0).

(** The emission step.  The result tells whether the iteration goes on to
    the final sleep ([false] after the [continue] of the empty-list case). *)
Definition emit_check : M bool :=
  nowMs <- Date_now ;;
  g0 <- globals ;;
  if due g0 nowMs then
    card <- generateCardData ;;
    match card with
    | None =>
        await (sendMessage (ADMIN_ID cfg) no_bins_text None) ;;
        sleep 5000 ;;
        ret false
    | Some card =>
        binInfo <- getBinDetails (bin card) ;;
        success <- sendMessage (CHANNEL_ID cfg) (messageText card binInfo)
                     (Some replyMarkup) ;;
        (if success then
           incrementStats KeySent 1 ;;
           now <- Date_now ;;
           assign (with_lastSendTime now)
         else
           incrementStats KeyError 1 ;;
           await (sendMessage (ADMIN_ID cfg) send_error_text None) ;;
           sleep (ERROR_SLEEP cfg * 1000) ;;
           now <- Date_now ;;
           assign (with_lastSendTime now)) ;;
        ret true
    end
  else ret true.

(** One iteration of [while (true)]. *)
Definition iteration : M unit :=
  auto_stop_check ;;
  g0 <- globals ;;
  updates <- getUpdates (offset g0) ;;
  match updates with
  | Some result => for_each result process_update
  | None => ret tt
  end ;;
  goes_on <- emit_check ;;
  if goes_on then sleep 1000 else ret tt.

(** The first [n] iterations of [main]. *)
Fixpoint main (n : nat) : M unit :=
  match n with
  | O => ret tt
  | S n' => iteration ;; main n'
  end.

(** The state at process start, over the files found on disk. *)
Definition initial_globals : Globals :=
  {| isRunning := false; stopEndTime := None; runStartTime := None;
     lastSendTime := 0; offset := 0; interval := DEFAULT_INTERVAL cfg |}.

Definition boot (d : Disk) : Sys :=
  {| g := initial_globals; disk := d;
     cur := {| n_now := 0; n_random := 0; n_send := 0; n_bin := 0; n_poll := 0 |};
     trace := [] |}.

End Program.

(** ** Vocabulary of the properties *)

(** The run-state proper: every module-level variable but the poll offset. *)
Definition run_state (g0 : Globals) : bool * option Z * option Z * Z * Z :=
  (isRunning g0, stopEndTime g0, runStartTime g0, lastSendTime g0, interval g0).

(** A timer that is set belongs to a run. *)
Definition run_inv (g0 : Globals) : Prop :=
  (stopEndTime g0 <> None -> isRunning g0 = true)
  /\ (runStartTime g0 <> None -> isRunning g0 = true).

(** An update carrying a text message. *)
Definition text_update (who : JsId) (i : Z) (t : option string) : Update :=
  {| update_id := i; message := Some {| from_id := who; text := t |} |}.

Definition operator_update (cfg : Config) (i : Z) (t : string) : Update :=
  text_update (ADMIN_ID cfg) i (Some t).

(** The text of an update ([msg.text || ""]), and whether the operator
    sent it. *)
Definition update_text (upd : Update) : string :=
  match message upd with
  | Some msg => or_default (text msg) ""
  | None => ""
  end.

Definition from_operator (cfg : Config) (upd : Update) : bool :=
  match message upd with
  | Some msg => id_eqb (from_id msg) (ADMIN_ID cfg)
  | None => false
  end.

(** The command an update makes the program run, if it is one from the
    operator. *)
Definition command_of (cfg : Config) (upd : Update) : option string :=
  if Js.startsWith (update_text upd) "/" && from_operator cfg upd
  then Some (Js.toLowerCase (nth 0 (cmdParts_of (update_text upd)) ""))
  else None.

(** The value a [/time] command of the operator assigns to [interval]. *)
Definition time_argument (cfg : Config) (upd : Update) : option Z :=
  match command_of cfg upd with
  | Some c =>
      let parts := cmdParts_of (update_text upd) in
      if String.eqb c "/time" && (1 <? length parts)%nat
      then Js.parseInt (nth 1 parts "")
      else None
  | None => None
  end.

(** The updates that do not make [interval] negative. *)
Definition time_nonneg (cfg : Config) (upd : Update) : Prop :=
  forall v, time_argument cfg upd = Some v -> 0 <= v.

Definition starts_or_stops (cfg : Config) (upd : Update) : Prop :=
  In (command_of cfg upd) [Some "/start"; Some "/stop"; Some "/stime"].


(** Integer text in the everyday sense: an optional sign, then decimal
    digits and nothing else. *)
Definition is_digit (c : ascii) : bool :=
  let n := N_of_ascii c in N.leb 48 n && N.leb n 57.

Fixpoint all_digits (s : string) : bool :=
  match s with
  | EmptyString => true
  | String c s' => is_digit c && all_digits s'
  end.


(** ** Well-cut lists of characters *)

Fixpoint all_cont (t : string) : bool :=
  match t with
  | EmptyString => true
  | String c t' => Js.is_cont c && all_cont t'
  end.

Definition starts_cont (l : list string) : bool :=
  match l with
  | x :: _ => Js.single_cont x
  | [] => false
  end.

(** [x] is a character as [Js.chars] cuts it when [next] follows: a first
    byte with continuation bytes, no more than it announces, and fewer only
    if no continuation byte follows. *)
Definition char_ok (x : string) (next : list string) : bool :=
  match x with
  | String c t =>
      all_cont t && (String.length t <=? Js.tail_bytes c)%nat
      && ((String.length t =? Js.tail_bytes c)%nat || negb (starts_cont next))
  | EmptyString => false
  end.

Fixpoint tokenised (l : list string) : bool :=
  match l with
  | [] => true
  | x :: r => char_ok x r && tokenised r
  end.

(** A character that has all the bytes its first byte announces. *)
Definition complete (x : string) : bool :=
  match x with
  | String c t => all_cont t && (String.length t =? Js.tail_bytes c)%nat
  | EmptyString => false
  end.

(** Text in which no character is cut short. *)
Definition well_formed (s : string) : bool := forallb complete (Js.chars s).

(** The bytes of [t], one string each. *)
Fixpoint singles (t : string) : list string :=
  match t with
  | EmptyString => []
  | String c t' => String c EmptyString :: singles t'
  end.

(** [s] does not begin with a continuation byte. *)
Definition clean_start (s : string) : bool :=
  match s with
  | String c _ => negb (Js.is_cont c)
  | EmptyString => true
  end.

(** No white space inside, and not empty: a token of the command line. *)
Definition no_ws (s : string) : bool := forallb (fun x => negb (Js.is_ws x)) (Js.chars s).

Definition all_ws (s : string) : bool := forallb Js.is_ws (Js.chars s).

Definition is_token (s : string) : bool := negb (String.eqb s "") && no_ws s.

Definition is_gap (s : string) : bool := negb (String.eqb s "") && all_ws s.

(** What is left of the tail of a line after trimming: nothing, or
    characters that still begin with white space. *)
Definition ws_headed (l : list string) : Prop :=
  l = [] \/ exists x r, l = x :: r /\ Js.is_ws x = true.

(** The tokens the [/bin] branch examines. *)
Definition submitted_tokens (arg : string) : list string :=
  map Js.trim (Js.split_comma (Js.remove_ws arg)).

(** A letter of a text against a letter of a command name: the same, or
    its capital. *)
Definition letter_matches (c d : ascii) : Prop :=
  c = d
  \/ ((65 <= N_of_ascii c <= 90)%N /\ N_of_ascii d = (N_of_ascii c + 32)%N).

(** [head] spells [name], letter case aside. *)
Inductive spells : string -> string -> Prop :=
| spells_nil : spells "" ""
| spells_cons c d head name :
    letter_matches c d -> spells head name -> spells (String c head) (String d name).

(** The text begins with one of the ten command names, letter case aside
    (so it begins with "/"). *)
Definition names_command (t : string) : Prop :=
  exists name head rest,
    In name ["/start"; "/stop"; "/time"; "/info"; "/logs"; "/bin"; "/remove"; "/r";
             "/stime"; "/gen"]
    /\ t = head ++ rest /\ spells head name.

(** The text of a message, the empty text when it has none. *)
Definition text_or_empty (o : option string) : string :=
  match o with
  | Some t => t
  | None => ""
  end.

(** An integer that a double holds exactly, as does every double of an
    integer between them. *)
Definition exact_double (v : Z) : Prop := - 2 ^ 53 <= v <= 2 ^ 53.

(** A field of the BIN service's answer as the card shows it: the value
    given, or the placeholder when it is missing or empty. *)
Definition shown (field : option string) (placeholder value : string) : Prop :=
  match field with
  | Some (String c r) => value = String c r
  | _ => value = placeholder
  end.

(** [m] leaves the observation [f] of the state as it was. *)
Definition keeps {A B} (f : Sys -> B) (m : M A) : Prop :=
  forall s, f (exec m s) = f s.

(** The steps of the control loop, and the states they reach.  [allowed]
    restricts the updates that are delivered. *)
Definition polled_batch (cfg : Config) (w : World) (s : Sys) : list Update :=
  default [] (getUpdates_at w (n_poll (cur (exec (auto_stop_check cfg w) s)))).

Inductive step (cfg : Config) (w : World) (allowed : Update -> Prop) : Sys -> Sys -> Prop :=
| step_auto_stop s :
    step cfg w allowed s (exec (auto_stop_check cfg w) s)
| step_update s upd :
    allowed upd ->
    step cfg w allowed s (exec (process_update cfg w upd) s)
| step_emit s :
    step cfg w allowed s (exec (emit_check cfg w) s)
| step_iteration s :
    Forall allowed (polled_batch cfg w s) ->
    step cfg w allowed s (exec (iteration cfg w) s).

Inductive reachable (cfg : Config) (w : World) (allowed : Update -> Prop) : Sys -> Prop :=
| reach_boot d : reachable cfg w allowed (boot cfg d)
| reach_step s s' :
    reachable cfg w allowed s -> step cfg w allowed s s' -> reachable cfg w allowed s'.

(** What may happen between two auto-stop checks when the operator sends
    neither a start nor a stop: other updates, the poll, the emission step
    and the sleeps. *)
Inductive quiet_step (cfg : Config) (w : World) : Sys -> Sys -> Prop :=
| quiet_update s upd :
    ~ starts_or_stops cfg upd ->
    quiet_step cfg w s (exec (process_update cfg w upd) s)
| quiet_poll s :
    quiet_step cfg w s (exec (getUpdates w (offset (g s))) s)
| quiet_emit s :
    quiet_step cfg w s (exec (emit_check cfg w) s)
| quiet_sleep s ms :
    quiet_step cfg w s (exec (sleep ms) s).

(** ** Concrete configurations and worlds *)

Definition operator : JsId := IdNum 777000111.

(** config.js with the three identities filled in. *)
Definition deployed : Config :=
  {| BOT_TOKEN := "123456:ABC-xxxxxx";
     CHANNEL_ID := IdNum (-100123456789);
     ADMIN_ID := operator;
     STATS_FILE := STATS_FILE config_js;
     EVENTS_FILE := EVENTS_FILE config_js;
     BINS_FILE := BINS_FILE config_js;
     DEFAULT_INTERVAL := DEFAULT_INTERVAL config_js;
     ERROR_SLEEP := ERROR_SLEEP config_js;
     POLL_TIMEOUT := POLL_TIMEOUT config_js |}.

(** A world given by its clock readings (the last one repeats), the
    batches of updates and the outcomes of the sends (success once the
    list is exhausted). *)
Definition scripted (clock : list Z) (polls : list (list Update)) (sends : list bool)
  : World :=
  {| Date_now_at k := nth k clock (List.last clock 0);
     Math_random_at k := (Z.of_nat k * 6364136223846793005 + 1442695040888963407) mod 2 ^ 53;
     sendMessage_at k := nth k sends true;
     getBinDetails_at _ := BinFailed;
     getUpdates_at k := Some (nth k polls []) |}.

Definition empty_disk : Disk := {| stats := ∅; events := []; bins := [] |}.

Definition one_bin_disk : Disk := {| stats := ∅; events := []; bins := ["400000"] |}.

(** The instant 2023-11-14 22:13:20 UTC, in milliseconds. *)
Definition t0 : Z := 1700000000000.

(** Nothing is delivered and every send succeeds. *)
Definition calm_world : World := scripted [t0] [] [].

(** The clock passes a second boundary between two consecutive readings. *)
Definition straddling_world : World := scripted [t0 + 999; t0 + 1000; t0 + 1001] [] [].


(** A stop is scheduled in 60 seconds and the clock moves past it. *)
Definition auto_stop_world : World :=
  scripted [t0; t0 + 1; t0 + 2; t0 + 61000; t0 + 61001; t0 + 61002; t0 + 61003] [] [].

(** The first poll delivers one command of the operator. *)
Definition one_command_world (t : string) : World :=
  scripted [t0] [[operator_update deployed 1 t]] [].

(** The state right after the operator's [/start], over the given files. *)
Definition started (w : World) (d : Disk) : Sys :=
  exec (process_update deployed w (operator_update deployed 1 "/start")) (boot deployed d).

(** ** Vocabulary of the further properties *)

(** [m] takes every state to one related to it by [R]. *)
Definition respects {A} (R : Sys -> Sys -> Prop) (m : M A) : Prop :=
  forall s, R s (exec m s).

(** The writes the program performs on its files: an event appended by
    [logEvent], a day's counter raised by [incrementStats], and the three
    ways the [/bin], [/r] and [/remove] branches save the BIN list. *)
Inductive disk_write : Disk -> Disk -> Prop :=
| write_event d e :
    disk_write d (with_events (events d ++ [e]) d)
| write_count d day key amount :
    0 <= amount ->
    disk_write d
      (with_stats
         (<[day := bump key amount
                     (default {| sent := 0; error := 0 |} (stats d !! day))]> (stats d))
         d)
| write_bins_added d added :
    List.NoDup added ->
    (forall b, In b added -> b <> "" /\ ~ In b (bins d)) ->
    disk_write d (with_bins (bins d ++ added) d)
| write_bins_removed d b :
    disk_write d (with_bins (List.filter (fun x => negb (String.eqb x b)) (bins d)) d)
| write_bins_cleared d :
    disk_write d (with_bins [] d).

(** The loop steps with every update allowed, any number of times. *)
Definition runs (cfg : Config) (w : World) : Sys -> Sys -> Prop :=
  rtc (step cfg w (fun _ => True)).

(** The stored BINs are pairwise distinct and none is the empty string. *)
Definition bins_ok (d : Disk) : Prop :=
  List.NoDup (bins d) /\ ~ In "" (bins d).

(** The update was not sent by [chat]. *)
Definition not_from (chat : JsId) (upd : Update) : Prop :=
  forall msg, message upd = Some msg -> from_id msg <> chat.

(** The loop steps in which no update comes from the channel itself, any
    number of times. *)
Definition runs_beside_channel (cfg : Config) (w : World) : Sys -> Sys -> Prop :=
  rtc (step cfg w (not_from (CHANNEL_ID cfg))).

(** The text of a card: what [messageText] makes, under its headline. *)
Definition card_text (t : string) : Prop :=
  (exists card binInfo, t = messageText card binInfo)
  /\ exists rest, t = "🔥 AakashScraper v3.1 🔥" ++ rest.

(** Where a message of the program may go: with a button it is a card, it
    goes to the channel and the button is the Join button; without a button
    it goes to the operator, or it is the not-authorized notice and goes to
    someone who is neither the operator nor the channel. *)
Definition addressed (cfg : Config) (e : Effect) : Prop :=
  match e with
  | Sent chat t None =>
      chat = ADMIN_ID cfg
      \/ (chat <> ADMIN_ID cfg /\ chat <> CHANNEL_ID cfg
          /\ t = "You are not authorized to use this bot. Please contact admin @ethicalakash.")
  | Sent chat t (Some mk) =>
      chat = CHANNEL_ID cfg
      /\ mk = {| button_text := "Join"; button_url := "https://t.me/skylegacyy" |}
      /\ card_text t
  | _ => True
  end.

(** What handling one update may do to the outside: if the operator sent
    it, messages without button to the operator; if anyone else sent it,
    the not-authorized notice to that sender and nothing else. *)
Definition reply_to (cfg : Config) (upd : Update) (e : Effect) : Prop :=
  exists msg, message upd = Some msg
    /\ ((from_id msg = ADMIN_ID cfg /\ exists t, e = Sent (ADMIN_ID cfg) t None)
        \/ (from_id msg <> ADMIN_ID cfg
            /\ e = Sent (from_id msg)
                     "You are not authorized to use this bot. Please contact admin @ethicalakash."
                     None)).

(** [s'] has the trace of [s] followed by effects that satisfy [P]. *)
Definition trace_adds (P : Effect -> Prop) (s s' : Sys) : Prop :=
  exists l, trace s' = (trace s ++ l)%list /\ Forall P l.

(** A BIN as [generateRandomBins] draws it: the decimal text of a number
    of the Visa or of the MasterCard range. *)
Definition is_bin6 (x : string) : Prop :=
  exists v, x = Js.num_to_string v
            /\ (400000 <= v <= 499999 \/ 510000 <= v <= 559999).

(** A card as [generateCardData] makes it from the stored BINs. *)
Definition card_from (binsList : list string) (card : Card) : Prop :=
  (exists b, In b binsList /\ bin card = Js.slice0 6 (Js.trim b))
  /\ (exists tail, card_number card = bin card ++ tail /\ all_digits tail = true)
  /\ Js.length (card_number card) = 16%nat
  /\ (exists m, 1 <= m <= 16 /\ month card = Js.pad 2 m)
  /\ (exists y, 24 <= y <= 32 /\ year card = Js.pad 2 y)
  /\ (exists c, 100 <= c <= 999 /\ cvv card = Js.pad 3 c).

Fixpoint no_comma (s : string) : bool :=
  match s with
  | EmptyString => true
  | String c s' => negb (Ascii.eqb c ","%char) && no_comma s'
  end.



(** The answer of the five commands that need an argument when it is
    missing. *)
Definition missing_argument_usage (command : string) : string :=
  if String.eqb command "/stime" then "Usage: /stime <seconds>"
  else if String.eqb command "/time" then "Usage: /time <seconds>"
  else if String.eqb command "/gen" then "Usage: /gen <count>"
  else if String.eqb command "/bin" then "Usage: /bin <comma-separated BINs>"
  else "Usage: /r <bin>".

(** The state after the first loop iteration, in which the operator's
    text [t] is delivered, over the files [d]. *)
Definition after_first_iteration (t : string) (d : Disk) : Sys :=
  exec (iteration deployed (one_command_world t)) (boot deployed d).

(** Statistics of one earlier day, one logged event and a stored BIN. *)
Definition used_disk : Disk :=
  {| stats := <["2023-11-13" := {| sent := 7; error := 1 |}]> ∅;
     events := [{| ev_type := "start"; ev_timestamp := "2023-11-13 08:00:00";
                   ev_extra := [("mode", JStr "indefinite")] |}];
     bins := ["400000"] |}.

Arguments Js.parseInt : simpl never.
Arguments Js.startsWith : simpl never.
Arguments Js.toLowerCase : simpl never.
Arguments Js.trim : simpl never.
Arguments Js.num_to_string : simpl never.
Arguments Js.toISOString : simpl never.
Arguments Js.join : simpl never.
Arguments Js.includes : simpl never.
Arguments Js.slice0 : simpl never.
Arguments cmdParts_of : simpl never.
Arguments or_default : simpl never.
Arguments today_of : simpl never.
Arguments timestamp_of : simpl never.
Arguments messageText : simpl never.
Arguments bin_ack : simpl never.
Arguments sorted_days : simpl never.
Arguments info_line : simpl never.
Arguments log_line : simpl never.

(** * Properties *)

Lemma id_eqb_refl a : id_eqb a a = true.
Proof. destruct a; simpl; [apply Z.eqb_refl | apply String.eqb_refl]. Qed.

Lemma id_eqb_neq a b : a <> b -> id_eqb a b = false.
Proof.
  intros H. destruct a as [x|x], b as [y|y]; simpl; try reflexivity.
  - apply Z.eqb_neq. congruence.
  - apply String.eqb_neq. congruence.
Qed.

Lemma or_default_text t : or_default (Some t) "" = t.
Proof. destruct t; reflexivity. Qed.

Lemma exec_bind {A B} (m : M A) (k : A -> M B) s :
  exec (bind m k) s = exec (k (m s).1) (m s).2.
Proof. unfold exec, bind. destruct (m s); reflexivity. Qed.

Lemma keeps_ret {A B} (f : Sys -> B) (a : A) : keeps f (ret a).
Proof. intros s; reflexivity. Qed.

Lemma keeps_bind {A B C} (f : Sys -> C) (m : M A) (k : A -> M B) :
  keeps f m -> (forall a, keeps f (k a)) -> keeps f (bind m k).
Proof.
  intros Hm Hk s. rewrite exec_bind. rewrite Hk. apply Hm.
Qed.

Lemma keeps_for_each {A B} (f : Sys -> B) (l : list A) body :
  (forall x, keeps f (body x)) -> keeps f (for_each l body).
Proof.
  intros H. induction l as [|x l IH]; cbn [for_each].
  - apply keeps_ret.
  - apply keeps_bind; auto.
Qed.

(** The random draws consume readings of [Math.random] and nothing else. *)
Section RandomFrames.
Variable w : World.
Context {B : Type} (f : Sys -> B).
Hypothesis f_random : forall s,
  f {| g := g s; disk := disk s; cur := tick_random (cur s); trace := trace s |} = f s.

Lemma keeps_Math_random : keeps f (Math_random w).
Proof. intros s. apply f_random. Qed.

Lemma keeps_floor_random_times n : keeps f (floor_random_times w n).
Proof.
  unfold floor_random_times.
  apply keeps_bind; [apply keeps_Math_random | intros; apply keeps_ret].
Qed.

Lemma keeps_random_digits n tail : keeps f (random_digits w n tail).
Proof.
  revert tail. induction n as [|n IH]; intros tail; cbn [random_digits].
  - apply keeps_ret.
  - apply keeps_bind; [apply keeps_floor_random_times | intros; apply IH].
Qed.

Lemma keeps_random_bins n result : keeps f (random_bins w n result).
Proof.
  revert result. induction n as [|n IH]; intros result; cbn [random_bins].
  - apply keeps_ret.
  - apply keeps_bind; [apply keeps_Math_random | intros coin].
    apply keeps_bind; [ | intros; apply IH].
    destruct (coin <? 2 ^ 52);
      (apply keeps_bind; [apply keeps_floor_random_times | intros; apply keeps_ret]).
Qed.

Lemma keeps_shuffle i result : keeps f (shuffle w i result).
Proof.
  revert result. induction i as [|i IH]; intros result; cbn [shuffle].
  - apply keeps_ret.
  - apply keeps_bind; [apply keeps_floor_random_times | intros; apply IH].
Qed.

Lemma keeps_generateRandomBins count : keeps f (generateRandomBins w count).
Proof.
  unfold generateRandomBins.
  apply keeps_bind; [apply keeps_random_bins | intros; apply keeps_shuffle].
Qed.

Lemma keeps_generateCardData : keeps f (generateCardData w).
Proof.
  unfold generateCardData, loadBins.
  apply keeps_bind; [intros s; reflexivity | intros binsList].
  destruct (Nat.eqb _ _); [apply keeps_ret | ].
  repeat (apply keeps_bind;
          [first [apply keeps_floor_random_times | apply keeps_random_digits]
          | intros ?]).
  apply keeps_ret.
Qed.

End RandomFrames.

(** Observations of the variables and the files. *)
Section Frames.
Variable cfg : Config.
Variable w : World.
Context {B : Type} (f : Sys -> B).
Hypothesis f_store : forall s s', g s = g s' -> disk s = disk s' -> f s = f s'.

Lemma keeps_store {A} (m : M A) :
  (forall s, g (exec m s) = g s /\ disk (exec m s) = disk s) -> keeps f m.
Proof. intros H s. apply f_store; apply H. Qed.

Lemma store_random s :
  f {| g := g s; disk := disk s; cur := tick_random (cur s); trace := trace s |} = f s.
Proof. now apply f_store. Qed.

Lemma keeps_sendMessage chat t mk : keeps f (sendMessage w chat t mk).
Proof. apply keeps_store. intros s; split; reflexivity. Qed.

Lemma keeps_await_send chat t mk : keeps f (await (sendMessage w chat t mk)).
Proof. apply keeps_store. intros s; split; reflexivity. Qed.

Lemma keeps_sleep ms : keeps f (sleep ms).
Proof. apply keeps_store. intros s; split; reflexivity. Qed.

Lemma keeps_getUpdates o : keeps f (getUpdates w o).
Proof. apply keeps_store. intros s; split; reflexivity. Qed.

Lemma keeps_Date_now : keeps f (Date_now w).
Proof. apply keeps_store. intros s; split; reflexivity. Qed.

Lemma keeps_globals : keeps f globals.
Proof. intros s; reflexivity. Qed.

Lemma keeps_getBinDetails b : keeps f (getBinDetails w b).
Proof. apply keeps_store. intros s; split; reflexivity. Qed.

Lemma keeps_cmd_gen parts : keeps f (cmd_gen cfg w parts).
Proof.
  unfold cmd_gen.
  destruct (1 <? length parts)%nat; [ | apply keeps_await_send].
  destruct (Js.parseInt _) as [n|]; [ | apply keeps_await_send].
  destruct (n >? 0); [ | apply keeps_await_send].
  apply keeps_bind; [apply keeps_generateRandomBins, store_random | intros; apply keeps_await_send].
Qed.

Lemma keeps_cmd_info : keeps f (cmd_info cfg w).
Proof.
  unfold cmd_info. apply keeps_bind; [intros s; reflexivity | intros d].
  destruct (Nat.eqb _ _); apply keeps_await_send.
Qed.

Lemma keeps_cmd_logs : keeps f (cmd_logs cfg w).
Proof.
  unfold cmd_logs. apply keeps_bind; [intros s; reflexivity | intros d].
  destruct (Nat.eqb _ _); apply keeps_await_send.
Qed.

End Frames.

(** ** Characters *)

Lemma append_cons c s t : String c s ++ t = String c (s ++ t).
Proof. reflexivity. Qed.

Lemma append_nil t : "" ++ t = t.
Proof. reflexivity. Qed.

Lemma append_empty_r s : s ++ "" = s.
Proof. induction s as [|c s IH]; [reflexivity | now rewrite append_cons, IH]. Qed.

Lemma string_append_assoc (a b c : string) : (a ++ b) ++ c = a ++ b ++ c.
Proof. induction a as [|x a IH]; [reflexivity | now rewrite !append_cons, IH]. Qed.

Lemma string_length_append (a b : string) :
  String.length (a ++ b) = (String.length a + String.length b)%nat.
Proof.
  induction a as [|x a IH]; [reflexivity | ].
  rewrite append_cons. cbn [String.length]. now rewrite IH.
Qed.

Lemma text_of_app l1 l2 : Js.text_of (l1 ++ l2) = Js.text_of l1 ++ Js.text_of l2.
Proof.
  induction l1 as [|x l1 IH]; [reflexivity | ].
  cbn [app Js.text_of]. now rewrite IH, string_append_assoc.
Qed.

Lemma single_cont_inv x :
  Js.single_cont x = true -> exists c, x = String c "" /\ Js.is_cont c = true.
Proof. destruct x as [|c [|d x]]; try discriminate. intros H. now exists c. Qed.

Lemma take_cont_text k : forall l,
  fst (Js.take_cont k l) ++ Js.text_of (snd (Js.take_cont k l)) = Js.text_of l.
Proof.
  induction k as [|k IH]; intros l; [reflexivity | ].
  destruct l as [|x r]; [reflexivity | ]. cbn [Js.take_cont].
  destruct (Js.single_cont x); [ | reflexivity].
  specialize (IH r). destruct (Js.take_cont k r) as [t rest]. cbn [fst snd] in *.
  cbn [Js.text_of]. now rewrite string_append_assoc, IH.
Qed.

Lemma chars_cons c r :
  Js.chars (String c r)
  = String c (fst (Js.take_cont (Js.tail_bytes c) (Js.chars r)))
    :: snd (Js.take_cont (Js.tail_bytes c) (Js.chars r)).
Proof. cbn [Js.chars]. now destruct (Js.take_cont _ _). Qed.

(** Cutting a text and putting the characters together gives the text. *)
Lemma text_of_chars s : Js.text_of (Js.chars s) = s.
Proof.
  induction s as [|c r IH]; [reflexivity | ].
  rewrite chars_cons. cbn [Js.text_of]. rewrite append_cons.
  now rewrite take_cont_text, IH.
Qed.

Lemma chars_empty s : Js.chars s = [] -> s = "".
Proof. intros H. rewrite <- (text_of_chars s), H. reflexivity. Qed.

Lemma tokenised_app_r l1 l2 : tokenised (l1 ++ l2) = true -> tokenised l2 = true.
Proof.
  induction l1 as [|x l1 IH]; [auto | ].
  cbn [app tokenised]. intros H. apply andb_true_iff in H as [_ H]. auto.
Qed.

Lemma starts_cont_app l1 l2 : l1 <> [] -> starts_cont (l1 ++ l2) = starts_cont l1.
Proof. destruct l1; [congruence | reflexivity]. Qed.

Lemma char_ok_next x l1 l2 :
  char_ok x (l1 ++ l2) = true -> char_ok x l1 = true.
Proof.
  destruct x as [|c t]; [discriminate | ]. unfold char_ok.
  destruct l1 as [|y l1]; [ | now rewrite starts_cont_app by discriminate].
  cbn [starts_cont negb]. intros H. apply andb_true_iff in H as [H _].
  rewrite H. now rewrite orb_true_r.
Qed.

Lemma tokenised_app_l l1 l2 : tokenised (l1 ++ l2) = true -> tokenised l1 = true.
Proof.
  induction l1 as [|x l1 IH]; [auto | ].
  cbn [app tokenised]. intros H. apply andb_true_iff in H as [H1 H2].
  rewrite (char_ok_next _ _ _ H1). now apply IH.
Qed.

Lemma take_cont_spec k : forall l,
  tokenised l = true ->
  all_cont (fst (Js.take_cont k l)) = true
  /\ (String.length (fst (Js.take_cont k l)) <= k)%nat
  /\ (String.length (fst (Js.take_cont k l)) = k
      \/ starts_cont (snd (Js.take_cont k l)) = false)
  /\ tokenised (snd (Js.take_cont k l)) = true.
Proof.
  induction k as [|k IH]; intros l Hl.
  - cbn. auto.
  - destruct l as [|x r]; [cbn; auto with arith | ].
    cbn [Js.take_cont]. destruct (Js.single_cont x) eqn:Ex.
    + destruct (single_cont_inv x Ex) as (c & -> & Hc).
      cbn [tokenised] in Hl. apply andb_true_iff in Hl as [_ Hr].
      specialize (IH r Hr). destruct (Js.take_cont k r) as [t rest].
      cbn [fst snd] in *. destruct IH as (H1 & H2 & H3 & H4).
      rewrite append_cons, append_nil. cbn [all_cont String.length].
      rewrite Hc, H1. repeat split; [lia | | exact H4].
      destruct H3 as [H3 | H3]; [left; lia | now right].
    + cbn [fst snd all_cont String.length starts_cont].
      repeat split; [lia | now right | exact Hl].
Qed.

Lemma tokenised_chars s : tokenised (Js.chars s) = true.
Proof.
  induction s as [|c r IH]; [reflexivity | ].
  rewrite chars_cons. cbn [tokenised].
  destruct (take_cont_spec (Js.tail_bytes c) (Js.chars r) IH) as (H1 & H2 & H3 & H4).
  rewrite H4, andb_true_r. unfold char_ok. rewrite H1. cbn [andb].
  apply Nat.leb_le in H2. rewrite H2. cbn [andb].
  destruct H3 as [H3 | H3].
  - apply Nat.eqb_eq in H3. now rewrite H3.
  - rewrite H3. apply orb_true_r.
Qed.

Lemma tail_bytes_cont c : Js.is_cont c = true -> Js.tail_bytes c = 0%nat.
Proof.
  unfold Js.is_cont, Js.tail_bytes. cbv zeta. intros H.
  apply andb_true_iff in H as [_ H]. now rewrite H.
Qed.

Lemma chars_singles t r :
  all_cont t = true -> Js.chars (t ++ r) = (singles t ++ Js.chars r)%list.
Proof.
  induction t as [|c t IH]; [reflexivity | ].
  cbn [all_cont]. intros H. apply andb_true_iff in H as [Hc Ht].
  rewrite append_cons, chars_cons, (tail_bytes_cont c Hc). cbn [Js.take_cont fst snd singles app].
  now rewrite IH.
Qed.

Lemma take_cont_singles t : forall k m,
  all_cont t = true -> (String.length t <= k)%nat ->
  (String.length t = k \/ starts_cont m = false) ->
  Js.take_cont k (singles t ++ m) = (t, m).
Proof.
  induction t as [|c t IH]; intros k m Ha Hl Hk.
  - cbn [singles app]. destruct k as [|k]; [reflexivity | ].
    destruct Hk as [Hk | Hk]; [discriminate | ].
    destruct m as [|y m]; [reflexivity | ]. cbn [starts_cont] in Hk.
    cbn [Js.take_cont]. now rewrite Hk.
  - cbn [all_cont] in Ha. apply andb_true_iff in Ha as [Hc Ha].
    cbn [String.length] in Hl, Hk. destruct k as [|k]; [lia | ].
    cbn [singles app Js.take_cont Js.single_cont]. rewrite Hc.
    rewrite (IH k m Ha); [reflexivity | lia | ].
    destruct Hk as [Hk | Hk]; [left; lia | now right].
Qed.

(** A well-cut list is what cutting its text gives, also in front of more
    text. *)
Lemma chars_text_of l b :
  tokenised (l ++ Js.chars b) = true ->
  Js.chars (Js.text_of l ++ b) = (l ++ Js.chars b)%list.
Proof.
  induction l as [|x l IH]; [reflexivity | ].
  cbn [app tokenised Js.text_of]. intros H. apply andb_true_iff in H as [Hx Hl].
  specialize (IH Hl). destruct x as [|c t]; [discriminate | ].
  unfold char_ok in Hx. apply andb_true_iff in Hx as [Hx H3].
  apply andb_true_iff in Hx as [H1 H2]. apply Nat.leb_le in H2.
  rewrite string_append_assoc, append_cons, chars_cons.
  rewrite (chars_singles t _ H1), IH.
  rewrite (take_cont_singles t (Js.tail_bytes c) _ H1 H2); [reflexivity | ].
  apply orb_true_iff in H3 as [H3 | H3].
  - left. now apply Nat.eqb_eq.
  - right. now apply negb_true_iff.
Qed.

Lemma chars_text_of_tokenised l : tokenised l = true -> Js.chars (Js.text_of l) = l.
Proof.
  intros H. pose proof (chars_text_of l "") as E. cbn [Js.chars] in E.
  rewrite app_nil_r, append_empty_r in E. auto.
Qed.

Lemma tokenised_app_clean l1 l2 :
  tokenised l1 = true -> tokenised l2 = true -> starts_cont l2 = false ->
  tokenised (l1 ++ l2) = true.
Proof.
  intros H1 H2 Hs. induction l1 as [|x l1 IH]; [exact H2 | ].
  cbn [app tokenised] in *. apply andb_true_iff in H1 as [Hx H1].
  rewrite (IH H1), andb_true_r.
  destruct l1 as [|y l1]; [ | exact Hx].
  destruct x as [|c t]; [discriminate | ]. unfold char_ok in *.
  cbn [app]. rewrite Hs. cbn [negb]. rewrite orb_true_r.
  apply andb_true_iff in Hx as [Hx _]. now rewrite Hx.
Qed.

Lemma complete_char_ok x next : complete x = true -> char_ok x next = true.
Proof.
  destruct x as [|c t]; [discriminate | ]. unfold complete, char_ok.
  intros H. apply andb_true_iff in H as [H1 H2]. rewrite H1, H2.
  apply Nat.eqb_eq in H2. rewrite H2, Nat.leb_refl. reflexivity.
Qed.

Lemma tokenised_app_complete l1 l2 :
  forallb complete l1 = true -> tokenised l2 = true -> tokenised (l1 ++ l2) = true.
Proof.
  intros H1 H2. induction l1 as [|x l1 IH]; [exact H2 | ].
  cbn [forallb] in H1. apply andb_true_iff in H1 as [Hx H1].
  cbn [app tokenised]. now rewrite (complete_char_ok _ _ Hx), IH.
Qed.

Lemma starts_cont_chars b : clean_start b = true -> starts_cont (Js.chars b) = false.
Proof.
  destruct b as [|c r]; [reflexivity | ]. cbn [clean_start]. intros H.
  apply negb_true_iff in H. rewrite chars_cons. cbn [starts_cont Js.single_cont].
  destruct (fst _); [exact H | reflexivity].
Qed.

(** Cutting a text that is made of two. *)
Lemma chars_app_clean a b :
  clean_start b = true -> Js.chars (a ++ b) = (Js.chars a ++ Js.chars b)%list.
Proof.
  intros H. rewrite <- (text_of_chars a) at 1. apply chars_text_of.
  apply tokenised_app_clean; [apply tokenised_chars | apply tokenised_chars | ].
  now apply starts_cont_chars.
Qed.

Lemma chars_app_complete a b :
  well_formed a = true -> Js.chars (a ++ b) = (Js.chars a ++ Js.chars b)%list.
Proof.
  intros H. rewrite <- (text_of_chars a) at 1. apply chars_text_of.
  apply tokenised_app_complete; [exact H | apply tokenised_chars].
Qed.

Lemma is_ws_complete x : Js.is_ws x = true -> complete x = true.
Proof.
  unfold Js.is_ws. rewrite existsb_exists. intros (cp & Hin & E).
  apply String.eqb_eq in E. subst x.
  cbn [Js.white_space In] in Hin.
  repeat (destruct Hin as [<- | Hin]; [vm_compute; reflexivity | ]).
  destruct Hin.
Qed.

Lemma all_ws_well_formed s : all_ws s = true -> well_formed s = true.
Proof.
  unfold all_ws, well_formed. induction (Js.chars s) as [|x l IH]; [auto | ].
  cbn [forallb]. intros H. apply andb_true_iff in H as [Hx Hl].
  now rewrite (is_ws_complete x Hx), IH.
Qed.

(** ** Trimming and splitting a command line *)

Lemma drop_ws_suffix l : exists p, l = (p ++ Js.drop_ws l)%list.
Proof.
  induction l as [|x l (p & E)]; [now exists [] | ].
  cbn [Js.drop_ws]. destruct (Js.is_ws x).
  - exists (x :: p). cbn [app]. now rewrite <- E.
  - now exists [].
Qed.

Lemma drop_ws_end_prefix l : exists q, l = (Js.drop_ws_end l ++ q)%list.
Proof.
  induction l as [|x l (q & E)]; [now exists [] | ].
  cbn [Js.drop_ws_end]. destruct (Js.drop_ws_end l) as [|y r] eqn:Ed.
  - destruct (Js.is_ws x).
    + now exists (x :: l).
    + exists l. reflexivity.
  - exists q. cbn [app]. f_equal. exact E.
Qed.

Lemma chars_trim s : Js.chars (Js.trim s) = Js.drop_ws_end (Js.drop_ws (Js.chars s)).
Proof.
  unfold Js.trim. apply chars_text_of_tokenised.
  destruct (drop_ws_suffix (Js.chars s)) as (p & Ep).
  destruct (drop_ws_end_prefix (Js.drop_ws (Js.chars s))) as (q & Eq).
  apply (tokenised_app_l _ q). rewrite <- Eq.
  apply (tokenised_app_r p). rewrite <- Ep. apply tokenised_chars.
Qed.

Lemma drop_ws_end_cons x l :
  Js.is_ws x = false -> Js.drop_ws_end (x :: l) = x :: Js.drop_ws_end l.
Proof. intros H. cbn [Js.drop_ws_end]. rewrite H. now destruct (Js.drop_ws_end l). Qed.

Lemma drop_ws_end_no_ws X l :
  forallb (fun x => negb (Js.is_ws x)) X = true ->
  Js.drop_ws_end (X ++ l) = (X ++ Js.drop_ws_end l)%list.
Proof.
  induction X as [|x X IH]; cbn [forallb app]; [reflexivity | ].
  intros H. apply andb_true_iff in H as [Hx HX]. apply negb_true_iff in Hx.
  now rewrite drop_ws_end_cons, IH.
Qed.

Lemma drop_ws_end_kept G l :
  Js.drop_ws_end l <> [] -> Js.drop_ws_end (G ++ l) = (G ++ Js.drop_ws_end l)%list.
Proof.
  intros Hl. induction G as [|x G IH]; [reflexivity | ].
  cbn [app Js.drop_ws_end]. rewrite IH.
  destruct (G ++ Js.drop_ws_end l)%list eqn:E; [ | reflexivity].
  apply app_eq_nil in E as [_ E]. contradiction.
Qed.

Lemma drop_ws_end_headed x l :
  Js.is_ws x = true -> ws_headed (Js.drop_ws_end (x :: l)).
Proof.
  intros H. cbn [Js.drop_ws_end]. rewrite H.
  destruct (Js.drop_ws_end l); [now left | right; eauto].
Qed.

Lemma split_ws_aux_nonempty b l : exists p ps, Js.split_ws_aux b l = p :: ps.
Proof.
  revert b. induction l as [|x l IH]; intros b; cbn [Js.split_ws_aux]; [eauto | ].
  destruct (Js.is_ws x).
  - destruct b; [apply IH | eauto].
  - destruct (IH false) as (p & ps & ->). eauto.
Qed.

Lemma split_ws_aux_no_ws X l p ps :
  forallb (fun x => negb (Js.is_ws x)) X = true ->
  Js.split_ws_aux false l = p :: ps ->
  Js.split_ws_aux false (X ++ l) = (Js.text_of X ++ p) :: ps.
Proof.
  intros HX Hl. induction X as [|x X IH]; [exact Hl | ].
  cbn [forallb] in HX. apply andb_true_iff in HX as [Hx HX].
  apply negb_true_iff in Hx.
  cbn [app Js.split_ws_aux Js.text_of]. rewrite Hx, (IH HX).
  now rewrite string_append_assoc.
Qed.

Lemma split_ws_aux_all_ws G l :
  forallb Js.is_ws G = true -> Js.split_ws_aux true (G ++ l) = Js.split_ws_aux true l.
Proof.
  induction G as [|x G IH]; cbn [forallb app]; [reflexivity | ].
  intros H. apply andb_true_iff in H as [Hx HG].
  cbn [Js.split_ws_aux]. rewrite Hx. now apply IH.
Qed.

Lemma split_ws_aux_gap G l :
  G <> [] -> forallb Js.is_ws G = true ->
  Js.split_ws_aux false (G ++ l) = "" :: Js.split_ws_aux true l.
Proof.
  destruct G as [|x G]; [congruence | intros _ H].
  cbn [forallb] in H. apply andb_true_iff in H as [Hx HG].
  cbn [app Js.split_ws_aux]. rewrite Hx. now rewrite split_ws_aux_all_ws.
Qed.

Lemma split_ws_aux_token_start X l :
  X <> [] -> forallb (fun x => negb (Js.is_ws x)) X = true ->
  Js.split_ws_aux true (X ++ l) = Js.split_ws_aux false (X ++ l).
Proof.
  destruct X as [|x X]; [congruence | intros _ H].
  cbn [forallb] in H. apply andb_true_iff in H as [Hx _].
  apply negb_true_iff in Hx. cbn [app Js.split_ws_aux]. now rewrite Hx.
Qed.

Lemma split_ws_aux_headed T :
  ws_headed T -> exists ps, Js.split_ws_aux false T = "" :: ps.
Proof.
  intros [-> | (x & r & -> & Hx)]; cbn [Js.split_ws_aux]; [eauto | ].
  rewrite Hx. eauto.
Qed.

(** The two parts kept of a line that is cut into a token, a gap, a token
    and a tail which is empty or begins with white space. *)
Lemma parts_of_chars C G A T :
  C <> [] -> forallb (fun x => negb (Js.is_ws x)) C = true ->
  G <> [] -> forallb Js.is_ws G = true ->
  A <> [] -> forallb (fun x => negb (Js.is_ws x)) A = true ->
  ws_headed T ->
  tokenised (C ++ G ++ A ++ T) = true ->
  firstn 2 (Js.split_ws_aux false
              (Js.chars (Js.text_of (Js.drop_ws_end (Js.drop_ws (C ++ G ++ A ++ T))))))
  = [Js.text_of C; Js.text_of A].
Proof.
  intros HC0 HC HG0 HG HA0 HA HT Htok.
  assert (E1 : Js.drop_ws (C ++ G ++ A ++ T) = (C ++ G ++ A ++ T)%list).
  { destruct C as [|x C]; [congruence | ]. cbn [forallb] in HC.
    apply andb_true_iff in HC as [Hx _]. apply negb_true_iff in Hx.
    cbn [app Js.drop_ws]. now rewrite Hx. }
  assert (E2 : Js.drop_ws_end (C ++ G ++ A ++ T)
               = (C ++ G ++ A ++ Js.drop_ws_end T)%list).
  { rewrite (drop_ws_end_no_ws C _ HC). f_equal.
    rewrite <- (drop_ws_end_no_ws A T HA).
    apply drop_ws_end_kept. rewrite (drop_ws_end_no_ws A T HA).
    destruct A; [congruence | discriminate]. }
  assert (HT' : ws_headed (Js.drop_ws_end T)).
  { destruct HT as [-> | (x & r & -> & Hx)]; [now left | now apply drop_ws_end_headed]. }
  rewrite E1, E2.
  rewrite chars_text_of_tokenised.
  2:{ destruct (drop_ws_end_prefix T) as (q & Eq).
      apply (tokenised_app_l _ q). rewrite <- !app_assoc, <- Eq. exact Htok. }
  destruct (split_ws_aux_headed _ HT') as (ps & Eps).
  rewrite (split_ws_aux_no_ws C _ "" (Js.text_of A :: ps) HC).
  - now rewrite append_empty_r.
  - rewrite (split_ws_aux_gap G _ HG0 HG). f_equal.
    rewrite (split_ws_aux_token_start A _ HA0 HA).
    rewrite (split_ws_aux_no_ws A _ "" ps HA Eps). now rewrite append_empty_r.
Qed.

Lemma is_ws_clean_start x r : Js.is_ws x = true -> clean_start (x ++ r) = true.
Proof.
  unfold Js.is_ws. rewrite existsb_exists. intros (cp & Hin & E).
  apply String.eqb_eq in E. subst x.
  cbn [Js.white_space In] in Hin.
  repeat (destruct Hin as [<- | Hin]; [vm_compute; reflexivity | ]).
  destruct Hin.
Qed.

Lemma chars_nonempty s : s <> "" -> Js.chars s <> [].
Proof. intros H E. apply H. now apply chars_empty. Qed.

Lemma token_chars s :
  is_token s = true ->
  Js.chars s <> [] /\ forallb (fun x => negb (Js.is_ws x)) (Js.chars s) = true.
Proof.
  unfold is_token. intros H. apply andb_true_iff in H as [H1 H2].
  apply negb_true_iff, String.eqb_neq in H1. split; [now apply chars_nonempty | exact H2].
Qed.

Lemma gap_chars s :
  is_gap s = true -> Js.chars s <> [] /\ forallb Js.is_ws (Js.chars s) = true.
Proof.
  unfold is_gap. intros H. apply andb_true_iff in H as [H1 H2].
  apply negb_true_iff, String.eqb_neq in H1. split; [now apply chars_nonempty | exact H2].
Qed.

Lemma gap_clean_start s r : is_gap s = true -> clean_start (s ++ r) = true.
Proof.
  intros H. destruct (gap_chars s H) as (H0 & Hw).
  rewrite <- (text_of_chars s). destruct (Js.chars s) as [|x l]; [congruence | ].
  cbn [forallb] in Hw. apply andb_true_iff in Hw as [Hx _].
  cbn [Js.text_of]. rewrite string_append_assoc. now apply is_ws_clean_start.
Qed.

Lemma gap_well_formed s : is_gap s = true -> well_formed s = true.
Proof.
  unfold is_gap. intros H. apply andb_true_iff in H as [_ H].
  now apply all_ws_well_formed.
Qed.

Lemma gap_ws_headed s r : is_gap s = true -> ws_headed (Js.chars s ++ r).
Proof.
  intros H. destruct (gap_chars s H) as (H0 & Hw).
  destruct (Js.chars s) as [|x l]; [congruence | ].
  cbn [forallb] in Hw. apply andb_true_iff in Hw as [Hx _]. right. cbn [app]. eauto.
Qed.

Lemma cmdParts_of_two cmd gap1 arg gap2 rest :
  is_token cmd = true -> is_gap gap1 = true ->
  is_token arg = true -> is_gap gap2 = true ->
  cmdParts_of (cmd ++ gap1 ++ arg ++ gap2 ++ rest) = [cmd; arg].
Proof.
  intros Hc Hg1 Ha Hg2.
  destruct (token_chars cmd Hc) as (HC0 & HC).
  destruct (gap_chars gap1 Hg1) as (HG0 & HG).
  destruct (token_chars arg Ha) as (HA0 & HA).
  assert (E : Js.chars (cmd ++ gap1 ++ arg ++ gap2 ++ rest)
              = (Js.chars cmd ++ Js.chars gap1 ++ Js.chars arg
                 ++ (Js.chars gap2 ++ Js.chars rest))%list).
  { rewrite (chars_app_clean cmd) by now apply gap_clean_start.
    rewrite (chars_app_complete gap1) by now apply gap_well_formed.
    rewrite (chars_app_clean arg) by now apply gap_clean_start.
    now rewrite (chars_app_complete gap2) by now apply gap_well_formed. }
  unfold cmdParts_of, Js.split_ws_limit, Js.split_ws, Js.trim. rewrite E.
  rewrite (parts_of_chars _ _ _ _ HC0 HC HG0 HG HA0 HA).
  - now rewrite !text_of_chars.
  - now apply gap_ws_headed.
  - rewrite <- E. apply tokenised_chars.
Qed.

Lemma cmdParts_of_pair cmd gap1 arg :
  is_token cmd = true -> is_gap gap1 = true -> is_token arg = true ->
  cmdParts_of (cmd ++ gap1 ++ arg) = [cmd; arg].
Proof.
  intros Hc Hg1 Ha.
  destruct (token_chars cmd Hc) as (HC0 & HC).
  destruct (gap_chars gap1 Hg1) as (HG0 & HG).
  destruct (token_chars arg Ha) as (HA0 & HA).
  assert (E : Js.chars (cmd ++ gap1 ++ arg)
              = (Js.chars cmd ++ Js.chars gap1 ++ Js.chars arg ++ [])%list).
  { rewrite (chars_app_clean cmd) by now apply gap_clean_start.
    rewrite (chars_app_complete gap1) by now apply gap_well_formed.
    now rewrite app_nil_r. }
  unfold cmdParts_of, Js.split_ws_limit, Js.split_ws, Js.trim. rewrite E.
  rewrite (parts_of_chars _ _ _ _ HC0 HC HG0 HG HA0 HA).
  - now rewrite !text_of_chars.
  - now left.
  - rewrite <- E. apply tokenised_chars.
Qed.

Lemma filter_no_ws l :
  forallb (fun x => negb (Js.is_ws x)) l = true ->
  List.filter (fun x => negb (Js.is_ws x)) l = l.
Proof.
  induction l as [|x l IH]; [reflexivity | ].
  cbn [forallb List.filter]. intros H. apply andb_true_iff in H as [Hx Hl].
  now rewrite Hx, IH.
Qed.

Lemma remove_ws_no_ws b : no_ws b = true -> Js.remove_ws b = b.
Proof.
  intros H. unfold Js.remove_ws. rewrite filter_no_ws by exact H. apply text_of_chars.
Qed.

Lemma drop_ws_end_all_kept l :
  forallb (fun x => negb (Js.is_ws x)) l = true -> Js.drop_ws_end l = l.
Proof.
  intros H. rewrite <- (app_nil_r l) at 1.
  rewrite (drop_ws_end_no_ws l [] H). apply app_nil_r.
Qed.

Lemma drop_ws_all_kept l :
  forallb (fun x => negb (Js.is_ws x)) l = true -> Js.drop_ws l = l.
Proof.
  destruct l as [|x l]; [reflexivity | ]. cbn [forallb Js.drop_ws].
  intros H. apply andb_true_iff in H as [Hx _]. apply negb_true_iff in Hx.
  now rewrite Hx.
Qed.

Lemma trim_no_ws b : no_ws b = true -> Js.trim b = b.
Proof.
  intros H. unfold Js.trim.
  rewrite (drop_ws_all_kept _ H), (drop_ws_end_all_kept _ H). apply text_of_chars.
Qed.

Lemma startsWith_slash_append cmd x :
  Js.startsWith cmd "/" = true -> Js.startsWith (cmd ++ x) "/" = true.
Proof.
  unfold Js.startsWith. destruct cmd as [|c cmd]; [discriminate | ].
  intros H. rewrite append_cons. cbn [String.prefix] in *.
  destruct (ascii_dec "/" c); [now destruct (cmd ++ x) | discriminate].
Qed.

(** ** [parseInt] on integer texts *)









Section GlobalFrames.
Variable cfg : Config.
Variable w : World.
Context {B : Type} (h : Globals -> B).

Local Abbreviation f := (fun s : Sys => h (g s)).

Lemma f_store : forall s s', g s = g s' -> disk s = disk s' -> f s = f s'.
Proof. intros s s' H _. cbv beta. now rewrite H. Qed.

Lemma keeps_logEvent ty extra : keeps f (logEvent w ty extra).
Proof. intros s; reflexivity. Qed.

Lemma keeps_incrementStats key amount : keeps f (incrementStats w key amount).
Proof. intros s; reflexivity. Qed.

Lemma keeps_cmd_bin parts : keeps f (cmd_bin cfg w parts).
Proof.
  unfold cmd_bin.
  destruct (1 <? length parts)%nat; [ | apply keeps_await_send, f_store].
  apply keeps_bind; [intros s; reflexivity | intros currentBins].
  destruct (add_bins _ _ _) as [currentBins' addedCount].
  intros s; reflexivity.
Qed.

Lemma keeps_cmd_remove : keeps f (cmd_remove cfg w).
Proof. intros s; reflexivity. Qed.

Lemma keeps_cmd_r parts : keeps f (cmd_r cfg w parts).
Proof.
  unfold cmd_r.
  destruct (1 <? length parts)%nat; [ | apply keeps_await_send, f_store].
  apply keeps_bind; [intros s; reflexivity | intros currentBins].
  destruct (Js.includes _ _); intros s; reflexivity.
Qed.

(** The run commands and the auto-stop write the three run variables. *)
Section RunWriters.
Hypothesis h_running : forall v g0, h (with_isRunning v g0) = h g0.
Hypothesis h_stop : forall v g0, h (with_stopEndTime v g0) = h g0.
Hypothesis h_start : forall v g0, h (with_runStartTime v g0) = h g0.

Lemma keeps_cmd_start : keeps f (cmd_start cfg w).
Proof.
  intros s. unfold exec, cmd_start. cbn.
  now rewrite h_start, h_stop, h_running.
Qed.

Lemma keeps_cmd_stop parts : keeps f (cmd_stop cfg w parts).
Proof.
  intros s. unfold exec, cmd_stop.
  destruct (1 <? length parts)%nat.
  - destruct (Js.parseInt _); cbn; [ | reflexivity].
    now rewrite h_start, h_stop, h_running.
  - cbn. destruct (runStartTime (g s)); cbn; now rewrite h_stop, h_start, h_running.
Qed.

Lemma keeps_cmd_stime parts : keeps f (cmd_stime cfg w parts).
Proof.
  intros s. unfold exec, cmd_stime.
  destruct (1 <? length parts)%nat; [ | reflexivity].
  destruct (Js.parseInt _); cbn; [ | reflexivity].
  now rewrite h_stop, h_start, h_running.
Qed.

Lemma keeps_auto_stop_check : keeps f (auto_stop_check cfg w).
Proof.
  intros s. unfold exec, auto_stop_check, bind, globals.
  destruct (truthy _); [ | reflexivity]. cbn.
  destruct (_ >=? _); cbn; [ | reflexivity].
  now rewrite h_stop, h_start, h_running.
Qed.
End RunWriters.

(** [/time] writes the interval and the time of the last send. *)
Lemma keeps_cmd_time parts :
  (forall v g0, h (with_interval v g0) = h g0) ->
  (forall v g0, h (with_lastSendTime v g0) = h g0) ->
  keeps f (cmd_time cfg w parts).
Proof.
  intros Hi Hl s. unfold exec, cmd_time.
  destruct (1 <? length parts)%nat; [ | reflexivity].
  destruct (Js.parseInt _); cbn; [ | reflexivity].
  now rewrite Hl, Hi.
Qed.

(** The emission step writes the time of the last send only. *)
Lemma keeps_emit_check :
  (forall v g0, h (with_lastSendTime v g0) = h g0) ->
  keeps f (emit_check cfg w).
Proof.
  intros Hl. unfold emit_check.
  apply keeps_bind; [intros s; reflexivity | intros nowMs].
  apply keeps_bind; [intros s; reflexivity | intros g0].
  destruct (due g0 nowMs); [ | apply keeps_ret].
  apply keeps_bind; [apply (keeps_generateCardData w f); intros ?; reflexivity | intros [card|]].
  - apply keeps_bind; [apply keeps_getBinDetails, f_store | intros binInfo].
    apply keeps_bind; [apply keeps_sendMessage, f_store | intros [|]].
    + apply keeps_bind; [ | intros; apply keeps_ret].
      intros s. unfold exec. cbn. apply Hl.
    + apply keeps_bind; [ | intros; apply keeps_ret].
      intros s. unfold exec. cbn. apply Hl.
  - intros s; reflexivity.
Qed.

(** The commands that are not among the four writers of globals. *)
Lemma admin_command_cases parts :
  let c := Js.toLowerCase (nth 0 parts "") in
  (c = "/start" /\ admin_command cfg w parts = cmd_start cfg w)
  \/ (c = "/stop" /\ admin_command cfg w parts = cmd_stop cfg w parts)
  \/ (c = "/stime" /\ admin_command cfg w parts = cmd_stime cfg w parts)
  \/ (c = "/time" /\ admin_command cfg w parts = cmd_time cfg w parts)
  \/ (~ In c ["/start"; "/stop"; "/stime"; "/time"]
      /\ keeps f (admin_command cfg w parts)).
Proof.
  intros c. unfold admin_command. fold c.
  destruct (String.eqb_spec c "/start") as [E1|N1]; [left; auto | right].
  destruct (String.eqb_spec c "/stop") as [E2|N2]; [left; auto | right].
  destruct (String.eqb_spec c "/stime") as [E3|N3]; [left; auto | right].
  destruct (String.eqb_spec c "/time") as [E4|N4]; [left; auto | right].
  split; [intros HIn; simpl in HIn; intuition congruence | ].
  destruct (String.eqb c "/gen"); [apply keeps_cmd_gen, f_store | ].
  destruct (String.eqb c "/bin"); [apply keeps_cmd_bin | ].
  destruct (String.eqb c "/remove"); [apply keeps_cmd_remove | ].
  destruct (String.eqb c "/r"); [apply keeps_cmd_r | ].
  destruct (String.eqb c "/info"); [apply keeps_cmd_info, f_store | ].
  destruct (String.eqb c "/logs"); [apply keeps_cmd_logs, f_store | ].
  apply keeps_ret.
Qed.

End GlobalFrames.

Section Loop.
Variable cfg : Config.
Variable w : World.

Lemma process_update_command upd c s :
  command_of cfg upd = Some c ->
  exec (process_update cfg w upd) s
  = exec (admin_command cfg w (cmdParts_of (update_text upd)))
      {| g := with_offset (update_id upd + 1) (g s); disk := disk s;
         cur := cur s; trace := trace s |}.
Proof.
  unfold command_of, update_text, from_operator, process_update, exec, bind, assign.
  destruct (message upd) as [msg|]; cbn.
  - destruct (Js.startsWith _ _); cbn; [ | discriminate].
    destruct (id_eqb _ _); cbn; [reflexivity | discriminate].
  - destruct (Js.startsWith _ _); discriminate.
Qed.

Lemma process_update_silent upd s :
  command_of cfg upd = None ->
  g (exec (process_update cfg w upd) s) = with_offset (update_id upd + 1) (g s)
  /\ disk (exec (process_update cfg w upd) s) = disk s.
Proof.
  unfold command_of, update_text, from_operator, process_update, exec, bind, assign.
  destruct (message upd) as [msg|]; cbn; [ | auto].
  destruct (Js.startsWith _ _); cbn; [ | auto].
  destruct (id_eqb _ _); cbn; [discriminate | intros _].
  match goal with |- context [if ?c then await _ else _] => destruct c end; cbn; auto.
Qed.

Lemma run_inv_timers g1 g2 :
  (isRunning g1, stopEndTime g1, runStartTime g1)
  = (isRunning g2, stopEndTime g2, runStartTime g2) ->
  run_inv g1 -> run_inv g2.
Proof. unfold run_inv. intros [= -> -> ->]. auto. Qed.

Lemma run_inv_cmd_start s : run_inv (g (exec (cmd_start cfg w) s)).
Proof. split; intros _; reflexivity. Qed.

Lemma run_inv_cmd_stop parts s :
  run_inv (g s) -> run_inv (g (exec (cmd_stop cfg w parts) s)).
Proof.
  intros H. unfold cmd_stop, exec.
  destruct (1 <? length parts)%nat.
  - destruct (Js.parseInt _); cbn; [split; intros _; reflexivity | exact H].
  - cbn. destruct (runStartTime (g s)); cbn; split; cbn; congruence.
Qed.

Lemma run_inv_cmd_stime parts s :
  run_inv (g s) -> run_inv (g (exec (cmd_stime cfg w parts) s)).
Proof.
  intros H. unfold cmd_stime, exec.
  destruct (1 <? length parts)%nat; [ | exact H].
  destruct (Js.parseInt _); cbn; [split; intros _; reflexivity | exact H].
Qed.

Lemma run_inv_auto_stop_check s :
  run_inv (g s) -> run_inv (g (exec (auto_stop_check cfg w) s)).
Proof.
  intros H. unfold auto_stop_check, exec, bind, globals.
  destruct (truthy _); [ | exact H]. cbn.
  destruct (_ >=? _); cbn; [ | exact H].
  split; cbn; congruence.
Qed.

Lemma run_inv_admin_command parts s :
  run_inv (g s) -> run_inv (g (exec (admin_command cfg w parts) s)).
Proof.
  intros H.
  destruct (admin_command_cases cfg w
              (fun g0 => (isRunning g0, stopEndTime g0, runStartTime g0)) parts)
    as [[_ ->]|[[_ ->]|[[_ ->]|[[_ ->]|[_ K]]]]].
  - apply run_inv_cmd_start.
  - now apply run_inv_cmd_stop.
  - now apply run_inv_cmd_stime.
  - eapply run_inv_timers; [ | exact H]. symmetry.
    now apply (keeps_cmd_time cfg w
                 (fun g0 => (isRunning g0, stopEndTime g0, runStartTime g0))).
  - eapply run_inv_timers; [ | exact H]. symmetry. apply K.
Qed.

Lemma run_inv_process_update upd s :
  run_inv (g s) -> run_inv (g (exec (process_update cfg w upd) s)).
Proof.
  intros H. destruct (command_of cfg upd) as [c|] eqn:E.
  - rewrite (process_update_command _ _ _ E).
    apply run_inv_admin_command. exact H.
  - destruct (process_update_silent upd s E) as [-> _]. exact H.
Qed.

Lemma run_inv_emit_check s :
  run_inv (g s) -> run_inv (g (exec (emit_check cfg w) s)).
Proof.
  intros H. eapply run_inv_timers; [ | exact H]. symmetry.
  now apply (keeps_emit_check cfg w
               (fun g0 => (isRunning g0, stopEndTime g0, runStartTime g0))).
Qed.

(** One iteration, step by step. *)
Lemma for_each_invariant (Q : Globals -> Prop) (allowed : Update -> Prop) upds :
  (forall s upd, allowed upd -> Q (g s) -> Q (g (exec (process_update cfg w upd) s))) ->
  Forall allowed upds ->
  forall s, Q (g s) -> Q (g (exec (for_each upds (process_update cfg w)) s)).
Proof.
  intros Hstep Hall. induction Hall as [|upd upds Hu _ IH]; intros s HQ.
  - exact HQ.
  - cbn [for_each]. rewrite exec_bind. apply IH.
    apply (Hstep s upd Hu HQ).
Qed.

Lemma iteration_steps s :
  exec (iteration cfg w) s
  = let s1 := exec (auto_stop_check cfg w) s in
    let s2 := exec (getUpdates w (offset (g s1))) s1 in
    let s3 := exec (for_each (polled_batch cfg w s) (process_update cfg w)) s2 in
    let r := emit_check cfg w s3 in
    if r.1 then exec (sleep 1000) r.2 else r.2.
Proof.
  unfold iteration, polled_batch, exec, getUpdates, sleep, bind, globals, emit.
  destruct (auto_stop_check cfg w s) as [[] s1]. cbn [fst snd g cur].
  destruct (getUpdates_at w (n_poll (cur s1))) as [result|]; cbn [default from_option id].
  - destruct (for_each result (process_update cfg w) _) as [[] s3]. cbn [fst snd].
    destruct (emit_check cfg w s3) as [[|] s4]; reflexivity.
  - cbn [for_each ret fst snd].
    destruct (emit_check cfg w _) as [[|] s4]; reflexivity.
Qed.

Lemma iteration_invariant (Q : Globals -> Prop) (allowed : Update -> Prop) s :
  (forall s, Q (g s) -> Q (g (exec (auto_stop_check cfg w) s))) ->
  (forall s upd, allowed upd -> Q (g s) -> Q (g (exec (process_update cfg w upd) s))) ->
  (forall s, Q (g s) -> Q (g (exec (emit_check cfg w) s))) ->
  Forall allowed (polled_batch cfg w s) ->
  Q (g s) -> Q (g (exec (iteration cfg w) s)).
Proof.
  intros Hauto Hupd Hemit Hall HQ.
  rewrite iteration_steps. cbv zeta.
  specialize (Hauto s HQ).
  set (s1 := exec (auto_stop_check cfg w) s) in *.
  assert (H2 : Q (g (exec (getUpdates w (offset (g s1))) s1))) by exact Hauto.
  pose proof (for_each_invariant Q allowed _ Hupd Hall _ H2) as H3.
  specialize (Hemit _ H3). unfold exec in Hemit at 1.
  destruct (emit_check cfg w _) as [[|] s4]; exact Hemit.
Qed.

Lemma reachable_invariant (Q : Globals -> Prop) (allowed : Update -> Prop) :
  Q (initial_globals cfg) ->
  (forall s, Q (g s) -> Q (g (exec (auto_stop_check cfg w) s))) ->
  (forall s upd, allowed upd -> Q (g s) -> Q (g (exec (process_update cfg w upd) s))) ->
  (forall s, Q (g s) -> Q (g (exec (emit_check cfg w) s))) ->
  forall s, reachable cfg w allowed s -> Q (g s).
Proof.
  intros H0 Hauto Hupd Hemit s Hr.
  induction Hr as [d | s s' _ IH Hs].
  - exact H0.
  - destruct Hs as [s | s upd Hu | s | s Hall].
    + now apply Hauto.
    + now apply Hupd.
    + now apply Hemit.
    + now apply (iteration_invariant Q allowed).
Qed.

(** C5. In every state reached from process start by auto-stop checks,
    updates of any kind, emission steps and whole loop iterations, a
    scheduled stop time that is set, and a run start time that is set, each
    come with [isRunning] being true. *)
Theorem C5_run_invariant_reachable s :
  reachable cfg w (fun _ => True) s -> run_inv (g s).
Proof.
  apply reachable_invariant.
  - split; intros N; now contradiction N.
  - apply run_inv_auto_stop_check.
  - intros s0 upd _. apply run_inv_process_update.
  - apply run_inv_emit_check.
Qed.

End Loop.

(** ** Texts that name a command *)

Lemma toLowerCase_cons c t :
  Js.toLowerCase (String c t) = String (Js.lower_char c) (Js.toLowerCase t).
Proof. reflexivity. Qed.

Lemma lower_char_matches c : letter_matches c (Js.lower_char c).
Proof.
  unfold letter_matches, Js.lower_char. cbv zeta.
  destruct (N.leb 65 (N_of_ascii c) && N.leb (N_of_ascii c) 90) eqn:E; [right | now left].
  apply andb_true_iff in E as [E1 E2]. apply N.leb_le in E1, E2.
  split; [lia | ]. apply N_ascii_embedding. lia.
Qed.

Lemma matches_lower_char c d :
  Js.lower_char d = d -> letter_matches c d -> Js.lower_char c = d.
Proof.
  intros Hd [-> | ([H1 H2] & E)]; [exact Hd | ].
  unfold Js.lower_char. cbv zeta.
  apply N.leb_le in H1, H2. rewrite H1, H2. cbn [andb].
  rewrite <- E. apply ascii_N_embedding.
Qed.

Lemma prefix_lower_spells name : forall t,
  String.prefix name (Js.toLowerCase t) = true ->
  exists head rest, t = head ++ rest /\ spells head name.
Proof.
  induction name as [|d name IH]; intros t H.
  - exists "", t. split; [reflexivity | constructor].
  - destruct t as [|c t]; [discriminate | ].
    rewrite toLowerCase_cons in H. cbn [String.prefix] in H.
    destruct (ascii_dec d (Js.lower_char c)) as [->|]; [ | discriminate].
    destruct (IH t H) as (head & rest & -> & Hs).
    exists (String c head), rest. split; [reflexivity | ].
    constructor; [apply lower_char_matches | exact Hs].
Qed.

Lemma spells_prefix_lower head name rest :
  Js.toLowerCase name = name -> spells head name ->
  String.prefix name (Js.toLowerCase (head ++ rest)) = true.
Proof.
  intros Hl Hs. induction Hs as [|c d head name Hm Hs IH].
  - now destruct (Js.toLowerCase ("" ++ rest)).
  - rewrite toLowerCase_cons in Hl. injection Hl as Hd Hl.
    rewrite append_cons, toLowerCase_cons. cbn [String.prefix].
    rewrite (matches_lower_char c d Hd Hm).
    destruct (ascii_dec d d); [now apply IH | congruence].
Qed.

Lemma spells_slash head name :
  spells head (String "/" name) -> exists h, head = String "/" h.
Proof.
  intros H. inversion H as [|c d h n Hm Hs]; subst.
  destruct Hm as [-> | ([H1 _] & E)]; [eauto | ].
  exfalso. change (N_of_ascii "/") with 47%N in E. lia.
Qed.

(** The test of the program on the text of a stranger, in words. *)
Lemma names_command_test t :
  Js.startsWith t "/"
  && existsb (fun cmd => Js.startsWith (Js.toLowerCase t) cmd) knownCmds = true
  <-> names_command t.
Proof.
  split.
  - intros H. apply andb_true_iff in H as [_ H].
    apply existsb_exists in H as (name & Hin & H).
    destruct (prefix_lower_spells name t H) as (head & rest & E & Hs).
    exists name, head, rest. split; [exact Hin | now split].
  - intros (name & head & rest & Hin & -> & Hs). apply andb_true_iff. split.
    + assert (Hn : exists n, name = String "/" n).
      { cbn [In] in Hin.
        repeat (destruct Hin as [<- | Hin]; [eexists; reflexivity | ]). destruct Hin. }
      destruct Hn as (n & ->). destruct (spells_slash _ _ Hs) as (h & ->).
      unfold Js.startsWith. rewrite append_cons. cbn [String.prefix].
      destruct (ascii_dec "/" "/"); [now destruct (h ++ rest) | congruence].
    + apply existsb_exists. exists name. split; [exact Hin | ].
      apply spells_prefix_lower; [ | exact Hs].
      cbn [In] in Hin.
      repeat (destruct Hin as [<- | Hin]; [reflexivity | ]). destruct Hin.
Qed.

Lemma or_default_empty o : or_default o "" = text_or_empty o.
Proof. now destruct o as [[|c r]|]. Qed.

Lemma id_eqb_false a b : id_eqb a b = false -> a <> b.
Proof. intros H E. subst. now rewrite id_eqb_refl in H. Qed.

Section Commands.
Variable cfg : Config.
Variable w : World.

Lemma process_update_operator i txt s :
  Js.startsWith txt "/" = true ->
  exec (process_update cfg w (operator_update cfg i txt)) s
  = exec (admin_command cfg w (cmdParts_of txt))
      {| g := with_offset (i + 1) (g s); disk := disk s; cur := cur s;
         trace := trace s |}.
Proof.
  intros H.
  assert (E : command_of cfg (operator_update cfg i txt)
              = Some (Js.toLowerCase (nth 0 (cmdParts_of txt) ""))).
  { unfold command_of, update_text, from_operator, operator_update, text_update.
    cbn. now rewrite or_default_text, H, id_eqb_refl. }
  rewrite (process_update_command cfg w _ _ s E).
  unfold update_text, operator_update, text_update. cbn.
  now rewrite or_default_text.
Qed.

Lemma interval_process_update upd s :
  time_nonneg cfg upd -> 0 <= interval (g s) ->
  0 <= interval (g (exec (process_update cfg w upd) s)).
Proof.
  intros Hu H. destruct (command_of cfg upd) as [c|] eqn:E.
  - rewrite (process_update_command cfg w _ _ s E).
    set (s0 := {| g := with_offset (update_id upd + 1) (g s); disk := disk s;
                  cur := cur s; trace := trace s |}).
    assert (H0 : 0 <= interval (g s0)) by exact H.
    assert (Ec : c = Js.toLowerCase (nth 0 (cmdParts_of (update_text upd)) "")).
    { unfold command_of in E. destruct (_ && _); congruence. }
    destruct (admin_command_cases cfg w interval (cmdParts_of (update_text upd)))
      as [[_ ->]|[[_ ->]|[[_ ->]|[[Et ->]|[_ K]]]]].
    + now rewrite (keeps_cmd_start cfg w interval).
    + now rewrite (keeps_cmd_stop cfg w interval).
    + now rewrite (keeps_cmd_stime cfg w interval).
    + unfold time_nonneg, time_argument in Hu. rewrite E, Ec, Et in Hu.
      cbn [String.eqb Ascii.eqb Bool.eqb andb] in Hu.
      unfold cmd_time, exec.
      destruct (1 <? length (cmdParts_of (update_text upd)))%nat; [ | exact H0].
      destruct (Js.parseInt _) as [v|]; cbn; [ | exact H0].
      now apply Hu.
    + now rewrite K.
  - destruct (process_update_silent cfg w upd s E) as [-> _]. exact H.
Qed.

(** C3 (amended). Starting from a non-negative default, [interval] stays
    non-negative in every state reached by steps whose [/time] commands from
    the operator carry an argument that [parseInt] reads as a non-negative
    number (or rejects). *)
Theorem C3_interval_nonneg_without_negative_time s :
  0 <= DEFAULT_INTERVAL cfg ->
  reachable cfg w (time_nonneg cfg) s ->
  0 <= interval (g s).
Proof.
  intros Hd. apply (reachable_invariant cfg w (fun g0 => 0 <= interval g0)).
  - exact Hd.
  - intros s0 H. now rewrite (keeps_auto_stop_check cfg w interval).
  - intros s0 upd Hu H. now apply interval_process_update.
  - intros s0 H. now rewrite (keeps_emit_check cfg w interval).
Qed.

(** Auto-stop. *)
Lemma auto_stop_check_idle s :
  truthy (stopEndTime (g s)) = false -> auto_stop_check cfg w s = (tt, s).
Proof.
  intros H. unfold auto_stop_check, bind, globals. now rewrite H.
Qed.

Lemma auto_stop_check_fires s se :
  stopEndTime (g s) = Some se -> se <> 0 ->
  1000 * se <= Date_now_at w (n_now (cur s)) ->
  let s1 := exec (auto_stop_check cfg w) s in
  g s1 = with_stopEndTime None (with_runStartTime None (with_isRunning false (g s)))
  /\ (exists e, events (disk s1) = (events (disk s) ++ [e])%list
                /\ ev_type e = "auto-stop")
  /\ trace s1 = (trace s ++ [Sent (ADMIN_ID cfg) "⏹️ Time is up! The bot is now off." None])%list.
Proof.
  intros Hse Hnz Hnow. unfold auto_stop_check, exec, bind, globals.
  rewrite Hse. cbn [truthy to_number].
  rewrite (proj2 (Z.eqb_neq se 0) Hnz). cbn [negb Date_now].
  rewrite (proj2 (Z.geb_le _ _) Hnow).
  cbn. repeat split. eexists; split; reflexivity.
Qed.

Lemma quiet_step_stopEndTime s s' :
  quiet_step cfg w s s' -> stopEndTime (g s') = stopEndTime (g s).
Proof.
  intros [s0 upd Hq| s0 | s0 | s0 ms].
  - destruct (command_of cfg upd) as [c|] eqn:E.
    + rewrite (process_update_command cfg w _ _ s0 E).
      assert (Ec : c = Js.toLowerCase (nth 0 (cmdParts_of (update_text upd)) "")).
      { unfold command_of in E. destruct (_ && _); congruence. }
      unfold starts_or_stops in Hq. rewrite E, Ec in Hq.
      destruct (admin_command_cases cfg w stopEndTime (cmdParts_of (update_text upd)))
        as [[Et _]|[[Et _]|[[Et _]|[[_ ->]|[_ K]]]]].
      * exfalso. apply Hq. rewrite Et. cbn. auto.
      * exfalso. apply Hq. rewrite Et. cbn. auto.
      * exfalso. apply Hq. rewrite Et. cbn. auto.
      * now rewrite (keeps_cmd_time cfg w stopEndTime).
      * now rewrite K.
    + now destruct (process_update_silent cfg w upd s0 E) as [-> _].
  - reflexivity.
  - now apply (keeps_emit_check cfg w stopEndTime).
  - reflexivity.
Qed.

Lemma quiet_steps_stopEndTime s s' :
  rtc (quiet_step cfg w) s s' -> stopEndTime (g s') = stopEndTime (g s).
Proof.
  induction 1 as [x | x y z Hxy _ IH]; [reflexivity | ].
  rewrite IH. now apply quiet_step_stopEndTime.
Qed.

(** C6. Once the auto-stop check has fired (and logged its one
    [auto-stop] event), running it again, after any number of updates that
    are neither a start nor a stop of the operator, of polls, emission steps
    and sleeps, changes nothing at all: no variable, no file (so no second
    log entry), no message. *)
Theorem C6_auto_stop_idempotent s se s2 :
  stopEndTime (g s) = Some se -> se <> 0 ->
  1000 * se <= Date_now_at w (n_now (cur s)) ->
  rtc (quiet_step cfg w) (exec (auto_stop_check cfg w) s) s2 ->
  (exists e, events (disk (exec (auto_stop_check cfg w) s)) = (events (disk s) ++ [e])%list
             /\ ev_type e = "auto-stop")
  /\ exec (auto_stop_check cfg w) s2 = s2
  /\ events (disk (exec (auto_stop_check cfg w) s2)) = events (disk s2)
  /\ trace (exec (auto_stop_check cfg w) s2) = trace s2.
Proof.
  intros Hse Hnz Hnow Hq.
  destruct (auto_stop_check_fires s se Hse Hnz Hnow) as (Hg & He & _).
  split; [exact He | ].
  apply quiet_steps_stopEndTime in Hq. rewrite Hg in Hq. cbn in Hq.
  assert (E : exec (auto_stop_check cfg w) s2 = s2).
  { unfold exec. rewrite auto_stop_check_idle; [reflexivity | now rewrite Hq]. }
  rewrite E. auto.
Qed.


(** The two timed starts.  [/stop <seconds>] reads the clock once for the
    stop time and once more for the start time; [/stime <seconds>] reads it
    once and derives the stop time from the start time. *)
Lemma cmd_stop_seconds_globals parts secs s :
  (1 <? length parts)%nat = true ->
  Js.parseInt (nth 1 parts "") = Some secs ->
  g (exec (cmd_stop cfg w parts) s)
  = with_runStartTime (Some (Date_now_at w (S (n_now (cur s))) / 1000))
      (with_stopEndTime (Some (Date_now_at w (n_now (cur s)) / 1000 + secs))
         (with_isRunning true (g s))).
Proof. intros H1 H2. unfold cmd_stop, exec. rewrite H1, H2. reflexivity. Qed.

Lemma cmd_stop_seconds_same_second parts secs s :
  (1 <? length parts)%nat = true ->
  Js.parseInt (nth 1 parts "") = Some secs ->
  Date_now_at w (S (n_now (cur s))) / 1000 = Date_now_at w (n_now (cur s)) / 1000 ->
  exists start,
    runStartTime (g (exec (cmd_stop cfg w parts) s)) = Some start
    /\ stopEndTime (g (exec (cmd_stop cfg w parts) s)) = Some (start + secs)
    /\ isRunning (g (exec (cmd_stop cfg w parts) s)) = true.
Proof.
  intros H1 H2 H3. rewrite (cmd_stop_seconds_globals parts secs s H1 H2).
  eexists. cbn. rewrite H3. auto.
Qed.

Lemma cmd_stime_seconds_globals parts secs s :
  (1 <? length parts)%nat = true ->
  Js.parseInt (nth 1 parts "") = Some secs ->
  exists start,
    runStartTime (g (exec (cmd_stime cfg w parts) s)) = Some start
    /\ stopEndTime (g (exec (cmd_stime cfg w parts) s)) = Some (start + secs)
    /\ isRunning (g (exec (cmd_stime cfg w parts) s)) = true.
Proof.
  intros H1 H2. unfold cmd_stime, exec. rewrite H1, H2.
  eexists. cbn. auto.
Qed.

(** C7. When an emission is due and the BIN list is empty, the operator
    is sent the notice "No BINs in database. Add some with /bin <list>."
    (after a warning sign), the loop sleeps five seconds and skips the rest
    of the iteration; no counter, no file and no variable changes, so
    [lastSendTime] is as before. *)
Theorem C7_empty_key_list s :
  due (g s) (Date_now_at w (n_now (cur s))) = true ->
  bins (disk s) = [] ->
  trace (exec (emit_check cfg w) s)
  = (trace s ++ [Sent (ADMIN_ID cfg) "⚠️ No BINs in database. Add some with /bin <list>." None;
                 Slept 5000])%list
  /\ stats (disk (exec (emit_check cfg w) s)) = stats (disk s)
  /\ disk (exec (emit_check cfg w) s) = disk s
  /\ lastSendTime (g (exec (emit_check cfg w) s)) = lastSendTime (g s)
  /\ g (exec (emit_check cfg w) s) = g s
  /\ fst (emit_check cfg w s) = false.
Proof.
  intros Hdue Hb.
  unfold emit_check, exec, bind, globals, Date_now. cbn [fst snd g cur].
  rewrite Hdue.
  unfold generateCardData, loadBins, bind, readDisk. cbn [fst snd disk ret].
  rewrite Hb. cbn. rewrite <- app_assoc. repeat split; reflexivity.
Qed.

Lemma process_update_stranger s who i otext :
  who <> ADMIN_ID cfg ->
  exec (process_update cfg w (text_update who i otext)) s
  = if Js.startsWith (text_or_empty otext) "/"
       && existsb (fun cmd => Js.startsWith (Js.toLowerCase (text_or_empty otext)) cmd)
            knownCmds
    then {| g := with_offset (i + 1) (g s); disk := disk s; cur := tick_send (cur s);
            trace := (trace s ++ [Sent who not_authorized_text None])%list |}
    else {| g := with_offset (i + 1) (g s); disk := disk s; cur := cur s;
            trace := trace s |}.
Proof.
  intros Hwho.
  unfold process_update, text_update, exec, bind, assign.
  cbn [message from_id text update_id].
  rewrite (id_eqb_neq _ _ Hwho), or_default_empty. cbn [negb].
  destruct (Js.startsWith (text_or_empty otext) "/"); cbn [andb]; [ | reflexivity].
  destruct (existsb _ knownCmds); reflexivity.
Qed.

(** C8. A message from anyone but the operator is answered exactly when
    its text begins with one of the ten command names, letter case aside
    (so with "/"): the answer is the notice "You are not authorized to use
    this bot. Please contact admin @ethicalakash." to its sender.  Whatever
    the text, the run-state and the three files stay as they were. *)
Theorem C8_non_operator_messages s who i otext :
  who <> ADMIN_ID cfg ->
  (names_command (text_or_empty otext) ->
   trace (exec (process_update cfg w (text_update who i otext)) s)
   = (trace s
      ++ [Sent who
            "You are not authorized to use this bot. Please contact admin @ethicalakash."
            None])%list)
  /\ (~ names_command (text_or_empty otext) ->
      trace (exec (process_update cfg w (text_update who i otext)) s) = trace s)
  /\ run_state (g (exec (process_update cfg w (text_update who i otext)) s))
     = run_state (g s)
  /\ disk (exec (process_update cfg w (text_update who i otext)) s) = disk s.
Proof.
  intros Hwho. rewrite (process_update_stranger s who i otext Hwho).
  pose proof (names_command_test (text_or_empty otext)) as Htest.
  destruct (Js.startsWith (text_or_empty otext) "/" && existsb _ knownCmds).
  - split; [intros _; reflexivity | split; [ | split; reflexivity]].
    intros Hn. exfalso. apply Hn. now apply Htest.
  - split; [ | split; [intros _; reflexivity | split; reflexivity]].
    intros Hn. apply Htest in Hn. discriminate.
Qed.



Lemma incrementStats_stats key amount s :
  stats (disk (exec (incrementStats w key amount) s))
  = <[today_of (Date_now_at w (n_now (cur s))) :=
        bump key amount
          (default {| sent := 0; error := 0 |}
             (stats (disk s) !! today_of (Date_now_at w (n_now (cur s)))))]>
      (stats (disk s)).
Proof.
  unfold incrementStats, exec, bind, readDisk, Date_now, writeDisk.
  cbn [fst snd g disk cur trace with_stats stats].
  destruct (stats (disk s) !! today_of (Date_now_at w (n_now (cur s)))) as [day|] eqn:E.
  - rewrite E. reflexivity.
  - rewrite lookup_insert_eq. cbn [default from_option id].
    apply insert_insert_eq.
Qed.



(** The [/bin] loop. *)
Lemma includes_In l x : Js.includes l x = true <-> In x l.
Proof.
  unfold Js.includes. rewrite existsb_exists. split.
  - intros (y & Hy & E). apply String.eqb_eq in E. now subst.
  - intros H. exists x. split; [exact H | apply String.eqb_refl].
Qed.

Lemma add_bins_spec newBins : forall currentBins n,
  exists added,
    add_bins newBins currentBins n
    = ((currentBins ++ added)%list, n + Z.of_nat (length added))
    /\ List.NoDup added
    /\ (forall b, In b added <->
                  In b (map Js.trim newBins) /\ b <> "" /\ ~ In b currentBins).
Proof.
  induction newBins as [|b0 rest IH]; intros currentBins n.
  - exists []. cbn [add_bins length map]. rewrite app_nil_r, Z.add_0_r.
    split; [reflexivity | split; [constructor | ]].
    intros b. cbn. tauto.
  - cbn [add_bins map].
    destruct (String.eqb_spec (Js.trim b0) "") as [Ee|Ene]; cbn [negb andb].
    + destruct (IH currentBins n) as (added & E & Hnd & Hin).
      exists added. split; [exact E | split; [exact Hnd | ]].
      intros b. rewrite Hin. cbn [In]. intuition congruence.
    + destruct (Js.includes currentBins (Js.trim b0)) eqn:Einc; cbn [negb].
      * apply includes_In in Einc.
        destruct (IH currentBins n) as (added & E & Hnd & Hin).
        exists added. split; [exact E | split; [exact Hnd | ]].
        intros b. rewrite Hin. cbn [In]. intuition congruence.
      * assert (Hnot : ~ In (Js.trim b0) currentBins).
        { intros H. apply includes_In in H. congruence. }
        destruct (IH (currentBins ++ [Js.trim b0])%list (n + 1))
          as (added & E & Hnd & Hin).
        exists (Js.trim b0 :: added). split; [ | split].
        -- rewrite E. rewrite <- app_assoc. cbn [app length].
           f_equal. lia.
        -- constructor; [ | exact Hnd].
           intros H. apply Hin in H. destruct H as (_ & _ & H).
           apply H. apply in_or_app. right. now left.
        -- intros b. cbn [In]. rewrite Hin. rewrite in_app_iff. cbn [In].
           destruct (String.eqb_spec (Js.trim b0) b) as [Eb|Nb].
           ++ subst b. tauto.
           ++ tauto.
Qed.

Lemma cmd_bin_spec parts a s :
  (1 <? length parts)%nat = true -> nth 1 parts "" = a ->
  exists added,
    bins (disk (exec (cmd_bin cfg w parts) s)) = (bins (disk s) ++ added)%list
    /\ List.NoDup added
    /\ (forall b, In b added <->
                  In b (submitted_tokens a) /\ b <> "" /\ ~ In b (bins (disk s)))
    /\ trace (exec (cmd_bin cfg w parts) s)
       = (trace s ++ [Sent (ADMIN_ID cfg)
                        (bin_ack (Z.of_nat (length added))
                           (length (bins (disk s) ++ added))) None])%list.
Proof.
  intros H1 Ha.
  destruct (add_bins_spec (Js.split_comma (Js.remove_ws a)) (bins (disk s)) 0)
    as (added & E & Hnd & Hin).
  exists added.
  unfold cmd_bin, exec, loadBins, bind, readDisk, ret. rewrite H1, Ha.
  rewrite E. cbn. auto.
Qed.

(** C9. A [/bin] command of the operator appends to the stored list
    exactly the submitted tokens that are not empty and not yet in the list,
    each once (a token repeated in the submission is added the first time
    only); the acknowledgement is "Added", the number of tokens so added in
    decimal, "new BIN(s). Total in database:" and the length of the new
    list in decimal (after a check mark); a list without duplicates stays
    without duplicates.  From the empty list, [/bin 400000,400000,510000] gives the
    list 400000, 510000 and the acknowledgement (after its check mark)
    "Added 2 new BIN(s). Total in database: 2". *)
Theorem C9_bin_adds_net_new_tokens s i txt c a :
  Js.startsWith txt "/" = true ->
  cmdParts_of txt = [c; a] ->
  Js.toLowerCase c = "/bin" ->
  (exists added,
      bins (disk (exec (process_update cfg w (operator_update cfg i txt)) s))
      = (bins (disk s) ++ added)%list
      /\ List.NoDup added
      /\ (forall b, In b added <->
                    In b (submitted_tokens a) /\ b <> "" /\ ~ In b (bins (disk s)))
      /\ trace (exec (process_update cfg w (operator_update cfg i txt)) s)
         = (trace s
            ++ [Sent (ADMIN_ID cfg)
                  ("✅ Added " ++ pretty (Z.of_nat (length added))
                   ++ " new BIN(s). Total in database: "
                   ++ pretty (Z.of_nat (length (bins (disk s) ++ added)))) None])%list
      /\ (List.NoDup (bins (disk s)) -> List.NoDup (bins (disk s) ++ added)))
  /\ bins (disk (exec (process_update cfg w
                         (operator_update cfg 1 "/bin 400000,400000,510000"))
                   (boot cfg empty_disk)))
     = ["400000"; "510000"]
  /\ trace (exec (process_update cfg w
                    (operator_update cfg 1 "/bin 400000,400000,510000"))
              (boot cfg empty_disk))
     = [Sent (ADMIN_ID cfg) ("✅ " ++ "Added 2 new BIN(s). Total in database: 2") None].
Proof.
  intros Hs Hp Hc. split; [ | split].
  - rewrite process_update_operator by assumption. rewrite Hp.
    unfold admin_command. cbn [nth]. rewrite Hc.
    cbn [String.eqb Ascii.eqb Bool.eqb].
    destruct (cmd_bin_spec [c; a] a
                {| g := with_offset (i + 1) (g s); disk := disk s; cur := cur s;
                   trace := trace s |} eq_refl eq_refl)
      as (added & Eb & Hnd & Hin & Et).
    exists added. cbn [disk trace] in *.
    split; [exact Eb | split; [exact Hnd | split; [exact Hin | split; [exact Et | ]]]].
    intros Hold. apply List.NoDup_app; [exact Hold | exact Hnd | ].
    intros b Hb1 Hb2. apply Hin in Hb2. tauto.
  - rewrite process_update_operator by reflexivity. reflexivity.
  - rewrite process_update_operator by reflexivity. reflexivity.
Qed.

(** C10. Of the text of an operator command the program keeps the first
    two white-space-separated tokens and nothing else: whatever follows the
    second token, after a gap of white space, is dropped, and the command
    acts as if its text were the two tokens alone.  So
    [/bin 400000, 510000] submits [400000,] only and, from the empty list,
    adds the single key 400000. *)
Theorem C10_only_first_argument_token s i cmd gap1 arg gap2 rest :
  Js.startsWith cmd "/" = true ->
  is_token cmd = true -> is_gap gap1 = true ->
  is_token arg = true -> is_gap gap2 = true ->
  cmdParts_of (cmd ++ gap1 ++ arg ++ gap2 ++ rest) = [cmd; arg]
  /\ exec (process_update cfg w
             (operator_update cfg i (cmd ++ gap1 ++ arg ++ gap2 ++ rest))) s
     = exec (process_update cfg w (operator_update cfg i (cmd ++ " " ++ arg))) s
  /\ cmdParts_of "/bin 400000, 510000" = ["/bin"; "400000,"]
  /\ bins (disk (exec (process_update cfg w
                         (operator_update cfg 1 "/bin 400000, 510000"))
                   (boot cfg empty_disk)))
     = ["400000"]
  /\ trace (exec (process_update cfg w
                    (operator_update cfg 1 "/bin 400000, 510000"))
              (boot cfg empty_disk))
     = [Sent (ADMIN_ID cfg) ("✅ " ++ "Added 1 new BIN(s). Total in database: 1") None].
Proof.
  intros Hs Hc Hg1 Ha Hg2.
  assert (E1 : cmdParts_of (cmd ++ gap1 ++ arg ++ gap2 ++ rest) = [cmd; arg]).
  { now apply cmdParts_of_two. }
  assert (E2 : cmdParts_of (cmd ++ " " ++ arg) = [cmd; arg]).
  { now apply cmdParts_of_pair. }
  split; [exact E1 | split; [ | split; [reflexivity | split]]].
  - rewrite !process_update_operator by now apply startsWith_slash_append.
    now rewrite E1, E2.
  - rewrite process_update_operator by reflexivity. reflexivity.
  - rewrite process_update_operator by reflexivity. reflexivity.
Qed.

End Commands.

(** ** The embedding and the properties at concrete inputs *)

Ltac evaluate :=
  repeat match goal with |- _ /\ _ => split end; vm_compute; reflexivity.

(** The built-ins on sample inputs. *)
Example split_two : Js.split_ws_limit "/bin  a,b   c d" 2 = ["/bin"; "a,b"].
Proof. reflexivity. Qed.
Example split_edges : Js.split_ws " a  b " = [""; "a"; "b"; ""].
Proof. reflexivity. Qed.
Example parseInt_samples :
  map Js.parseInt ["42"; "-7"; "5x"; "abc"; "0x1F"; "+"; ""; "1.9"; "-0x"]
  = [Some 42; Some (-7); Some 5; None; Some 31; None; None; Some 1; None].
Proof. reflexivity. Qed.
Example iso_sample : Js.toISOString 1700000000123 = "2023-11-14T22:13:20.123Z".
Proof. vm_compute. reflexivity. Qed.
Example iso_leap : Js.toISOString 1709164800000 = "2024-02-29T00:00:00.000Z".
Proof. vm_compute. reflexivity. Qed.
Example trim_sample : Js.trim "  /stop 5 " = "/stop 5".
Proof. reflexivity. Qed.

(** White space is the whole class: a no-break space separates tokens, a
    byte order mark, a line separator and an ideographic space are trimmed. *)
Example split_no_break_space :
  cmdParts_of ("/time" ++ Js.utf8 160 ++ "-5") = ["/time"; "-5"].
Proof. vm_compute. reflexivity. Qed.
Example trim_unicode_spaces :
  Js.trim (Js.utf8 65279 ++ Js.utf8 8232 ++ "/stop" ++ Js.utf8 12288) = "/stop".
Proof. vm_compute. reflexivity. Qed.
Example time_argument_no_break_space :
  time_argument deployed (operator_update deployed 1 ("/time" ++ Js.utf8 160 ++ "-5"))
  = Some (-5).
Proof. vm_compute. reflexivity. Qed.
Example remove_ws_sample :
  Js.remove_ws ("400000," ++ Js.utf8 160 ++ " 510000") = "400000,510000".
Proof. vm_compute. reflexivity. Qed.

(** Lengths and slices count UTF-16 code units: a character outside the
    basic plane counts two, and a slice may keep its first half only. *)
Example length_units : Js.length "a😀" = 3%nat.
Proof. vm_compute. reflexivity. Qed.
Example slice_keeps_units : Js.slice0 6 "😀😀😀😀" = "😀😀😀".
Proof. vm_compute. reflexivity. Qed.
Example slice_cuts_pair : Js.slice0 2 "a😀b" = "a" ++ Js.utf8 55357.
Proof. vm_compute. reflexivity. Qed.





Lemma C3_interval_witness :
  reachable deployed (one_command_world "/time 15") (time_nonneg deployed)
    (exec (iteration deployed (one_command_world "/time 15")) (boot deployed empty_disk))
  /\ interval (g (exec (iteration deployed (one_command_world "/time 15"))
                    (boot deployed empty_disk))) = 15
  /\ 0 <= interval (g (exec (iteration deployed (one_command_world "/time 15"))
                         (boot deployed empty_disk))).
Proof.
  assert (R : reachable deployed (one_command_world "/time 15") (time_nonneg deployed)
                (exec (iteration deployed (one_command_world "/time 15"))
                   (boot deployed empty_disk))).
  { eapply reach_step; [apply reach_boot | apply step_iteration].
    repeat constructor. intros v H. vm_compute in H. injection H as <-. discriminate. }
  split; [exact R | split; [reflexivity | ]].
  apply (C3_interval_nonneg_without_negative_time deployed
           (one_command_world "/time 15")); [discriminate | exact R].
Defined.

(** C3 as stated fails: one loop iteration that delivers [/time -5] from
    the operator leaves a negative [interval]. *)
Lemma C3_counterexample_negative_time :
  reachable deployed (one_command_world "/time -5") (fun _ => True)
    (exec (iteration deployed (one_command_world "/time -5")) (boot deployed empty_disk))
  /\ interval (g (exec (iteration deployed (one_command_world "/time -5"))
                    (boot deployed empty_disk))) = -5.
Proof.
  split; [ | reflexivity].
  eapply reach_step; [apply reach_boot | apply step_iteration].
  repeat constructor.
Qed.

(** C4. [/stop 60] handled while the clock passes a second boundary: the
    stop time is computed from the first reading and the start time from the
    second, so the stop is scheduled 59 seconds after the recorded start. *)
Theorem C4_stop_seconds_reads_clock_twice :
  isRunning (g (exec (process_update deployed straddling_world
                        (operator_update deployed 1 "/stop 60"))
                  (boot deployed empty_disk))) = true
  /\ runStartTime (g (exec (process_update deployed straddling_world
                              (operator_update deployed 1 "/stop 60"))
                        (boot deployed empty_disk))) = Some 1700000001
  /\ stopEndTime (g (exec (process_update deployed straddling_world
                             (operator_update deployed 1 "/stop 60"))
                       (boot deployed empty_disk))) = Some (1700000001 + 59)
  /\ stopEndTime (g (exec (process_update deployed straddling_world
                             (operator_update deployed 1 "/stime 60"))
                       (boot deployed empty_disk))) = Some (1700000000 + 60)
  /\ runStartTime (g (exec (process_update deployed straddling_world
                              (operator_update deployed 1 "/stime 60"))
                        (boot deployed empty_disk))) = Some 1700000000.
Proof. evaluate. Qed.

Lemma C5_run_invariant_witness :
  reachable deployed (one_command_world "/stop 60") (fun _ => True)
    (exec (iteration deployed (one_command_world "/stop 60")) (boot deployed empty_disk))
  /\ stopEndTime (g (exec (iteration deployed (one_command_world "/stop 60"))
                       (boot deployed empty_disk))) = Some 1700000060
  /\ run_inv (g (exec (iteration deployed (one_command_world "/stop 60"))
                   (boot deployed empty_disk))).
Proof.
  assert (R : reachable deployed (one_command_world "/stop 60") (fun _ => True)
                (exec (iteration deployed (one_command_world "/stop 60"))
                   (boot deployed empty_disk))).
  { eapply reach_step; [apply reach_boot | apply step_iteration].
    repeat constructor. }
  split; [exact R | split; [reflexivity | ]].
  apply (C5_run_invariant_reachable deployed (one_command_world "/stop 60")). exact R.
Defined.

Lemma C6_auto_stop_witness :
  stopEndTime (g (exec (process_update deployed auto_stop_world
                          (operator_update deployed 1 "/stop 60"))
                    (boot deployed empty_disk))) = Some 1700000060
  /\ map ev_type
       (events (disk (exec (auto_stop_check deployed auto_stop_world)
                        (exec (process_update deployed auto_stop_world
                                 (operator_update deployed 1 "/stop 60"))
                           (boot deployed empty_disk)))))
     = ["timed-stop"; "auto-stop"]
  /\ exec (auto_stop_check deployed auto_stop_world)
       (exec (process_update deployed auto_stop_world (operator_update deployed 2 "/time 5"))
          (exec (auto_stop_check deployed auto_stop_world)
             (exec (process_update deployed auto_stop_world
                      (operator_update deployed 1 "/stop 60"))
                (boot deployed empty_disk))))
     = exec (process_update deployed auto_stop_world (operator_update deployed 2 "/time 5"))
         (exec (auto_stop_check deployed auto_stop_world)
            (exec (process_update deployed auto_stop_world
                     (operator_update deployed 1 "/stop 60"))
               (boot deployed empty_disk))).
Proof.
  split; [reflexivity | split; [vm_compute; reflexivity | ]].
  refine (proj1 (proj2 (C6_auto_stop_idempotent deployed auto_stop_world
           (exec (process_update deployed auto_stop_world
                    (operator_update deployed 1 "/stop 60"))
              (boot deployed empty_disk))
           1700000060 _ _ _ _ _))).
  - reflexivity.
  - discriminate.
  - apply Z.leb_le. reflexivity.
  - eapply rtc_l; [ | apply rtc_refl].
    apply (quiet_update deployed auto_stop_world _ (operator_update deployed 2 "/time 5")).
    unfold starts_or_stops. vm_compute. intuition discriminate.
Defined.

Lemma C7_empty_key_list_witness :
  due (g (started calm_world empty_disk)) t0 = true
  /\ bins (disk (started calm_world empty_disk)) = []
  /\ trace (exec (emit_check deployed calm_world) (started calm_world empty_disk))
     = (trace (started calm_world empty_disk)
        ++ [Sent operator "⚠️ No BINs in database. Add some with /bin <list>." None;
            Slept 5000])%list
  /\ stats (disk (exec (emit_check deployed calm_world) (started calm_world empty_disk)))
     = stats (disk (started calm_world empty_disk))
  /\ lastSendTime (g (exec (emit_check deployed calm_world) (started calm_world empty_disk)))
     = lastSendTime (g (started calm_world empty_disk)).
Proof.
  split; [reflexivity | split; [reflexivity | ]].
  destruct (C7_empty_key_list deployed calm_world (started calm_world empty_disk))
    as (Ht & Hs & _ & Hl & _).
  - reflexivity.
  - reflexivity.
  - split; [exact Ht | split; [exact Hs | exact Hl]].
Defined.

Lemma C8_non_operator_witness :
  IdNum 42 <> operator
  /\ names_command "/STOP now"
  /\ trace (exec (process_update deployed calm_world (text_update (IdNum 42) 7 (Some "/STOP now")))
              (boot deployed one_bin_disk))
     = [Sent (IdNum 42)
          "You are not authorized to use this bot. Please contact admin @ethicalakash." None]
  /\ ~ names_command "hello /stop"
  /\ trace (exec (process_update deployed calm_world
                    (text_update (IdNum 42) 8 (Some "hello /stop")))
              (boot deployed one_bin_disk))
     = []
  /\ run_state (g (exec (process_update deployed calm_world
                           (text_update (IdNum 42) 7 (Some "/STOP now")))
                     (boot deployed one_bin_disk)))
     = run_state (g (boot deployed one_bin_disk))
  /\ disk (exec (process_update deployed calm_world
                   (text_update (IdNum 42) 7 (Some "/STOP now")))
             (boot deployed one_bin_disk))
     = one_bin_disk.
Proof.
  assert (N1 : names_command "/STOP now").
  { exists "/stop", "/STOP", " now".
    split; [cbn [In]; tauto | split; [reflexivity | ]].
    repeat (constructor;
            [first [now left
                   | right; split; [split; apply N.leb_le; reflexivity | reflexivity]] | ]).
    constructor. }
  assert (N2 : ~ names_command "hello /stop").
  { intros H. apply names_command_test in H. discriminate. }
  destruct (C8_non_operator_messages deployed calm_world (boot deployed one_bin_disk)
              (IdNum 42) 7 (Some "/STOP now")) as (H1 & _ & H3 & H4); [discriminate | ].
  destruct (C8_non_operator_messages deployed calm_world (boot deployed one_bin_disk)
              (IdNum 42) 8 (Some "hello /stop")) as (_ & H2 & _); [discriminate | ].
  split; [discriminate | ].
  split; [exact N1 | split; [exact (H1 N1) | ]].
  split; [exact N2 | split; [exact (H2 N2) | ]].
  split; [exact H3 | exact H4].
Defined.

Lemma C9_bin_witness :
  cmdParts_of "/bin 400000,510000,,510000" = ["/bin"; "400000,510000,,510000"]
  /\ bins (disk (exec (process_update deployed calm_world
                         (operator_update deployed 1 "/bin 400000,510000,,510000"))
                   (boot deployed one_bin_disk)))
     = ["400000"; "510000"]
  /\ trace (exec (process_update deployed calm_world
                    (operator_update deployed 1 "/bin 400000,510000,,510000"))
              (boot deployed one_bin_disk))
     = [Sent operator "✅ Added 1 new BIN(s). Total in database: 2" None]
  /\ exists added,
       bins (disk (exec (process_update deployed calm_world
                           (operator_update deployed 1 "/bin 400000,510000,,510000"))
                     (boot deployed one_bin_disk)))
       = (["400000"] ++ added)%list
       /\ List.NoDup added.
Proof.
  split; [reflexivity | split; [vm_compute; reflexivity | split; [vm_compute; reflexivity | ]]].
  destruct (C9_bin_adds_net_new_tokens deployed calm_world (boot deployed one_bin_disk) 1
              "/bin 400000,510000,,510000" "/bin" "400000,510000,,510000")
    as ((added & Hb & Hnd & _) & _).
  - reflexivity.
  - reflexivity.
  - reflexivity.
  - exists added. split; [exact Hb | exact Hnd].
Defined.

Lemma C10_first_token_witness :
  cmdParts_of ("/stop" ++ "  " ++ "90" ++ Js.utf8 160 ++ "seconds please") = ["/stop"; "90"]
  /\ exec (process_update deployed calm_world
             (operator_update deployed 3
                ("/stop" ++ "  " ++ "90" ++ Js.utf8 160 ++ "seconds please")))
       (boot deployed empty_disk)
     = exec (process_update deployed calm_world (operator_update deployed 3 "/stop 90"))
         (boot deployed empty_disk).
Proof.
  destruct (C10_only_first_argument_token deployed calm_world (boot deployed empty_disk) 3
              "/stop" "  " "90" (Js.utf8 160) "seconds please")
    as (Hp & He & _).
  - reflexivity.
  - reflexivity.
  - reflexivity.
  - reflexivity.
  - reflexivity.
  - split; [exact Hp | exact He].
Defined.

(** * Further properties *)

(** ** One walk through the program for every preorder on states *)
Section Walk.
Variable cfg : Config.
Variable w : World.
Variable R : Sys -> Sys -> Prop.
Variable Pe : Effect -> Prop.
Hypothesis R_refl : forall s, R s s.
Hypothesis R_trans : forall s1 s2 s3, R s1 s2 -> R s2 s3 -> R s1 s3.
Hypothesis R_cur : forall s c,
  R s {| g := g s; disk := disk s; cur := c; trace := trace s |}.
Hypothesis R_g : forall s g',
  R s {| g := g'; disk := disk s; cur := cur s; trace := trace s |}.
Hypothesis R_effect : forall s e, Pe e ->
  R s {| g := g s; disk := disk s; cur := cur s; trace := (trace s ++ [e])%list |}.
Hypothesis R_disk : forall s d', disk_write (disk s) d' ->
  R s {| g := g s; disk := d'; cur := cur s; trace := trace s |}.
Hypothesis Pe_admin : forall t, Pe (Sent (ADMIN_ID cfg) t None).

Lemma respects_ret {A} (a : A) : respects R (ret a).
Proof. intros s. apply R_refl. Qed.

Lemma respects_bind {A B} (m : M A) (k : A -> M B) :
  respects R m -> (forall a, respects R (k a)) -> respects R (bind m k).
Proof.
  intros Hm Hk s. rewrite exec_bind. eapply R_trans; [apply Hm | apply Hk].
Qed.

Lemma respects_for_each {A} (l : list A) body :
  (forall x, In x l -> respects R (body x)) -> respects R (for_each l body).
Proof.
  induction l as [|x l IH]; intros H; cbn [for_each].
  - apply respects_ret.
  - apply respects_bind; [apply H; now left | intros _; apply IH].
    intros y Hy. apply H. now right.
Qed.

Lemma respects_globals : respects R globals.
Proof. intros s. apply R_refl. Qed.

Lemma respects_readDisk : respects R readDisk.
Proof. intros s. apply R_refl. Qed.

Lemma respects_assign f : respects R (assign f).
Proof. intros s. apply R_g. Qed.

Lemma respects_Date_now : respects R (Date_now w).
Proof. intros s. apply R_cur. Qed.

Lemma respects_Math_random : respects R (Math_random w).
Proof. intros s. apply R_cur. Qed.

Lemma respects_emit e : Pe e -> respects R (emit e).
Proof. intros H s. now apply R_effect. Qed.

Lemma respects_sleep ms : Pe (Slept ms) -> respects R (sleep ms).
Proof. apply respects_emit. Qed.

Lemma respects_sendMessage chat t mk :
  Pe (Sent chat t mk) -> respects R (sendMessage w chat t mk).
Proof.
  intros H. unfold sendMessage.
  apply respects_bind; [now apply respects_emit | intros _ s; apply R_cur].
Qed.

Lemma respects_await {A} (m : M A) : respects R m -> respects R (await m).
Proof. intros H. apply respects_bind; [exact H | intros; apply respects_ret]. Qed.

Lemma respects_tell t : respects R (await (sendMessage w (ADMIN_ID cfg) t None)).
Proof. apply respects_await, respects_sendMessage, Pe_admin. Qed.

Lemma respects_getUpdates o : Pe (Polled o) -> respects R (getUpdates w o).
Proof.
  intros H. unfold getUpdates.
  apply respects_bind; [now apply respects_emit | intros _ s; apply R_cur].
Qed.

Lemma respects_getBinDetails b : Pe (Looked b) -> respects R (getBinDetails w b).
Proof.
  intros H. unfold getBinDetails.
  apply respects_bind; [now apply respects_emit | intros _ s; apply R_cur].
Qed.

Lemma respects_logEvent ty extra : respects R (logEvent w ty extra).
Proof.
  intros s. unfold logEvent, exec, bind, readDisk, Date_now, writeDisk.
  cbn [fst snd g disk cur trace].
  eapply R_trans; [apply (R_cur s (tick_now (cur s))) | ].
  apply (R_disk {| g := g s; disk := disk s; cur := tick_now (cur s); trace := trace s |}).
  apply write_event.
Qed.

Lemma respects_incrementStats key amount :
  0 <= amount -> respects R (incrementStats w key amount).
Proof.
  intros Ha s.
  eapply R_trans; [apply (R_cur s (tick_now (cur s))) | ].
  pose proof (R_disk {| g := g s; disk := disk s; cur := tick_now (cur s);
                        trace := trace s |} _
                (write_count (disk s) (today_of (Date_now_at w (n_now (cur s))))
                   key amount Ha)) as H.
  cbn [g disk cur trace] in H.
  replace (exec (incrementStats w key amount) s)
    with {| g := g s;
            disk := with_stats
                      (<[today_of (Date_now_at w (n_now (cur s))) :=
                           bump key amount
                             (default {| sent := 0; error := 0 |}
                                (stats (disk s) !! today_of (Date_now_at w (n_now (cur s)))))]>
                         (stats (disk s))) (disk s);
            cur := tick_now (cur s); trace := trace s |}; [exact H | ].
  pose proof (incrementStats_stats w key amount s) as E.
  unfold incrementStats, exec, bind, readDisk, Date_now, writeDisk in *.
  cbn [fst snd g disk cur trace with_stats stats] in *.
  unfold with_stats. now rewrite E.
Qed.

Lemma respects_saveBins_added added s :
  List.NoDup added ->
  (forall b, In b added -> b <> "" /\ ~ In b (bins (disk s))) ->
  R s (exec (saveBins (bins (disk s) ++ added)) s).
Proof. intros H1 H2. apply R_disk. now apply write_bins_added. Qed.

Lemma respects_floor_random_times n : respects R (floor_random_times w n).
Proof.
  unfold floor_random_times.
  apply respects_bind; [apply respects_Math_random | intros; apply respects_ret].
Qed.

Lemma respects_random_digits n tail : respects R (random_digits w n tail).
Proof.
  revert tail. induction n as [|n IH]; intros tail; cbn [random_digits].
  - apply respects_ret.
  - apply respects_bind; [apply respects_floor_random_times | intros; apply IH].
Qed.

Lemma respects_random_bins n result : respects R (random_bins w n result).
Proof.
  revert result. induction n as [|n IH]; intros result; cbn [random_bins].
  - apply respects_ret.
  - apply respects_bind; [apply respects_Math_random | intros coin].
    apply respects_bind; [ | intros; apply IH].
    destruct (coin <? 2 ^ 52);
      (apply respects_bind; [apply respects_floor_random_times | intros; apply respects_ret]).
Qed.

Lemma respects_shuffle i result : respects R (shuffle w i result).
Proof.
  revert result. induction i as [|i IH]; intros result; cbn [shuffle].
  - apply respects_ret.
  - apply respects_bind; [apply respects_floor_random_times | intros; apply IH].
Qed.

Lemma respects_generateRandomBins count : respects R (generateRandomBins w count).
Proof.
  unfold generateRandomBins.
  apply respects_bind; [apply respects_random_bins | intros; apply respects_shuffle].
Qed.

Lemma respects_generateCardData : respects R (generateCardData w).
Proof.
  unfold generateCardData, loadBins.
  apply respects_bind; [intros s; apply R_refl | intros binsList].
  destruct (Nat.eqb _ _); [apply respects_ret | ].
  repeat (apply respects_bind;
          [first [apply respects_floor_random_times | apply respects_random_digits]
          | intros ?]).
  apply respects_ret.
Qed.

Lemma respects_cmd_start : respects R (cmd_start cfg w).
Proof.
  unfold cmd_start.
  repeat (apply respects_bind;
          [first [apply respects_assign | apply respects_Date_now
                 | apply respects_logEvent] | intros ?]).
  apply respects_tell.
Qed.

Lemma respects_cmd_stop parts : respects R (cmd_stop cfg w parts).
Proof.
  unfold cmd_stop. destruct (1 <? length parts)%nat.
  - destruct (Js.parseInt _); [ | apply respects_tell].
    repeat (apply respects_bind;
            [first [apply respects_assign | apply respects_Date_now
                   | apply respects_logEvent] | intros ?]).
    apply respects_tell.
  - apply respects_bind; [apply respects_assign | intros _].
    apply respects_bind; [apply respects_globals | intros g0].
    apply respects_bind.
    + destruct (runStartTime g0); [ | apply respects_logEvent].
      apply respects_bind; [apply respects_Date_now | intros; apply respects_logEvent].
    + intros _.
      repeat (apply respects_bind; [apply respects_assign | intros ?]).
      apply respects_tell.
Qed.

Lemma respects_cmd_stime parts : respects R (cmd_stime cfg w parts).
Proof.
  unfold cmd_stime. destruct (1 <? length parts)%nat; [ | apply respects_tell].
  destruct (Js.parseInt _); [ | apply respects_tell].
  repeat (apply respects_bind;
          [first [apply respects_assign | apply respects_Date_now
                 | apply respects_globals | apply respects_logEvent] | intros ?]).
  apply respects_tell.
Qed.

Lemma respects_cmd_time parts : respects R (cmd_time cfg w parts).
Proof.
  unfold cmd_time. destruct (1 <? length parts)%nat; [ | apply respects_tell].
  destruct (Js.parseInt _); [ | apply respects_tell].
  repeat (apply respects_bind;
          [first [apply respects_assign | apply respects_Date_now
                 | apply respects_tell] | intros ?]).
  apply respects_logEvent.
Qed.

Lemma respects_cmd_gen parts : respects R (cmd_gen cfg w parts).
Proof.
  unfold cmd_gen. destruct (1 <? length parts)%nat; [ | apply respects_tell].
  destruct (Js.parseInt _) as [n|]; [ | apply respects_tell].
  destruct (n >? 0); [ | apply respects_tell].
  apply respects_bind; [apply respects_generateRandomBins | intros; apply respects_tell].
Qed.

Lemma respects_cmd_bin parts : respects R (cmd_bin cfg w parts).
Proof.
  unfold cmd_bin. destruct (1 <? length parts)%nat; [ | apply respects_tell].
  intros s. rewrite exec_bind.
  change (exec loadBins s) with s.
  change (fst (loadBins s)) with (bins (disk s)).
  destruct (add_bins_spec (Js.split_comma (Js.remove_ws (nth 1 parts "")))
              (bins (disk s)) 0) as (added & E & Hnd & Hin).
  rewrite E. rewrite exec_bind.
  eapply R_trans.
  - apply respects_saveBins_added; [exact Hnd | ]. intros b Hb.
    apply Hin in Hb. tauto.
  - apply respects_bind; [apply respects_logEvent | intros; apply respects_tell].
Qed.

Lemma respects_cmd_remove : respects R (cmd_remove cfg w).
Proof.
  unfold cmd_remove.
  apply respects_bind; [ | intros _].
  - intros s. apply R_disk. apply write_bins_cleared.
  - apply respects_bind; [apply respects_logEvent | intros; apply respects_tell].
Qed.

Lemma respects_cmd_r parts : respects R (cmd_r cfg w parts).
Proof.
  unfold cmd_r. destruct (1 <? length parts)%nat; [ | apply respects_tell].
  intros s. rewrite exec_bind.
  change (exec loadBins s) with s.
  change (fst (loadBins s)) with (bins (disk s)).
  destruct (Js.includes _ _); [ | apply respects_tell].
  rewrite exec_bind. eapply R_trans.
  - apply R_disk. apply write_bins_removed.
  - apply respects_bind; [apply respects_logEvent | intros; apply respects_tell].
Qed.

Lemma respects_cmd_info : respects R (cmd_info cfg w).
Proof.
  unfold cmd_info. apply respects_bind; [apply respects_readDisk | intros d].
  destruct (Nat.eqb _ _); apply respects_tell.
Qed.

Lemma respects_cmd_logs : respects R (cmd_logs cfg w).
Proof.
  unfold cmd_logs. apply respects_bind; [apply respects_readDisk | intros d].
  destruct (Nat.eqb _ _); apply respects_tell.
Qed.

Lemma respects_admin_command parts : respects R (admin_command cfg w parts).
Proof.
  unfold admin_command.
  repeat match goal with
         | |- respects R (if ?c then _ else _) => destruct c
         end;
    first [apply respects_cmd_start | apply respects_cmd_stop | apply respects_cmd_stime
          | apply respects_cmd_time | apply respects_cmd_gen | apply respects_cmd_bin
          | apply respects_cmd_remove | apply respects_cmd_r | apply respects_cmd_info
          | apply respects_cmd_logs | apply respects_ret].
Qed.

Lemma respects_process_update upd :
  (forall msg, message upd = Some msg -> from_id msg <> ADMIN_ID cfg ->
               Pe (Sent (from_id msg) not_authorized_text None)) ->
  respects R (process_update cfg w upd).
Proof.
  intros Hreply. unfold process_update.
  apply respects_bind; [apply respects_assign | intros _].
  destruct (message upd) as [msg|]; [ | apply respects_ret].
  destruct (Js.startsWith _ _); [ | apply respects_ret].
  destruct (id_eqb (from_id msg) (ADMIN_ID cfg)) eqn:E; cbn [negb];
    [apply respects_admin_command | ].
  destruct (existsb _ _); [ | apply respects_ret].
  apply respects_await, respects_sendMessage.
  apply Hreply; [reflexivity | now apply id_eqb_false].
Qed.

Lemma respects_auto_stop_check : respects R (auto_stop_check cfg w).
Proof.
  unfold auto_stop_check.
  apply respects_bind; [apply respects_globals | intros g0].
  destruct (truthy _); [ | apply respects_ret].
  apply respects_bind; [apply respects_Date_now | intros now].
  destruct (_ >=? _); [ | apply respects_ret].
  repeat (apply respects_bind;
          [first [apply respects_assign | apply respects_Date_now
                 | apply respects_globals | apply respects_logEvent
                 | apply respects_tell] | intros ?]).
  apply respects_assign.
Qed.

Lemma respects_emit_check :
  (forall b, Pe (Looked b)) -> (forall ms, Pe (Slept ms)) ->
  (forall card binInfo,
     Pe (Sent (CHANNEL_ID cfg) (messageText card binInfo) (Some replyMarkup))) ->
  respects R (emit_check cfg w).
Proof.
  intros Hl Hs Hc. unfold emit_check.
  apply respects_bind; [apply respects_Date_now | intros nowMs].
  apply respects_bind; [apply respects_globals | intros g0].
  destruct (due g0 nowMs); [ | apply respects_ret].
  apply respects_bind; [apply respects_generateCardData | intros [card|]].
  - apply respects_bind; [apply respects_getBinDetails, Hl | intros binInfo].
    apply respects_bind; [apply respects_sendMessage, Hc | intros [|]].
    + apply respects_bind; [ | intros; apply respects_ret].
      apply respects_bind; [now apply respects_incrementStats | intros _].
      apply respects_bind; [apply respects_Date_now | intros; apply respects_assign].
    + apply respects_bind; [ | intros; apply respects_ret].
      apply respects_bind; [now apply respects_incrementStats | intros _].
      apply respects_bind; [apply respects_tell | intros _].
      apply respects_bind; [apply respects_sleep, Hs | intros _].
      apply respects_bind; [apply respects_Date_now | intros; apply respects_assign].
  - apply respects_bind; [apply respects_tell | intros _].
    apply respects_bind; [apply respects_sleep, Hs | intros; apply respects_ret].
Qed.

(** The steps of the loop, over the updates that [allowed] admits. *)
Variable allowed : Update -> Prop.
Hypothesis Pe_looked : forall b, Pe (Looked b).
Hypothesis Pe_slept : forall ms, Pe (Slept ms).
Hypothesis Pe_polled : forall o, Pe (Polled o).
Hypothesis Pe_card : forall card binInfo,
  Pe (Sent (CHANNEL_ID cfg) (messageText card binInfo) (Some replyMarkup)).
Hypothesis Pe_notice : forall upd msg,
  allowed upd -> message upd = Some msg -> from_id msg <> ADMIN_ID cfg ->
  Pe (Sent (from_id msg) not_authorized_text None).

Lemma respects_iteration s :
  Forall allowed (polled_batch cfg w s) -> R s (exec (iteration cfg w) s).
Proof.
  intros Hall. rewrite iteration_steps. cbv zeta.
  set (s1 := exec (auto_stop_check cfg w) s).
  set (s2 := exec (getUpdates w (offset (g s1))) s1).
  set (s3 := exec (for_each (polled_batch cfg w s) (process_update cfg w)) s2).
  assert (R1 : R s s1) by apply respects_auto_stop_check.
  assert (R2 : R s1 s2) by apply respects_getUpdates, Pe_polled.
  assert (R3 : R s2 s3).
  { apply respects_for_each. intros upd Hin. apply respects_process_update.
    intros msg Hm Hne. apply (Pe_notice upd msg); [ | exact Hm | exact Hne].
    rewrite List.Forall_forall in Hall. now apply Hall. }
  assert (R4 : R s3 (exec (emit_check cfg w) s3))
    by (apply respects_emit_check; auto).
  unfold exec in R4 at 1.
  assert (R5 : R s s3) by (eapply R_trans; [exact R1 | eapply R_trans; eassumption]).
  destruct (emit_check cfg w s3) as [[|] s4]; cbn [fst snd] in *.
  - eapply R_trans; [exact R5 | ]. eapply R_trans; [exact R4 | ].
    apply respects_sleep, Pe_slept.
  - eapply R_trans; [exact R5 | exact R4].
Qed.

Lemma respects_step s s' : step cfg w allowed s s' -> R s s'.
Proof.
  intros [s0 | s0 upd Hu | s0 | s0 Hall].
  - apply respects_auto_stop_check.
  - apply respects_process_update. intros msg Hm Hne. now apply (Pe_notice upd msg).
  - apply respects_emit_check; auto.
  - now apply respects_iteration.
Qed.

Lemma respects_steps s s' : rtc (step cfg w allowed) s s' -> R s s'.
Proof.
  induction 1 as [x | x y z Hxy _ IH].
  - apply R_refl.
  - eapply R_trans; [ | exact IH]. now apply respects_step.
Qed.

End Walk.

(** ** The files change through the five writes only *)
Section DiskHistory.
Variable cfg : Config.
Variable w : World.

Lemma runs_disk_writes s s' :
  runs cfg w s s' -> rtc disk_write (disk s) (disk s').
Proof.
  apply (respects_steps cfg w (fun a b => rtc disk_write (disk a) (disk b))
           (fun _ => True)); try (intros; exact I).
  - intros a. apply rtc_refl.
  - intros a b c. apply rtc_trans.
  - intros a c. apply rtc_refl.
  - intros a g'. apply rtc_refl.
  - intros a e _. apply rtc_refl.
  - intros a d' H. now apply rtc_once.
Qed.

Lemma disk_write_bins_ok d d' : disk_write d d' -> bins_ok d -> bins_ok d'.
Proof.
  unfold bins_ok.
  intros [d0 e | d0 day key amount _ | d0 added Hnd Hnew | d0 b | d0] [H1 H2];
    cbn [with_events with_stats with_bins bins]; try (split; assumption).
  - split.
    + apply List.NoDup_app; [exact H1 | exact Hnd | ].
      intros x Hx Hx'. apply Hnew in Hx'. tauto.
    + rewrite in_app_iff. intros [H | H]; [tauto | ]. apply Hnew in H. tauto.
  - split; [now apply List.NoDup_filter | ].
    rewrite filter_In. tauto.
  - split; [constructor | intros []].
Qed.

(** X3. If the stored BINs are pairwise distinct and none of them is
    empty, they stay so whatever the loop does. *)
Theorem X3_bin_list_stays_distinct s s' :
  runs cfg w s s' -> bins_ok (disk s) -> bins_ok (disk s').
Proof.
  intros H. apply runs_disk_writes in H. revert H.
  generalize (disk s) (disk s'). intros d d'.
  induction 1 as [x | x y z Hxy _ IH]; [auto | ].
  intros Hx. apply IH. now apply (disk_write_bins_ok x y).
Qed.

Lemma trace_adds_refl P s : trace_adds P s s.
Proof. exists []. split; [now rewrite app_nil_r | constructor]. Qed.

Lemma trace_adds_trans P s1 s2 s3 :
  trace_adds P s1 s2 -> trace_adds P s2 s3 -> trace_adds P s1 s3.
Proof.
  intros (l1 & E1 & F1) (l2 & E2 & F2). exists (l1 ++ l2)%list.
  split; [now rewrite E2, E1, app_assoc | now apply Forall_app].
Qed.

Lemma card_text_messageText card binInfo : card_text (messageText card binInfo).
Proof. split; [eauto | ]. unfold messageText. eexists. reflexivity. Qed.

(** X4. With an operator who is not the channel, whatever the loop does
    while no update comes from the channel itself: a message with a button
    is a card, goes to the channel and carries the Join button; a message
    without button goes to the operator, or is the not-authorized notice
    to a sender who is neither the operator nor the channel.  So every
    message that reaches the channel is a card with the Join button. *)
Theorem X4_messages_are_addressed s s' :
  ADMIN_ID cfg <> CHANNEL_ID cfg ->
  runs_beside_channel cfg w s s' ->
  exists added,
    trace s' = (trace s ++ added)%list
    /\ Forall (addressed cfg) added
    /\ forall t mk, In (Sent (CHANNEL_ID cfg) t mk) added ->
         mk = Some {| button_text := "Join"; button_url := "https://t.me/skylegacyy" |}
         /\ card_text t.
Proof.
  intros Hne Hrun.
  assert (H : trace_adds (addressed cfg) s s').
  { revert Hrun.
    apply (respects_steps cfg w (trace_adds (addressed cfg)) (addressed cfg)).
    - apply trace_adds_refl.
    - apply trace_adds_trans.
    - intros a c. apply (trace_adds_refl _ a).
    - intros a g'. apply (trace_adds_refl _ a).
    - intros a e He. exists [e]. split; [reflexivity | now constructor].
    - intros a d' _. apply (trace_adds_refl _ a).
    - intros t. now left.
    - intros b. exact I.
    - intros ms. exact I.
    - intros o. exact I.
    - intros card binInfo. split; [reflexivity | split; [reflexivity | ]].
      apply card_text_messageText.
    - intros upd msg Hallowed Hm Hadmin. right.
      split; [exact Hadmin | split; [now apply Hallowed | reflexivity]]. }
  destruct H as (added & E & F). exists added.
  split; [exact E | split; [exact F | ]].
  intros t mk Hin. rewrite List.Forall_forall in F. specialize (F _ Hin).
  cbn [addressed] in F. destruct mk as [mk|].
  - destruct F as (_ & -> & Hc). now split.
  - destruct F as [F | (_ & F & _)]; congruence.
Qed.

Lemma process_update_no_message i s :
  exec (process_update cfg w {| update_id := i; message := None |}) s
  = {| g := with_offset (i + 1) (g s); disk := disk s; cur := cur s; trace := trace s |}.
Proof. reflexivity. Qed.

(** X5. Handling one update does nothing to the outside but reply: an
    update of the operator is answered with messages without button to the
    operator; an update of anyone else is answered with the not-authorized
    notice to its sender or not at all; an update without message is not
    answered.  It never sleeps, polls or looks a BIN up. *)
Theorem X5_update_only_replies upd s :
  trace_adds (reply_to cfg upd) s (exec (process_update cfg w upd) s).
Proof.
  destruct upd as [i [[who otext]|]].
  - destruct (id_eqb who (ADMIN_ID cfg)) eqn:E.
    + assert (Ew : who = ADMIN_ID cfg).
      { destruct who as [x|x], (ADMIN_ID cfg) as [y|y]; cbn in E; try discriminate.
        - apply Z.eqb_eq in E. now subst.
        - apply String.eqb_eq in E. now subst. }
      apply (respects_process_update cfg w
               (trace_adds (reply_to cfg {| update_id := i;
                                            message := Some {| from_id := who;
                                                               text := otext |} |}))
               (reply_to cfg {| update_id := i;
                                message := Some {| from_id := who; text := otext |} |})).
      * apply trace_adds_refl.
      * apply trace_adds_trans.
      * intros a c. apply (trace_adds_refl _ a).
      * intros a g'. apply (trace_adds_refl _ a).
      * intros a e He. exists [e]. split; [reflexivity | now constructor].
      * intros a d' _. apply (trace_adds_refl _ a).
      * intros t. eexists. split; [reflexivity | left]. cbn [from_id]. eauto.
      * intros msg [= <-] Hne. cbn [from_id] in Hne. contradiction.
    + apply id_eqb_false in E.
      change {| update_id := i; message := Some {| from_id := who; text := otext |} |}
        with (text_update who i otext).
      rewrite (process_update_stranger cfg w s who i otext E).
      destruct (_ && _).
      * eexists. split; [reflexivity | ]. constructor; [ | constructor].
        eexists. split; [reflexivity | right]. cbn [from_id]. now split.
      * apply (trace_adds_refl _ s).
  - rewrite process_update_no_message. exists []. split; [ | constructor].
    cbn [trace]. now rewrite app_nil_r.
Qed.

End DiskHistory.

(** ** The poll offset *)
Section Offset.
Variable cfg : Config.
Variable w : World.

Lemma offset_admin_command parts : keeps (fun s => offset (g s)) (admin_command cfg w parts).
Proof.
  destruct (admin_command_cases cfg w offset parts)
    as [[_ ->]|[[_ ->]|[[_ ->]|[[_ ->]|[_ K]]]]].
  - now apply (keeps_cmd_start cfg w offset).
  - now apply (keeps_cmd_stop cfg w offset).
  - now apply (keeps_cmd_stime cfg w offset).
  - now apply (keeps_cmd_time cfg w offset).
  - exact K.
Qed.

Lemma offset_process_update upd s :
  offset (g (exec (process_update cfg w upd) s)) = update_id upd + 1.
Proof.
  destruct (command_of cfg upd) as [c|] eqn:E.
  - rewrite (process_update_command cfg w _ _ s E).
    now rewrite offset_admin_command.
  - now destruct (process_update_silent cfg w upd s E) as [-> _].
Qed.

Lemma exec_then {A B} (m : M A) (k : M B) s :
  exec (m ;; k) s = exec k (exec m s).
Proof. unfold exec, bind. now destruct (m s). Qed.

Lemma last_default {A} (x : A) l d d' : List.last (x :: l) d = List.last (x :: l) d'.
Proof.
  revert x. induction l as [|y l IH]; intros x; [reflexivity | ].
  change (List.last (y :: l) d = List.last (y :: l) d'). apply IH.
Qed.

Lemma offset_for_each upds : forall s,
  offset (g (exec (for_each upds (process_update cfg w)) s))
  = List.last (map (fun u => update_id u + 1) upds) (offset (g s)).
Proof.
  induction upds as [|upd upds IH]; intros s; [reflexivity | ].
  cbn [for_each]. rewrite exec_then, IH, offset_process_update.
  destruct upds as [|upd' upds]; [reflexivity | ].
  cbn [map].
  transitivity (List.last (update_id upd' + 1 :: map (fun u => update_id u + 1) upds)
                  (offset (g s))); [apply last_default | reflexivity].
Qed.

(** X6. One loop iteration leaves the poll offset one past the
    identifier of the last update of the batch it fetched, whoever sent the
    updates and whether they carried a message, a command or neither; with
    no update (or a failed fetch) the offset stays. *)
Theorem X6_offset_follows_last_update s :
  offset (g (exec (iteration cfg w) s))
  = List.last (map (fun u => update_id u + 1) (polled_batch cfg w s)) (offset (g s)).
Proof.
  rewrite iteration_steps. cbv zeta.
  set (s1 := exec (auto_stop_check cfg w) s).
  set (s2 := exec (getUpdates w (offset (g s1))) s1).
  set (s3 := exec (for_each (polled_batch cfg w s) (process_update cfg w)) s2).
  assert (E3 : offset (g s3)
               = List.last (map (fun u => update_id u + 1) (polled_batch cfg w s))
                   (offset (g s))).
  { subst s3. rewrite offset_for_each. f_equal.
    subst s2 s1. change (offset (g (exec (getUpdates w ?o) ?x))) with (offset (g x)).
    now apply (keeps_auto_stop_check cfg w offset). }
  pose proof (keeps_emit_check cfg w offset (fun _ _ => eq_refl) s3) as E4.
  unfold exec in E4. cbv beta in E4.
  destruct (emit_check cfg w s3) as [[|] s4]; cbn [fst snd] in *; now rewrite <- E3.
Qed.

End Offset.

(** ** Random BINs *)
Section RandomBins.
Variable w : World.

Lemma floor_random_range k s :
  0 < k -> 0 <= fst (floor_random_times w k s) < k.
Proof.
  intros Hk. unfold floor_random_times, bind, Math_random, ret. cbn [fst snd].
  pose proof (Z.mod_pos_bound (Math_random_at w (n_random (cur s))) (2 ^ 53) ltac:(lia))
    as [H0 H1].
  split.
  - apply Z.div_pos; [nia | lia].
  - apply Z.div_lt_upper_bound; [lia | nia].
Qed.

Lemma random_bins_spec n : forall result s,
  exists new,
    fst (random_bins w n result s) = (result ++ new)%list
    /\ length new = n /\ Forall is_bin6 new.
Proof.
  induction n as [|n IH]; intros result s.
  - exists []. cbn. now rewrite app_nil_r.
  - cbn [random_bins]. unfold bind at 1.
    destruct (Math_random w s) as [coin s1].
    unfold bind at 1.
    destruct (coin <? 2 ^ 52).
    + unfold bind at 1.
      pose proof (floor_random_range (499999 - 400000 + 1) s1 ltac:(lia)) as Hr.
      destruct (floor_random_times w (499999 - 400000 + 1) s1) as [r s2].
      cbn [fst snd ret] in *.
      destruct (IH (result ++ [Js.num_to_string (r + 400000)])%list s2)
        as (new & E & Hl & Hf).
      exists (Js.num_to_string (r + 400000) :: new).
      rewrite E, <- app_assoc. cbn [app length].
      split; [reflexivity | split; [now rewrite Hl | ]].
      constructor; [ | exact Hf]. exists (r + 400000). split; [reflexivity | lia].
    + unfold bind at 1.
      pose proof (floor_random_range (559999 - 510000 + 1) s1 ltac:(lia)) as Hr.
      destruct (floor_random_times w (559999 - 510000 + 1) s1) as [r s2].
      cbn [fst snd ret] in *.
      destruct (IH (result ++ [Js.num_to_string (r + 510000)])%list s2)
        as (new & E & Hl & Hf).
      exists (Js.num_to_string (r + 510000) :: new).
      rewrite E, <- app_assoc. cbn [app length].
      split; [reflexivity | split; [now rewrite Hl | ]].
      constructor; [ | exact Hf]. exists (r + 510000). split; [reflexivity | lia].
Qed.

Lemma replace_perm {A} (d x : A) l : forall j,
  (j < length l)%nat -> Permutation (nth j l d :: <[j := x]> l) (x :: l).
Proof.
  induction l as [|z l IH]; intros j Hj; [cbn in Hj; lia | ].
  destruct j as [|j]; cbn [nth].
  - apply perm_swap.
  - cbn in Hj. change (<[S j := x]> (z :: l)) with (z :: <[j := x]> l).
    etransitivity; [apply perm_swap | ].
    etransitivity; [apply perm_skip, IH; lia | apply perm_swap].
Qed.

Lemma swap_perm {A} (d : A) l : forall i j,
  (i < length l)%nat -> (j < length l)%nat ->
  Permutation (<[j := nth i l d]> (<[i := nth j l d]> l)) l.
Proof.
  induction l as [|x l IH]; intros i j Hi Hj; [cbn in Hi; lia | ].
  cbn in Hi, Hj. destruct i as [|i], j as [|j]; cbn [nth].
  - reflexivity.
  - change (<[S j := x]> (<[0%nat := nth j l d]> (x :: l)))
      with (nth j l d :: <[j := x]> l).
    apply replace_perm. lia.
  - change (<[0%nat := nth i l d]> (<[S i := x]> (x :: l)))
      with (nth i l d :: <[i := x]> l).
    apply replace_perm. lia.
  - change (<[S j := nth i l d]> (<[S i := nth j l d]> (x :: l)))
      with (x :: <[j := nth i l d]> (<[i := nth j l d]> l)).
    apply perm_skip, IH; lia.
Qed.

Lemma shuffle_perm i : forall result s,
  (i < length result)%nat \/ i = 0%nat ->
  Permutation (fst (shuffle w i result s)) result.
Proof.
  induction i as [|i IH]; intros result s Hi; [reflexivity | ].
  destruct Hi as [Hi | Hi]; [ | discriminate].
  cbn [shuffle]. unfold bind.
  pose proof (floor_random_range (Z.of_nat (S i) + 1) s ltac:(lia)) as Hr.
  destruct (floor_random_times w (Z.of_nat (S i) + 1) s) as [j s1].
  cbn [fst] in Hr.
  etransitivity.
  - apply IH. left. rewrite !length_insert. lia.
  - apply swap_perm; lia.
Qed.

Lemma generateRandomBins_spec count s :
  exists drawn,
    Permutation (fst (generateRandomBins w count s)) drawn
    /\ length drawn = Z.to_nat count /\ Forall is_bin6 drawn.
Proof.
  unfold generateRandomBins, bind.
  destruct (random_bins_spec (Z.to_nat count) [] s) as (new & E & Hl & Hf).
  destruct (random_bins w (Z.to_nat count) [] s) as [result s1].
  cbn [fst app] in E. subst result.
  exists new. split; [ | now split].
  apply shuffle_perm. destruct new; [now right | left; cbn; lia].
Qed.

Lemma generateRandomBins_result count s :
  length (fst (generateRandomBins w count s)) = Z.to_nat count
  /\ Forall is_bin6 (fst (generateRandomBins w count s)).
Proof.
  destruct (generateRandomBins_spec count s) as (drawn & Hp & Hl & Hf).
  split.
  - rewrite <- Hl. now apply Permutation_length.
  - eapply Permutation_Forall; [symmetry; exact Hp | exact Hf].
Qed.

(** X7. For a count below 2^32, the most an array holds,
    [generateRandomBins(count)] returns exactly [count] BINs (none for a
    count below one), each the decimal text of a number between 400000 and
    499999 or between 510000 and 559999; the shuffle only reorders what was
    drawn.  It reads nothing but [Math.random]: variables, files and trace
    stay as they were. *)
Theorem X7_random_bins_count_and_range count s :
  count < 2 ^ 32 ->
  length (fst (generateRandomBins w count s)) = Z.to_nat count
  /\ Forall is_bin6 (fst (generateRandomBins w count s))
  /\ g (exec (generateRandomBins w count) s) = g s
  /\ disk (exec (generateRandomBins w count) s) = disk s
  /\ trace (exec (generateRandomBins w count) s) = trace s.
Proof.
  intros _. destruct (generateRandomBins_result count s) as (Hl & Hf).
  split; [exact Hl | split; [exact Hf | split; [ | split]]].
  - now apply (keeps_generateRandomBins w g).
  - now apply (keeps_generateRandomBins w disk).
  - now apply (keeps_generateRandomBins w trace).
Qed.

End RandomBins.

(** ** The commands, one by one *)
Section MoreCommands.
Variable cfg : Config.
Variable w : World.

(** X8. [/gen] with a count that [parseInt] reads as a positive number
    below 2^32 answers with that many random BINs of the two ranges, joined
    by commas, in one message to the operator, and changes no variable but
    the poll offset and no file. *)
Theorem X8_gen_reply s i txt c a n :
  Js.startsWith txt "/" = true ->
  cmdParts_of txt = [c; a] ->
  Js.toLowerCase c = "/gen" ->
  Js.parseInt a = Some n -> 0 < n -> n < 2 ^ 32 ->
  (exists binsList,
      trace (exec (process_update cfg w (operator_update cfg i txt)) s)
      = (trace s ++ [Sent (ADMIN_ID cfg) (Js.join "," binsList) None])%list
      /\ length binsList = Z.to_nat n /\ Forall is_bin6 binsList)
  /\ run_state (g (exec (process_update cfg w (operator_update cfg i txt)) s))
     = run_state (g s)
  /\ disk (exec (process_update cfg w (operator_update cfg i txt)) s) = disk s.
Proof.
  intros Hs Hp Hc Ha Hn _.
  rewrite process_update_operator by assumption. rewrite Hp.
  unfold admin_command. cbn [nth]. rewrite Hc.
  cbn [String.eqb Ascii.eqb Bool.eqb].
  set (s0 := {| g := with_offset (i + 1) (g s); disk := disk s; cur := cur s;
                trace := trace s |}).
  unfold cmd_gen. cbn [length Nat.ltb Nat.leb nth]. rewrite Ha.
  rewrite (proj2 (Z.gtb_lt n 0) Hn).
  rewrite exec_bind.
  destruct (generateRandomBins_result w n s0) as (Hl & Hf).
  pose proof (keeps_generateRandomBins w g (fun _ => eq_refl) n s0) as Hg.
  pose proof (keeps_generateRandomBins w disk (fun _ => eq_refl) n s0) as Hd.
  pose proof (keeps_generateRandomBins w trace (fun _ => eq_refl) n s0) as Ht.
  cbv beta in Hg, Hd, Ht.
  set (l := fst (generateRandomBins w n s0)) in *.
  set (s1 := exec (generateRandomBins w n) s0) in *.
  change (snd (generateRandomBins w n s0)) with s1.
  split; [exists l; split; [ | now split] | split].
  - cbn. now rewrite Ht.
  - cbn. now rewrite Hg.
  - cbn. now rewrite Hd.
Qed.


(** Cards. *)
Lemma all_digits_append a b :
  all_digits a = true -> all_digits b = true -> all_digits (a ++ b) = true.
Proof.
  induction a as [|x a IH]; [auto | ].
  rewrite append_cons. cbn [all_digits]. intros H Hb.
  apply andb_true_iff in H as [Hx Ha]. now rewrite Hx, IH.
Qed.

Lemma is_digit_byte c :
  is_digit c = true -> Js.is_cont c = false /\ Js.tail_bytes c = 0%nat.
Proof. destruct c as [[] [] [] [] [] [] [] []]; vm_compute; intuition congruence. Qed.

Lemma chars_digits ds : all_digits ds = true -> Js.chars ds = singles ds.
Proof.
  induction ds as [|c ds IH]; [reflexivity | ]. cbn [all_digits]. intros H.
  apply andb_true_iff in H as [Hc Hd]. destruct (is_digit_byte c Hc) as [_ Ht].
  rewrite chars_cons, Ht. cbn [Js.take_cont fst snd singles]. now rewrite IH.
Qed.

Lemma count_units_singles ds : Js.count_units (singles ds) = String.length ds.
Proof.
  induction ds as [|c ds IH]; [reflexivity | ].
  cbn [singles Js.count_units String.length]. now rewrite IH.
Qed.

Lemma count_units_app l1 l2 :
  Js.count_units (l1 ++ l2) = (Js.count_units l1 + Js.count_units l2)%nat.
Proof.
  induction l1 as [|x l1 IH]; [reflexivity | ].
  cbn [app Js.count_units]. rewrite IH. lia.
Qed.

Lemma clean_start_digits ds : all_digits ds = true -> clean_start ds = true.
Proof.
  destruct ds as [|c ds]; [reflexivity | ]. cbn [all_digits clean_start]. intros H.
  apply andb_true_iff in H as [Hc _]. destruct (is_digit_byte c Hc) as [-> _]. reflexivity.
Qed.

(** Digits appended to a text add one code unit each. *)
Lemma length_app_digits a ds :
  all_digits ds = true -> Js.length (a ++ ds) = (Js.length a + String.length ds)%nat.
Proof.
  intros H. unfold Js.length.
  rewrite chars_app_clean by now apply clean_start_digits.
  now rewrite count_units_app, (chars_digits ds H), count_units_singles.
Qed.

Lemma is_cont_of_N m : (m < 64)%N -> Js.is_cont (ascii_of_N (128 + m)) = true.
Proof.
  intros H. unfold Js.is_cont. cbv zeta. rewrite N_ascii_embedding by lia.
  apply andb_true_iff. split; [apply N.leb_le | apply N.ltb_lt]; lia.
Qed.

Lemma utf8_half q :
  (q < 1024)%N ->
  exists b c, Js.utf8 (55296 + q) = String (ascii_of_N 237) (String b (String c ""))
              /\ Js.is_cont b = true /\ Js.is_cont c = true.
Proof.
  intros H. unfold Js.utf8.
  destruct (N.ltb_spec (55296 + q) 128) as [H1 | _]; [lia | ].
  destruct (N.ltb_spec (55296 + q) 2048) as [H2 | _]; [lia | ].
  assert (E : ((55296 + q) / 4096 = 13)%N).
  { symmetry. apply (N.div_unique _ _ _ (2048 + q)); lia. }
  rewrite E. eexists _, _. split; [reflexivity | ].
  split; apply is_cont_of_N; apply N.mod_lt; lia.
Qed.

(** The half of a character of two code units is a character of one. *)
Lemma high_half_spec x :
  Js.astral x = true ->
  exists b c, Js.high_half x = String (ascii_of_N 237) (String b (String c ""))
              /\ Js.is_cont b = true /\ Js.is_cont c = true.
Proof.
  destruct x as [|b0 [|b1 [|b2 [|b3 [|b4 x]]]]]; try discriminate. intros _.
  unfold Js.high_half. apply utf8_half. apply N.mod_lt. lia.
Qed.

Lemma char_ok_mono x r r' :
  (starts_cont r = false -> starts_cont r' = false) ->
  char_ok x r = true -> char_ok x r' = true.
Proof.
  intros Hm. destruct x as [|c t]; [auto | ]. unfold char_ok. intros H.
  apply andb_true_iff in H as [H1 H2]. rewrite H1. cbn [andb].
  apply orb_true_iff in H2 as [H2 | H2]; [now rewrite H2 | ].
  apply negb_true_iff in H2. rewrite (Hm H2). apply orb_true_r.
Qed.

Lemma take_units_ok n : forall l,
  tokenised l = true ->
  tokenised (Js.take_units n l) = true
  /\ (starts_cont l = false -> starts_cont (Js.take_units n l) = false)
  /\ (Js.count_units (Js.take_units n l) <= n)%nat.
Proof.
  induction n as [n IH] using lt_wf_ind. intros l Hl.
  destruct n as [|k]; [cbn; auto | ].
  destruct l as [|x r]; [cbn; auto with arith | ].
  cbn [tokenised] in Hl. apply andb_true_iff in Hl as [Hx Hr].
  cbn [Js.take_units]. destruct (Js.astral x) eqn:Ea.
  - destruct k as [|k'].
    + destruct (high_half_spec x Ea) as (b & c & -> & Hb & Hc).
      cbn [tokenised char_ok all_cont String.length starts_cont Js.single_cont
           Js.count_units].
      rewrite Hb, Hc. repeat split; reflexivity.
    + destruct (IH k' ltac:(lia) r Hr) as (H1 & H2 & H3).
      cbn [tokenised starts_cont Js.count_units]. unfold Js.units. rewrite Ea, H1.
      rewrite (char_ok_mono x r _ H2 Hx). repeat split; [auto | lia].
  - destruct (IH k ltac:(lia) r Hr) as (H1 & H2 & H3).
    cbn [tokenised starts_cont Js.count_units]. unfold Js.units. rewrite Ea, H1.
    rewrite (char_ok_mono x r _ H2 Hx). repeat split; [auto | lia].
Qed.

Lemma length_slice0 n s : (Js.length (Js.slice0 n s) <= n)%nat.
Proof.
  destruct (take_units_ok n (Js.chars s) (tokenised_chars s)) as (H1 & _ & H3).
  unfold Js.length, Js.slice0. now rewrite chars_text_of_tokenised.
Qed.

Lemma digit_text d :
  0 <= d < 10 ->
  String.length (Js.num_to_string d) = 1%nat /\ all_digits (Js.num_to_string d) = true.
Proof.
  intros H.
  assert (E : d = 0 \/ d = 1 \/ d = 2 \/ d = 3 \/ d = 4 \/ d = 5 \/ d = 6
              \/ d = 7 \/ d = 8 \/ d = 9) by lia.
  repeat destruct E as [-> | E]; try subst d; split; reflexivity.
Qed.

Lemma random_digits_spec n : forall tail s,
  exists ds,
    fst (random_digits w n tail s) = tail ++ ds
    /\ String.length ds = n /\ all_digits ds = true.
Proof.
  induction n as [|n IH]; intros tail s.
  - exists "". cbn. now rewrite append_empty_r.
  - cbn [random_digits]. unfold bind.
    pose proof (floor_random_range w 10 s ltac:(lia)) as Hr.
    destruct (floor_random_times w 10 s) as [d s1]. cbn [fst] in Hr.
    destruct (digit_text d Hr) as (Hl & Hd).
    destruct (IH (tail ++ Js.num_to_string d) s1) as (ds & E & Hn & Hds).
    exists (Js.num_to_string d ++ ds). rewrite E, string_append_assoc.
    split; [reflexivity | split].
    + rewrite string_length_append, Hl, Hn. reflexivity.
    + now apply all_digits_append.
Qed.

Lemma generateCardData_shape s :
  match fst (generateCardData w s) with
  | Some card => bins (disk s) <> [] /\ card_from (bins (disk s)) card
  | None => bins (disk s) = []
  end.
Proof.
  unfold generateCardData, loadBins, bind, readDisk, ret. cbn [fst snd].
  destruct (bins (disk s)) as [|b0 l] eqn:Eb; [reflexivity | ].
  cbn [length Nat.eqb].
  pose proof (floor_random_range w (Z.of_nat (S (length l))) s ltac:(lia)) as Hi.
  destruct (floor_random_times w (Z.of_nat (S (length l))) s) as [i s1].
  cbn [fst] in Hi.
  set (chosen := Js.slice0 6 (Js.trim (nth (Z.to_nat i) (b0 :: l) ""))).
  destruct (random_digits_spec (16 - Js.length chosen) "" s1) as (ds & Ed & Hn & Hds).
  destruct (random_digits w (16 - Js.length chosen) "" s1) as [tail s2].
  cbn [fst] in Ed. rewrite append_nil in Ed. subst tail.
  pose proof (floor_random_range w 16 s2 ltac:(lia)) as Hm.
  destruct (floor_random_times w 16 s2) as [m s3]. cbn [fst] in Hm.
  pose proof (floor_random_range w (32 - 24 + 1) s3 ltac:(lia)) as Hy.
  destruct (floor_random_times w (32 - 24 + 1) s3) as [y s4]. cbn [fst] in Hy.
  pose proof (floor_random_range w (999 - 100 + 1) s4 ltac:(lia)) as Hc.
  destruct (floor_random_times w (999 - 100 + 1) s4) as [c s5]. cbn [fst] in Hc.
  cbn [fst]. split; [discriminate | ].
  unfold card_from. cbn [bin card_number month year cvv].
  split; [ | split; [ | split; [ | split; [ | split]]]].
  - exists (nth (Z.to_nat i) (b0 :: l) ""). split; [ | reflexivity].
    apply nth_In. cbn [length]. lia.
  - exists ds. now split.
  - rewrite (length_app_digits chosen ds Hds), Hn.
    pose proof (length_slice0 6 (Js.trim (nth (Z.to_nat i) (b0 :: l) ""))).
    fold chosen in H. lia.
  - exists (m + 1). split; [lia | reflexivity].
  - exists (y + 24). split; [lia | reflexivity].
  - exists (c + 100). split; [lia | reflexivity].
Qed.

(** X9. [generateCardData()] returns [null] exactly when no BIN is
    stored.  Otherwise the card's BIN is the first six UTF-16 code units of
    a stored BIN (trimmed), its number is that BIN followed by random digits
    up to a length of sixteen code units, its month is a two-digit number from 01 to 16,
    its year one from 24 to 32 and its CVV one from 100 to 999; variables,
    files and trace stay as they were. *)
Theorem X9_card_shape s :
  match fst (generateCardData w s) with
  | Some card => bins (disk s) <> [] /\ card_from (bins (disk s)) card
  | None => bins (disk s) = []
  end
  /\ g (exec (generateCardData w) s) = g s
  /\ disk (exec (generateCardData w) s) = disk s
  /\ trace (exec (generateCardData w) s) = trace s.
Proof.
  split; [apply generateCardData_shape | split; [ | split]].
  - now apply (keeps_generateCardData w g).
  - now apply (keeps_generateCardData w disk).
  - now apply (keeps_generateCardData w trace).
Qed.



(** Adding and removing a BIN. *)
Lemma split_comma_no_comma b : no_comma b = true -> Js.split_comma b = [b].
Proof.
  induction b as [|c b IH]; [reflexivity | ].
  cbn [no_comma Js.split_comma]. intros H. apply andb_true_iff in H as [Hc Hb].
  apply negb_true_iff in Hc. now rewrite Hc, IH.
Qed.

Lemma filter_absent b l :
  ~ In b l -> List.filter (fun x => negb (String.eqb x b)) l = l.
Proof.
  induction l as [|x l IH]; [reflexivity | ].
  intros H. cbn [List.filter].
  destruct (String.eqb_spec x b) as [->|Hne]; cbn [negb].
  - exfalso. apply H. now left.
  - rewrite IH; [reflexivity | ]. intros Hb. apply H. now right.
Qed.

(** X11. Adding one new BIN with [/bin] appends it to the stored list,
    and removing it again with [/r] gives back the list as it was before. *)
Theorem X11_bin_then_remove_round_trip s i j b :
  is_token b = true -> no_comma b = true -> ~ In b (bins (disk s)) ->
  bins (disk (exec (process_update cfg w (operator_update cfg i ("/bin" ++ " " ++ b))) s))
  = (bins (disk s) ++ [b])%list
  /\ bins (disk (exec (process_update cfg w (operator_update cfg j ("/r" ++ " " ++ b)))
                   (exec (process_update cfg w
                            (operator_update cfg i ("/bin" ++ " " ++ b))) s)))
     = bins (disk s).
Proof.
  intros Ht Hc Hnew.
  assert (Hn : no_ws b = true).
  { unfold is_token in Ht. now apply andb_true_iff in Ht as [_ ?]. }
  assert (Hne : String.eqb b "" = false).
  { unfold is_token in Ht. apply andb_true_iff in Ht as [Ht _].
    now apply negb_true_iff in Ht. }
  assert (E1 : bins (disk (exec (process_update cfg w
                                   (operator_update cfg i ("/bin" ++ " " ++ b))) s))
               = (bins (disk s) ++ [b])%list).
  { rewrite process_update_operator by now apply startsWith_slash_append.
    rewrite (cmdParts_of_pair "/bin" " " b eq_refl eq_refl Ht).
    unfold admin_command. cbn [nth].
    change (Js.toLowerCase "/bin") with "/bin". cbn [String.eqb Ascii.eqb Bool.eqb].
    unfold cmd_bin, exec, loadBins, bind, readDisk, ret.
    cbn [length Nat.ltb Nat.leb nth fst snd disk].
    rewrite (remove_ws_no_ws b Hn), (split_comma_no_comma b Hc).
    cbn [add_bins]. rewrite (trim_no_ws b Hn), Hne.
    destruct (Js.includes (bins (disk s)) b) eqn:Ei.
    - apply includes_In in Ei. contradiction.
    - reflexivity. }
  split; [exact E1 | ].
  set (s1 := exec (process_update cfg w (operator_update cfg i ("/bin" ++ " " ++ b))) s)
    in *.
  rewrite process_update_operator by now apply startsWith_slash_append.
  rewrite (cmdParts_of_pair "/r" " " b eq_refl eq_refl Ht).
  unfold admin_command. cbn [nth].
  change (Js.toLowerCase "/r") with "/r". cbn [String.eqb Ascii.eqb Bool.eqb].
  unfold cmd_r, exec, loadBins, bind, readDisk, ret.
  cbn [length Nat.ltb Nat.leb nth fst snd disk].
  rewrite (trim_no_ws b Hn), E1.
  assert (Ei : Js.includes (bins (disk s) ++ [b]) b = true).
  { apply includes_In, in_or_app. right. now left. }
  rewrite Ei. cbn [saveBins writeDisk fst snd disk with_bins bins logEvent bind
                   readDisk Date_now await sendMessage emit ret].
  rewrite List.filter_app, (filter_absent b _ Hnew).
  cbn [List.filter]. rewrite String.eqb_refl. cbn [negb]. apply app_nil_r.
Qed.

(** X12. [/r <bin>] removes every occurrence of the (trimmed) BIN when it
    is stored, keeps the other BINs in their order, logs one [remove-bin]
    event and confirms; when the BIN is not stored the files stay as they
    were and the answer says so. *)
Theorem X12_remove_one_bin s i txt c a :
  Js.startsWith txt "/" = true ->
  cmdParts_of txt = [c; a] ->
  Js.toLowerCase c = "/r" ->
  let s' := exec (process_update cfg w (operator_update cfg i txt)) s in
  let b := Js.trim a in
  if Js.includes (bins (disk s)) b then
    bins (disk s') = List.filter (fun x => negb (String.eqb x b)) (bins (disk s))
    /\ ~ In b (bins (disk s'))
    /\ (forall x, x <> b -> (In x (bins (disk s')) <-> In x (bins (disk s))))
    /\ (exists stamp,
          events (disk s')
          = (events (disk s)
             ++ [{| ev_type := "remove-bin"; ev_timestamp := stamp;
                    ev_extra := [("bin", JStr b)] |}])%list)
    /\ trace s'
       = (trace s ++ [Sent (ADMIN_ID cfg) ("BIN " ++ b ++ " removed from the database.")
                        None])%list
  else
    disk s' = disk s
    /\ trace s'
       = (trace s ++ [Sent (ADMIN_ID cfg) ("BIN " ++ b ++ " not found in the database.")
                        None])%list.
Proof.
  intros Hs Hp Hc s' b. subst s'.
  rewrite process_update_operator by assumption. rewrite Hp.
  unfold admin_command. cbn [nth]. rewrite Hc.
  cbn [String.eqb Ascii.eqb Bool.eqb].
  unfold cmd_r, exec, loadBins, bind, readDisk, ret.
  cbn [length Nat.ltb Nat.leb nth fst snd disk]. fold b.
  destruct (Js.includes (bins (disk s)) b) eqn:Ei.
  - cbn. split; [reflexivity | split; [ | split; [ | split]]].
    + rewrite filter_In. intros [_ H]. now rewrite String.eqb_refl in H.
    + intros x Hx. rewrite filter_In. split; [tauto | ].
      intros H. split; [exact H | ]. apply negb_true_iff. now apply String.eqb_neq.
    + eexists. reflexivity.
    + reflexivity.
  - cbn. split; reflexivity.
Qed.

End MoreCommands.

(** ** Timed runs *)
Section Timing.
Variable cfg : Config.
Variable w : World.

(** X13. When the auto-stop fires and the clock has not gone backwards
    between its two readings, the one [auto-stop] event it logs reports a
    run of at least the scheduled length (stop time minus start time), the
    run is over and both timers are cleared. *)
Theorem X13_auto_stop_reports_full_run s se rs :
  stopEndTime (g s) = Some se -> runStartTime (g s) = Some rs -> se <> 0 ->
  1000 * se <= Date_now_at w (n_now (cur s)) ->
  Date_now_at w (n_now (cur s)) <= Date_now_at w (S (n_now (cur s))) ->
  (exists stamp ran,
      events (disk (exec (auto_stop_check cfg w) s))
      = (events (disk s)
         ++ [{| ev_type := "auto-stop"; ev_timestamp := stamp;
                ev_extra := [("ran_for_seconds", JNum ran)] |}])%list
      /\ ran = Date_now_at w (S (n_now (cur s))) / 1000 - rs
      /\ se - rs <= ran)
  /\ isRunning (g (exec (auto_stop_check cfg w) s)) = false
  /\ stopEndTime (g (exec (auto_stop_check cfg w) s)) = None
  /\ runStartTime (g (exec (auto_stop_check cfg w) s)) = None.
Proof.
  intros Hse Hrs Hnz Hnow Hmono. unfold auto_stop_check, exec, bind, globals.
  rewrite Hse. cbn [truthy to_number].
  rewrite (proj2 (Z.eqb_neq se 0) Hnz). cbn [negb Date_now].
  rewrite (proj2 (Z.geb_le _ _) Hnow).
  cbn. rewrite Hrs. cbn [to_number].
  set (now2 := Date_now_at w (S (n_now (cur s)))) in *.
  assert (E : (now2 - 1000 * rs) / 1000 = now2 / 1000 - rs).
  { replace (now2 - 1000 * rs) with (now2 + (- rs) * 1000) by lia.
    rewrite Z.div_add by lia. lia. }
  split; [ | auto].
  eexists _, _. split; [reflexivity | split; [exact E | ]].
  rewrite E. assert (se <= now2 / 1000); [ | lia].
  apply Z.div_le_lower_bound; lia.
Qed.

(** X14. Before the scheduled stop time the auto-stop check changes no
    variable and no file and sends nothing; the same holds when no stop is
    scheduled. *)
Theorem X14_auto_stop_not_early s :
  (forall se, stopEndTime (g s) = Some se ->
              Date_now_at w (n_now (cur s)) < 1000 * se) ->
  g (exec (auto_stop_check cfg w) s) = g s
  /\ disk (exec (auto_stop_check cfg w) s) = disk s
  /\ trace (exec (auto_stop_check cfg w) s) = trace s.
Proof.
  intros H. unfold auto_stop_check, exec, bind, globals.
  destruct (truthy (stopEndTime (g s))) eqn:Et; [ | auto].
  destruct (stopEndTime (g s)) as [se|]; [ | discriminate].
  specialize (H se eq_refl). cbn [Date_now fst snd to_number].
  destruct (Z.geb_spec (Date_now_at w (n_now (cur s))) (1000 * se)); [lia | auto].
Qed.

(** X15. An accepted [/time <seconds>], of a number that a double holds
    exactly, sets the interval to that number and restarts the wait from
    the clock reading it takes: with a positive interval no due-check is
    positive before that many seconds have passed since the command, and
    with an interval of zero or less every due-check of a running bot from
    that reading on is positive. *)
Theorem X15_time_restarts_the_wait s i txt c a v :
  Js.startsWith txt "/" = true ->
  cmdParts_of txt = [c; a] ->
  Js.toLowerCase c = "/time" ->
  Js.parseInt a = Some v -> exact_double v ->
  let s' := exec (process_update cfg w (operator_update cfg i txt)) s in
  let now := Date_now_at w (n_now (cur s)) in
  interval (g s') = v
  /\ lastSendTime (g s') = now
  /\ isRunning (g s') = isRunning (g s)
  /\ (forall t, t - now < 1000 * v -> due (g s') t = false)
  /\ (forall t, v <= 0 -> now <= t -> due (g s') t = isRunning (g s)).
Proof.
  intros Hs Hp Hc Ha _ s' now. subst s'.
  rewrite process_update_operator by assumption. rewrite Hp.
  unfold admin_command. cbn [nth]. rewrite Hc.
  cbn [String.eqb Ascii.eqb Bool.eqb].
  unfold cmd_time, exec. cbn [length Nat.ltb Nat.leb nth]. rewrite Ha.
  cbn. fold now. split; [reflexivity | split; [reflexivity | split; [reflexivity | ]]].
  unfold due. cbn. split.
  - intros t Ht. destruct (Z.geb_spec (t - now) (1000 * v)); [lia | ].
    apply andb_false_r.
  - intros t Hv Ht. destruct (Z.geb_spec (t - now) (1000 * v)); [ | lia].
    apply andb_true_r.
Qed.

Lemma emit_check_idle s :
  due (g s) (Date_now_at w (n_now (cur s))) = false ->
  emit_check cfg w s
  = (true, {| g := g s; disk := disk s; cur := tick_now (cur s); trace := trace s |}).
Proof.
  intros H. unfold emit_check, bind, globals, Date_now. cbn [fst snd g].
  now rewrite H.
Qed.

(** X16. [/start] leaves the bot running with no stop scheduled and the
    start time at the whole second of the clock reading, logs one [start]
    event and confirms; a stop that was scheduled before is thereby
    cancelled: the next auto-stop check does nothing, whatever the time. *)
Theorem X16_start_cancels_scheduled_stop s i txt :
  Js.startsWith txt "/" = true ->
  Js.toLowerCase (nth 0 (cmdParts_of txt) "") = "/start" ->
  let s' := exec (process_update cfg w (operator_update cfg i txt)) s in
  isRunning (g s') = true
  /\ stopEndTime (g s') = None
  /\ runStartTime (g s') = Some (Date_now_at w (n_now (cur s)) / 1000)
  /\ interval (g s') = interval (g s)
  /\ lastSendTime (g s') = lastSendTime (g s)
  /\ (exists stamp,
        events (disk s')
        = (events (disk s)
           ++ [{| ev_type := "start"; ev_timestamp := stamp;
                  ev_extra := [("mode", JStr "indefinite")] |}])%list)
  /\ exec (auto_stop_check cfg w) s' = s'.
Proof.
  intros Hs Hc s'. subst s'.
  rewrite process_update_operator by assumption.
  unfold admin_command. rewrite Hc. cbn [String.eqb Ascii.eqb Bool.eqb].
  unfold cmd_start, exec. cbn.
  repeat (split; [reflexivity | ]).
  split; [eexists; reflexivity | reflexivity].
Qed.

(** X17. [/stop] without argument stops the bot and clears both timers;
    its [stop] event carries the whole seconds run since the start when a
    run was on and nothing otherwise.  After it the emission step sends
    nothing and changes neither variables nor files, whatever the time. *)
Theorem X17_stop_now s i txt c :
  Js.startsWith txt "/" = true ->
  cmdParts_of txt = [c] ->
  Js.toLowerCase c = "/stop" ->
  let s' := exec (process_update cfg w (operator_update cfg i txt)) s in
  isRunning (g s') = false
  /\ stopEndTime (g s') = None
  /\ runStartTime (g s') = None
  /\ (exists stamp,
        events (disk s')
        = (events (disk s)
           ++ [{| ev_type := "stop"; ev_timestamp := stamp;
                  ev_extra :=
                    match runStartTime (g s) with
                    | Some rs =>
                        [("ran_for_seconds",
                          JNum (Date_now_at w (n_now (cur s)) / 1000 - rs))]
                    | None => []
                    end |}])%list)
  /\ g (exec (emit_check cfg w) s') = g s'
  /\ disk (exec (emit_check cfg w) s') = disk s'
  /\ trace (exec (emit_check cfg w) s') = trace s'.
Proof.
  intros Hs Hp Hc s'. subst s'.
  rewrite process_update_operator by assumption. rewrite Hp.
  unfold admin_command. cbn [nth]. rewrite Hc.
  cbn [String.eqb Ascii.eqb Bool.eqb].
  set (s0 := {| g := with_offset (i + 1) (g s); disk := disk s; cur := cur s;
                trace := trace s |}).
  assert (Hrun : isRunning (g (exec (cmd_stop cfg w [c]) s0)) = false
                 /\ stopEndTime (g (exec (cmd_stop cfg w [c]) s0)) = None
                 /\ runStartTime (g (exec (cmd_stop cfg w [c]) s0)) = None).
  { unfold cmd_stop, exec. cbn. destruct (runStartTime (g s)); cbn; auto. }
  destruct Hrun as (H1 & H2 & H3).
  split; [exact H1 | split; [exact H2 | split; [exact H3 | split]]].
  - unfold cmd_stop, exec. cbn. destruct (runStartTime (g s)) as [rs|]; cbn.
    + assert (E : (Date_now_at w (n_now (cur s)) - 1000 * rs) / 1000
                  = Date_now_at w (n_now (cur s)) / 1000 - rs).
      { replace (Date_now_at w (n_now (cur s)) - 1000 * rs)
          with (Date_now_at w (n_now (cur s)) + (- rs) * 1000) by lia.
        rewrite Z.div_add by lia. lia. }
      rewrite E. eexists. reflexivity.
    + eexists. reflexivity.
  - set (s1 := exec (cmd_stop cfg w [c]) s0) in *.
    unfold exec. rewrite emit_check_idle; [auto | ].
    unfold due. now rewrite H1.
Qed.

End Timing.

(** ** Reports, and what is ignored *)
Section Reports.
Variable cfg : Config.
Variable w : World.








Lemma admin_command_same_lower c1 c2 rest :
  Js.toLowerCase c1 = Js.toLowerCase c2 ->
  admin_command cfg w (c1 :: rest) = admin_command cfg w (c2 :: rest).
Proof.
  intros H. unfold admin_command. cbn [nth]. rewrite H.
  repeat match goal with
         | |- (if ?c then _ else _) = _ => destruct c; [reflexivity | ]
         end.
  reflexivity.
Qed.

(** X19. The name of a command is read without regard to letter case:
    two operator texts whose first tokens agree in lower case and whose
    arguments are the same are handled in exactly the same way. *)
Theorem X19_command_name_case_insensitive s i t1 t2 c1 c2 rest :
  Js.startsWith t1 "/" = true -> Js.startsWith t2 "/" = true ->
  cmdParts_of t1 = c1 :: rest -> cmdParts_of t2 = c2 :: rest ->
  Js.toLowerCase c1 = Js.toLowerCase c2 ->
  exec (process_update cfg w (operator_update cfg i t1)) s
  = exec (process_update cfg w (operator_update cfg i t2)) s.
Proof.
  intros H1 H2 E1 E2 Hc.
  rewrite !process_update_operator by assumption.
  now rewrite E1, E2, (admin_command_same_lower c1 c2 rest Hc).
Qed.

(** X20. A text of the operator that does not start with "/", or whose
    first token is none of the ten command names, is passed over in silence:
    nothing is sent or written and only the poll offset moves. *)
Theorem X20_unknown_operator_text_ignored s i txt :
  Js.startsWith txt "/" = false
  \/ ~ In (Js.toLowerCase (nth 0 (cmdParts_of txt) ""))
          ["/start"; "/stop"; "/stime"; "/time"; "/gen"; "/bin"; "/remove"; "/r";
           "/info"; "/logs"] ->
  exec (process_update cfg w (operator_update cfg i txt)) s
  = {| g := with_offset (i + 1) (g s); disk := disk s; cur := cur s;
       trace := trace s |}.
Proof.
  intros [H | H].
  - unfold process_update, operator_update, text_update, exec, bind, assign.
    cbn [message from_id text update_id fst snd]. now rewrite or_default_text, H.
  - destruct (Js.startsWith txt "/") eqn:Hs.
    + rewrite process_update_operator by assumption.
      unfold admin_command, exec.
      set (c := Js.toLowerCase (nth 0 (cmdParts_of txt) "")) in *.
      repeat match goal with
             | |- context [String.eqb c ?k] =>
                 destruct (String.eqb_spec c k) as [E | _];
                 [exfalso; apply H; rewrite E; cbn; tauto | ]
             end.
      reflexivity.
    + unfold process_update, operator_update, text_update, exec, bind, assign.
      cbn [message from_id text update_id fst snd]. now rewrite or_default_text, Hs.
Qed.

(** X21. When the BIN service answers, each of the six fields that
    [getBinDetails] returns is the service's value where it gave a
    non-empty one and the placeholder otherwise: "Unknown", and a white
    flag for the country flag.  When the look-up fails all six are the
    placeholders.  So no field is ever empty.  It changes neither variables
    nor files. *)
Theorem X21_bin_details_never_empty b s :
  let info := fst (getBinDetails w b s) in
  match getBinDetails_at w (n_bin (cur s)) with
  | BinOk data =>
      shown (data_brand data) "Unknown" (brand info)
      /\ shown (data_type data) "Unknown" (type info)
      /\ shown (data_level data) "Unknown" (level info)
      /\ shown (data_bank data) "Unknown" (bank info)
      /\ shown (data_country_name data) "Unknown" (country_name info)
      /\ shown (data_country_flag data) "🏳️" (country_flag info)
  | BinFailed =>
      info = {| brand := "Unknown"; type := "Unknown"; level := "Unknown";
                bank := "Unknown"; country_name := "Unknown";
                country_flag := "🏳️" |}
  end
  /\ brand info <> "" /\ type info <> "" /\ level info <> "" /\ bank info <> ""
  /\ country_name info <> "" /\ country_flag info <> ""
  /\ g (exec (getBinDetails w b) s) = g s
  /\ disk (exec (getBinDetails w b) s) = disk s.
Proof.
  assert (D : forall o d, d <> "" -> or_default o d <> "").
  { intros [[|c r]|] d Hd; unfold or_default; congruence. }
  assert (S : forall o d, shown o d (or_default o d)).
  { intros [[|c r]|] d; reflexivity. }
  unfold getBinDetails, bind, emit, exec. cbn [fst snd g cur disk].
  destruct (getBinDetails_at w (n_bin (cur s))) as [data|];
    cbn [fst snd g disk brand type level bank country_name country_flag].
  - split; [repeat split; apply S | ].
    repeat (split; [apply D; discriminate | ]). auto.
  - split; [reflexivity | ]. repeat (split; [discriminate | ]). auto.
Qed.

End Reports.

(** ** Arguments *)
Section ArgumentChecks.
Variable cfg : Config.
Variable w : World.

(** X22. An accepted [/stime <seconds>], of a number that a double holds
    exactly as it does the stop time, reads the clock once: the bot runs,
    the start time is the whole second of that reading and the stop is
    scheduled exactly the given number of seconds after the start time; one
    [stime] event with that duration is logged. *)
Theorem X22_stime_schedules_from_start s i txt c a secs :
  Js.startsWith txt "/" = true ->
  cmdParts_of txt = [c; a] ->
  Js.toLowerCase c = "/stime" ->
  Js.parseInt a = Some secs ->
  exact_double secs ->
  exact_double (Date_now_at w (n_now (cur s)) / 1000 + secs) ->
  let s' := exec (process_update cfg w (operator_update cfg i txt)) s in
  let start := Date_now_at w (n_now (cur s)) / 1000 in
  isRunning (g s') = true
  /\ runStartTime (g s') = Some start
  /\ stopEndTime (g s') = Some (start + secs)
  /\ interval (g s') = interval (g s)
  /\ lastSendTime (g s') = lastSendTime (g s)
  /\ (exists stamp,
        events (disk s')
        = (events (disk s)
           ++ [{| ev_type := "stime"; ev_timestamp := stamp;
                  ev_extra := [("duration_seconds", JNum secs)] |}])%list).
Proof.
  intros Hs Hp Hc Ha _ _ s' start. subst s'.
  rewrite process_update_operator by assumption. rewrite Hp.
  unfold admin_command. cbn [nth]. rewrite Hc.
  cbn [String.eqb Ascii.eqb Bool.eqb].
  unfold cmd_stime, exec. cbn [length Nat.ltb Nat.leb nth]. rewrite Ha.
  cbn. repeat (split; [reflexivity | ]). eexists. reflexivity.
Qed.

(** X23. [/stime], [/time], [/gen], [/bin] and [/r] sent without an
    argument are answered with their usage line and change neither the
    run-state nor the files. *)
Theorem X23_missing_argument_usage s i txt c :
  Js.startsWith txt "/" = true ->
  cmdParts_of txt = [c] ->
  In (Js.toLowerCase c) ["/stime"; "/time"; "/gen"; "/bin"; "/r"] ->
  trace (exec (process_update cfg w (operator_update cfg i txt)) s)
  = (trace s ++ [Sent (ADMIN_ID cfg) (missing_argument_usage (Js.toLowerCase c)) None])%list
  /\ run_state (g (exec (process_update cfg w (operator_update cfg i txt)) s))
     = run_state (g s)
  /\ disk (exec (process_update cfg w (operator_update cfg i txt)) s) = disk s.
Proof.
  intros Hs Hp Hc.
  rewrite process_update_operator by assumption. rewrite Hp.
  unfold admin_command, exec. cbn [nth]. cbn in Hc.
  destruct Hc as [Hc|[Hc|[Hc|[Hc|[Hc|[]]]]]]; rewrite <- Hc; cbn; auto.
Qed.

(** X24. [/gen] with a count that [parseInt] reads as zero or negative
    asks for a positive number and generates nothing: no random number is
    drawn, and neither the run-state nor the files change. *)
Theorem X24_gen_rejects_nonpositive s i txt c a n :
  Js.startsWith txt "/" = true ->
  cmdParts_of txt = [c; a] ->
  Js.toLowerCase c = "/gen" ->
  Js.parseInt a = Some n -> n <= 0 ->
  let s' := exec (process_update cfg w (operator_update cfg i txt)) s in
  trace s'
  = (trace s ++ [Sent (ADMIN_ID cfg) "Please specify a positive number for /gen." None])%list
  /\ n_random (cur s') = n_random (cur s)
  /\ run_state (g s') = run_state (g s)
  /\ disk s' = disk s.
Proof.
  intros Hs Hp Hc Ha Hn s'. subst s'.
  rewrite process_update_operator by assumption. rewrite Hp.
  unfold admin_command. cbn [nth]. rewrite Hc.
  cbn [String.eqb Ascii.eqb Bool.eqb].
  unfold cmd_gen, exec. cbn [length Nat.ltb Nat.leb nth]. rewrite Ha.
  destruct (Z.gtb_spec n 0); [lia | ]. cbn. auto.
Qed.

Lemma complete_chars l : forallb complete l = true -> Js.chars (Js.text_of l) = l.
Proof.
  intros H. apply chars_text_of_tokenised. rewrite <- (app_nil_r l).
  now apply tokenised_app_complete.
Qed.

Lemma forallb_filter {A} (p q : A -> bool) l :
  forallb p l = true -> forallb p (List.filter q l) = true.
Proof.
  induction l as [|x l IH]; [auto | ]. cbn [forallb List.filter]. intros H.
  apply andb_true_iff in H as [Hx Hl].
  destruct (q x); [cbn [forallb]; now rewrite Hx, IH | now apply IH].
Qed.

Lemma forallb_filter_same {A} (q : A -> bool) l : forallb q (List.filter q l) = true.
Proof.
  induction l as [|x l IH]; [reflexivity | ]. cbn [List.filter].
  destruct (q x) eqn:E; [cbn [forallb]; now rewrite E, IH | exact IH].
Qed.

Lemma cont_not_comma c : Js.is_cont c = true -> Ascii.eqb c "," = false.
Proof. destruct c as [[] [] [] [] [] [] [] []]; vm_compute; congruence. Qed.

Lemma all_cont_no_comma t : all_cont t = true -> no_comma t = true.
Proof.
  induction t as [|c t IH]; [reflexivity | ]. cbn [all_cont no_comma]. intros H.
  apply andb_true_iff in H as [Hc Ht]. now rewrite (cont_not_comma c Hc), IH.
Qed.

Lemma no_comma_append a b :
  no_comma a = true -> no_comma b = true -> no_comma (a ++ b) = true.
Proof.
  induction a as [|c a IH]; [auto | ]. rewrite append_cons. cbn [no_comma].
  intros H Hb. apply andb_true_iff in H as [Hc Ha]. now rewrite Hc, IH.
Qed.

Lemma split_comma_nonempty s : Js.split_comma s <> [].
Proof.
  destruct s as [|c s]; [discriminate | ]. cbn [Js.split_comma].
  destruct (Ascii.eqb c ","); [discriminate | ].
  destruct (Js.split_comma s); discriminate.
Qed.

Lemma split_comma_head x rest :
  no_comma x = true ->
  Js.split_comma (x ++ rest)
  = (x ++ hd "" (Js.split_comma rest)) :: tl (Js.split_comma rest).
Proof.
  induction x as [|c x IH]; intros H.
  - rewrite append_nil. pose proof (split_comma_nonempty rest) as Hn.
    destruct (Js.split_comma rest) as [|p ps]; [contradiction | ].
    cbn [hd tl]. now rewrite append_nil.
  - cbn [no_comma] in H. apply andb_true_iff in H as [Hc Hx].
    apply negb_true_iff in Hc. rewrite append_cons. cbn [Js.split_comma].
    rewrite Hc, (IH Hx). now rewrite append_cons.
Qed.

(** The pieces between the commas of a text are made of its characters. *)
Lemma split_comma_chars l :
  forallb complete l = true ->
  forallb (fun x => negb (Js.is_ws x)) l = true ->
  Forall (fun p => exists m, p = Js.text_of m /\ forallb complete m = true
                             /\ forallb (fun x => negb (Js.is_ws x)) m = true
                             /\ no_comma p = true)
         (Js.split_comma (Js.text_of l)).
Proof.
  induction l as [|x r IH]; intros Hc Hw.
  - cbn. constructor; [ | constructor]. now exists [].
  - cbn [forallb] in Hc, Hw.
    apply andb_true_iff in Hc as [Hx Hc]. apply andb_true_iff in Hw as [Hxw Hw].
    specialize (IH Hc Hw). cbn [Js.text_of].
    destruct x as [|c t]; [discriminate | ].
    pose proof Hx as Hx'. unfold complete in Hx'.
    apply andb_true_iff in Hx' as [Ht Hl].
    destruct (Ascii.eqb c ",") eqn:Ec.
    + apply Ascii.eqb_eq in Ec. subst c. apply Nat.eqb_eq in Hl.
      destruct t; [ | discriminate Hl].
      rewrite append_cons, append_nil. cbn [Js.split_comma Ascii.eqb Bool.eqb].
      constructor; [ | exact IH]. now exists [].
    + assert (Hn : no_comma (String c t) = true).
      { cbn [no_comma]. now rewrite Ec, (all_cont_no_comma t Ht). }
      rewrite (split_comma_head _ _ Hn).
      pose proof (split_comma_nonempty (Js.text_of r)) as Hne.
      destruct (Js.split_comma (Js.text_of r)) as [|p ps]; [contradiction | ].
      inversion IH as [|? ? (m & -> & Hm1 & Hm2 & Hm3) Hps]; subst.
      cbn [hd tl]. constructor; [ | exact Hps].
      exists (String c t :: m). cbn [Js.text_of forallb].
      rewrite Hx, Hxw, Hm1, Hm2. repeat split. now apply no_comma_append.
Qed.

Lemma submitted_tokens_clean a :
  well_formed a = true ->
  Forall (fun p => no_ws p = true /\ no_comma p = true) (submitted_tokens a).
Proof.
  intros Ha. unfold submitted_tokens, Js.remove_ws.
  pose proof (split_comma_chars
                (List.filter (fun x => negb (Js.is_ws x)) (Js.chars a))
                (forallb_filter _ _ _ Ha) (forallb_filter_same _ _)) as H.
  induction H as [|p ps (m & -> & Hm1 & Hm2 & Hm3) _ IH]; [constructor | ].
  assert (Hp : no_ws (Js.text_of m) = true).
  { unfold no_ws. now rewrite (complete_chars m Hm1). }
  cbn [map]. constructor; [ | exact IH].
  now rewrite (trim_no_ws _ Hp).
Qed.

(** X25. Whatever is submitted with [/bin], in a text none of whose
    characters is cut short, every BIN stored afterwards either was stored
    before or is a non-empty token free of white space and of commas. *)
Theorem X25_bin_stores_clean_tokens s i txt c a b :
  Js.startsWith txt "/" = true ->
  cmdParts_of txt = [c; a] ->
  well_formed a = true ->
  Js.toLowerCase c = "/bin" ->
  In b (bins (disk (exec (process_update cfg w (operator_update cfg i txt)) s))) ->
  In b (bins (disk s))
  \/ (b <> "" /\ no_ws b = true /\ no_comma b = true).
Proof.
  intros Hs Hp Hwf Hc Hb.
  rewrite process_update_operator in Hb by assumption. rewrite Hp in Hb.
  unfold admin_command in Hb. cbn [nth] in Hb. rewrite Hc in Hb.
  cbn [String.eqb Ascii.eqb Bool.eqb] in Hb.
  destruct (cmd_bin_spec cfg w [c; a] a
              {| g := with_offset (i + 1) (g s); disk := disk s; cur := cur s;
                 trace := trace s |} eq_refl eq_refl)
    as (added & Eb & _ & Hin & _).
  rewrite Eb in Hb. cbn [disk] in Hb, Hin.
  apply in_app_or in Hb as [Hb | Hb]; [now left | right].
  apply Hin in Hb as (Htok & Hne & _).
  split; [exact Hne | ].
  pose proof (submitted_tokens_clean a Hwf) as Hclean.
  rewrite Forall_forall in Hclean. apply Hclean. now apply list_elem_of_In.
Qed.

(** X26. While the bot is stopped, or before the interval has passed
    since [lastSendTime], the emission step does nothing but read the clock:
    no card is generated or sent, no counter moves, no variable changes, and
    the iteration goes on to its final sleep. *)
Theorem X26_no_emission_before_interval s :
  isRunning (g s) = false
  \/ Date_now_at w (n_now (cur s)) - lastSendTime (g s) < 1000 * interval (g s) ->
  emit_check cfg w s
  = (true, {| g := g s; disk := disk s; cur := tick_now (cur s); trace := trace s |}).
Proof.
  intros H. apply emit_check_idle. unfold due.
  destruct H as [-> | H]; [reflexivity | ].
  destruct (Z.geb_spec (Date_now_at w (n_now (cur s)) - lastSendTime (g s))
              (1000 * interval (g s))); [lia | apply andb_false_r].
Qed.

End ArgumentChecks.

(** ** Clearing the list, and the event report *)
Section Housekeeping.
Variable cfg : Config.
Variable w : World.

Lemma emit_check_no_bins s :
  due (g s) (Date_now_at w (n_now (cur s))) = true ->
  bins (disk s) = [] ->
  emit_check cfg w s
  = (false, {| g := g s; disk := disk s;
               cur := tick_send (tick_now (cur s));
               trace := (trace s ++ [Sent (ADMIN_ID cfg) no_bins_text None; Slept 5000])%list |}).
Proof.
  intros Hdue Hb.
  unfold emit_check, bind, globals, Date_now. cbn [fst snd g cur].
  rewrite Hdue.
  unfold generateCardData, loadBins, bind, readDisk. cbn [fst snd disk ret].
  rewrite Hb. cbn. now rewrite <- app_assoc.
Qed.

(** X27. [/remove] empties the BIN list whatever it held, logs one
    [remove-all] event and confirms; statistics and run-state stay.  From
    then on no card can be generated: a due emission only sends the no-BINs
    notice to the operator, sleeps five seconds and skips the final sleep. *)
Theorem X27_remove_all_then_no_card s i txt :
  Js.startsWith txt "/" = true ->
  Js.toLowerCase (nth 0 (cmdParts_of txt) "") = "/remove" ->
  let s' := exec (process_update cfg w (operator_update cfg i txt)) s in
  bins (disk s') = []
  /\ stats (disk s') = stats (disk s)
  /\ (exists stamp,
        events (disk s')
        = (events (disk s)
           ++ [{| ev_type := "remove-all"; ev_timestamp := stamp; ev_extra := [] |}])%list)
  /\ trace s'
     = (trace s ++ [Sent (ADMIN_ID cfg) "All BINs have been removed from the database."
                      None])%list
  /\ run_state (g s') = run_state (g s)
  /\ fst (generateCardData w s') = None
  /\ (due (g s') (Date_now_at w (n_now (cur s'))) = true ->
      fst (emit_check cfg w s') = false
      /\ trace (exec (emit_check cfg w) s')
         = (trace s' ++
            [Sent (ADMIN_ID cfg) "⚠️ No BINs in database. Add some with /bin <list>." None;
             Slept 5000])%list
      /\ g (exec (emit_check cfg w) s') = g s'
      /\ disk (exec (emit_check cfg w) s') = disk s').
Proof.
  intros Hs Hc s'.
  assert (Hb : bins (disk s') = []).
  { subst s'. rewrite process_update_operator by assumption.
    unfold admin_command. rewrite Hc. reflexivity. }
  split; [exact Hb | ].
  split; [ | split; [ | split; [ | split; [ | split]]]].
  - subst s'. rewrite process_update_operator by assumption.
    unfold admin_command. rewrite Hc. reflexivity.
  - subst s'. rewrite process_update_operator by assumption.
    unfold admin_command. rewrite Hc. eexists. reflexivity.
  - subst s'. rewrite process_update_operator by assumption.
    unfold admin_command. rewrite Hc. reflexivity.
  - subst s'. rewrite process_update_operator by assumption.
    unfold admin_command. rewrite Hc. reflexivity.
  - unfold generateCardData, loadBins, bind, readDisk. cbn [fst snd ret].
    now rewrite Hb.
  - intros Hdue. unfold exec. rewrite (emit_check_no_bins s' Hdue Hb).
    cbn [fst snd g disk trace]. auto.
Qed.


End Housekeeping.

(** ** The further properties at concrete inputs *)

Lemma first_iteration_runs t d :
  runs deployed (one_command_world t) (boot deployed d) (after_first_iteration t d).
Proof. apply rtc_once, step_iteration. repeat constructor. Qed.

Lemma X3_bin_list_witness :
  bins (disk (after_first_iteration "/bin 510000,400000,510000" used_disk))
  = ["400000"; "510000"]
  /\ bins_ok (disk (after_first_iteration "/bin 510000,400000,510000" used_disk)).
Proof.
  split; [vm_compute; reflexivity | ].
  apply (X3_bin_list_stays_distinct deployed
           (one_command_world "/bin 510000,400000,510000")
           (boot deployed used_disk)).
  - apply first_iteration_runs.
  - split; [repeat constructor; cbn; tauto | cbn; intuition discriminate].
Defined.

Lemma X4_addressing_witness :
  ADMIN_ID deployed <> CHANNEL_ID deployed
  /\ exists added,
       trace (after_first_iteration "/start" used_disk)
       = (trace (boot deployed used_disk) ++ added)%list
       /\ Forall (addressed deployed) added
       /\ forall t mk, In (Sent (CHANNEL_ID deployed) t mk) added ->
            mk = Some {| button_text := "Join"; button_url := "https://t.me/skylegacyy" |}
            /\ card_text t.
Proof.
  split; [discriminate | ].
  apply (X4_messages_are_addressed deployed (one_command_world "/start"));
    [discriminate | ].
  apply rtc_once, step_iteration.
  constructor; [ | constructor].
  intros msg H. injection H as <-. discriminate.
Defined.

Lemma X7_random_bins_witness :
  length (fst (generateRandomBins calm_world 3 (boot deployed empty_disk))) = 3%nat
  /\ Forall is_bin6 (fst (generateRandomBins calm_world 3 (boot deployed empty_disk))).
Proof.
  destruct (X7_random_bins_count_and_range calm_world 3 (boot deployed empty_disk))
    as (Hl & Hf & _); [lia | ].
  split; [exact Hl | exact Hf].
Defined.

Lemma X8_gen_witness :
  exists binsList,
    trace (exec (process_update deployed calm_world (operator_update deployed 1 "/gen 3"))
             (boot deployed empty_disk))
    = [Sent operator (Js.join "," binsList) None]
    /\ length binsList = 3%nat /\ Forall is_bin6 binsList.
Proof.
  destruct (X8_gen_reply deployed calm_world (boot deployed empty_disk) 1
              "/gen 3" "/gen" "3" 3) as ((l & Ht & Hl & Hf) & _).
  - reflexivity.
  - reflexivity.
  - reflexivity.
  - reflexivity.
  - lia.
  - lia.
  - exists l. split; [exact Ht | split; [exact Hl | exact Hf]].
Defined.


Lemma X11_round_trip_witness :
  bins (disk (exec (process_update deployed calm_world (operator_update deployed 2 "/r 510000"))
                (exec (process_update deployed calm_world
                         (operator_update deployed 1 "/bin 510000"))
                   (boot deployed used_disk))))
  = ["400000"].
Proof.
  apply (X11_bin_then_remove_round_trip deployed calm_world (boot deployed used_disk)
           1 2 "510000").
  - reflexivity.
  - reflexivity.
  - cbn. intuition discriminate.
Defined.

Lemma X12_remove_witness :
  Js.includes (bins (disk (boot deployed used_disk))) (Js.trim "400000") = true
  /\ bins (disk (exec (process_update deployed calm_world
                         (operator_update deployed 1 "/r 400000"))
                   (boot deployed used_disk))) = [].
Proof.
  split; [reflexivity | ].
  pose proof (X12_remove_one_bin deployed calm_world (boot deployed used_disk) 1
                "/r 400000" "/r" "400000" eq_refl eq_refl eq_refl) as H.
  cbv zeta in H.
  change (Js.includes (bins (disk (boot deployed used_disk))) (Js.trim "400000"))
    with true in H.
  exact (proj1 H).
Defined.

Lemma X13_auto_stop_elapsed_witness :
  exists stamp ran,
    events (disk (exec (auto_stop_check deployed auto_stop_world)
                    (exec (process_update deployed auto_stop_world
                             (operator_update deployed 1 "/stop 60"))
                       (boot deployed empty_disk))))
    = (events (disk (exec (process_update deployed auto_stop_world
                             (operator_update deployed 1 "/stop 60"))
                       (boot deployed empty_disk)))
       ++ [{| ev_type := "auto-stop"; ev_timestamp := stamp;
              ev_extra := [("ran_for_seconds", JNum ran)] |}])%list
    /\ 60 <= ran.
Proof.
  destruct (X13_auto_stop_reports_full_run deployed auto_stop_world
              (exec (process_update deployed auto_stop_world
                       (operator_update deployed 1 "/stop 60"))
                 (boot deployed empty_disk))
              1700000060 1700000000)
    as ((stamp & ran & He & _ & Hran) & _).
  - reflexivity.
  - reflexivity.
  - discriminate.
  - apply Z.leb_le. reflexivity.
  - apply Z.leb_le. reflexivity.
  - exists stamp, ran. split; [exact He | lia].
Defined.

Lemma X14_not_early_witness :
  stopEndTime (g (exec (process_update deployed calm_world
                          (operator_update deployed 1 "/stime 60"))
                    (boot deployed empty_disk))) = Some 1700000060
  /\ isRunning (g (exec (auto_stop_check deployed calm_world)
                     (exec (process_update deployed calm_world
                              (operator_update deployed 1 "/stime 60"))
                        (boot deployed empty_disk)))) = true.
Proof.
  split; [reflexivity | ].
  destruct (X14_auto_stop_not_early deployed calm_world
              (exec (process_update deployed calm_world
                       (operator_update deployed 1 "/stime 60"))
                 (boot deployed empty_disk))) as (Hg & _).
  - intros se H. vm_compute in H. injection H as <-. reflexivity.
  - rewrite Hg. reflexivity.
Defined.

Lemma X15_time_witness :
  interval (g (exec (process_update deployed calm_world (operator_update deployed 1 "/time 15"))
                 (started calm_world used_disk))) = 15
  /\ due (g (exec (process_update deployed calm_world (operator_update deployed 1 "/time 15"))
               (started calm_world used_disk))) (t0 + 14999) = false.
Proof.
  destruct (X15_time_restarts_the_wait deployed calm_world (started calm_world used_disk)
              1 "/time 15" "/time" "15" 15 eq_refl eq_refl eq_refl eq_refl)
    as (Hi & _ & _ & Hd & _); [unfold exact_double; lia | ].
  split; [exact Hi | ]. apply Hd. reflexivity.
Defined.

Lemma X16_start_witness :
  stopEndTime (g (exec (process_update deployed calm_world
                          (operator_update deployed 1 "/stime 60"))
                    (boot deployed empty_disk))) = Some 1700000060
  /\ stopEndTime (g (exec (process_update deployed calm_world
                             (operator_update deployed 2 "/Start"))
                       (exec (process_update deployed calm_world
                                (operator_update deployed 1 "/stime 60"))
                          (boot deployed empty_disk)))) = None.
Proof.
  split; [reflexivity | ].
  exact (proj1 (proj2 (X16_start_cancels_scheduled_stop deployed calm_world
                         (exec (process_update deployed calm_world
                                  (operator_update deployed 1 "/stime 60"))
                            (boot deployed empty_disk))
                         2 "/Start" eq_refl eq_refl))).
Defined.

Lemma X17_stop_witness :
  isRunning (g (started calm_world used_disk)) = true
  /\ isRunning (g (exec (process_update deployed calm_world (operator_update deployed 2 "/stop"))
                     (started calm_world used_disk))) = false.
Proof.
  split; [reflexivity | ].
  exact (proj1 (X17_stop_now deployed calm_world (started calm_world used_disk)
                  2 "/stop" "/stop" eq_refl eq_refl eq_refl)).
Defined.


Lemma X19_case_witness :
  exec (process_update deployed calm_world (operator_update deployed 1 "/STime 60"))
    (boot deployed empty_disk)
  = exec (process_update deployed calm_world (operator_update deployed 1 "/stime 60"))
      (boot deployed empty_disk).
Proof.
  apply (X19_command_name_case_insensitive deployed calm_world (boot deployed empty_disk)
           1 "/STime 60" "/stime 60" "/STime" "/stime" ["60"]); reflexivity.
Defined.

Lemma X20_ignored_witness :
  exec (process_update deployed calm_world (operator_update deployed 4 "/help me"))
    (boot deployed used_disk)
  = {| g := with_offset 5 (g (boot deployed used_disk)); disk := used_disk;
       cur := cur (boot deployed used_disk); trace := [] |}.
Proof.
  apply (X20_unknown_operator_text_ignored deployed calm_world (boot deployed used_disk)
           4 "/help me").
  right. vm_compute. intuition discriminate.
Defined.

Lemma X22_stime_witness :
  runStartTime (g (exec (process_update deployed straddling_world
                           (operator_update deployed 1 "/stime 60"))
                     (boot deployed empty_disk))) = Some 1700000000
  /\ stopEndTime (g (exec (process_update deployed straddling_world
                             (operator_update deployed 1 "/stime 60"))
                       (boot deployed empty_disk))) = Some (1700000000 + 60).
Proof.
  destruct (X22_stime_schedules_from_start deployed straddling_world
              (boot deployed empty_disk) 1 "/stime 60" "/stime" "60" 60
              eq_refl eq_refl eq_refl eq_refl) as (_ & H1 & H2 & _).
  - unfold exact_double. lia.
  - split; apply Z.leb_le; reflexivity.
  - split; [exact H1 | exact H2].
Defined.

Lemma X23_missing_argument_witness :
  trace (exec (process_update deployed calm_world (operator_update deployed 1 "/bin"))
           (boot deployed used_disk))
  = [Sent operator "Usage: /bin <comma-separated BINs>" None]
  /\ disk (exec (process_update deployed calm_world (operator_update deployed 1 "/bin"))
             (boot deployed used_disk)) = used_disk.
Proof.
  destruct (X23_missing_argument_usage deployed calm_world (boot deployed used_disk)
              1 "/bin" "/bin") as (Ht & _ & Hd).
  - reflexivity.
  - reflexivity.
  - right. right. right. left. reflexivity.
  - split; [exact Ht | exact Hd].
Defined.

Lemma X24_gen_nonpositive_witness :
  trace (exec (process_update deployed calm_world (operator_update deployed 1 "/gen -2"))
           (boot deployed used_disk))
  = [Sent operator "Please specify a positive number for /gen." None].
Proof.
  destruct (X24_gen_rejects_nonpositive deployed calm_world (boot deployed used_disk)
              1 "/gen -2" "/gen" "-2" (-2)) as (Ht & _).
  - reflexivity.
  - reflexivity.
  - reflexivity.
  - reflexivity.
  - lia.
  - exact Ht.
Defined.

Lemma X25_clean_tokens_witness :
  In "510000"
    (bins (disk (exec (process_update deployed calm_world
                         (operator_update deployed 1 "/bin ,510000,,"))
                   (boot deployed used_disk))))
  /\ (In "510000" (bins used_disk)
      \/ ("510000" <> "" /\ no_ws "510000" = true /\ no_comma "510000" = true)).
Proof.
  assert (H : In "510000"
                (bins (disk (exec (process_update deployed calm_world
                                     (operator_update deployed 1 "/bin ,510000,,"))
                               (boot deployed used_disk))))).
  { vm_compute. tauto. }
  split; [exact H | ].
  apply (X25_bin_stores_clean_tokens deployed calm_world (boot deployed used_disk) 1
           "/bin ,510000,," "/bin" ",510000,," "510000"); [reflexivity .. | exact H].
Defined.

Lemma X26_no_emission_witness :
  emit_check deployed calm_world (boot deployed used_disk)
  = (true, {| g := g (boot deployed used_disk); disk := used_disk;
              cur := tick_now (cur (boot deployed used_disk)); trace := [] |}).
Proof.
  apply (X26_no_emission_before_interval deployed calm_world (boot deployed used_disk)).
  left. reflexivity.
Defined.

Lemma X27_remove_all_witness :
  bins (disk (exec (process_update deployed calm_world (operator_update deployed 2 "/remove"))
                (started calm_world used_disk))) = []
  /\ trace (exec (emit_check deployed calm_world)
              (exec (process_update deployed calm_world (operator_update deployed 2 "/remove"))
                 (started calm_world used_disk)))
     = [Sent operator "▶️ Bot started sending cards indefinitely." None;
        Sent operator "All BINs have been removed from the database." None;
        Sent operator "⚠️ No BINs in database. Add some with /bin <list>." None;
        Slept 5000].
Proof.
  destruct (X27_remove_all_then_no_card deployed calm_world (started calm_world used_disk)
              2 "/remove" eq_refl eq_refl) as (Hb & _ & _ & Ht & _ & _ & He).
  split; [exact Hb | ].
  destruct He as (_ & He & _); [reflexivity | ].
  rewrite He, Ht. reflexivity.
Defined.

